(** * The scan engine of the API security tester

    A shallow embedding of [core/scanner.py] (the [ScanSession] aggregate and
    [SecurityScanner.run_scan]), of the risk scoring functions of [helpers.py]
    and of the shape of the plan returned by [agents/coordinator_agent.py],
    followed by the properties of the engine.

    Python objects that are mutated in place and can be reached through more
    than one reference (the session, its [results] list and its [summary]
    dictionary) live in an explicit store; methods are computations in a
    state-and-exception monad over that store. A list handed to
    [add_results] is a list of that store, the session's own [results]
    included, or a list that only the caller holds. *)

From Stdlib Require Import ZArith Ascii String List Lia.
From stdpp Require Import base strings gmap list fin_maps.

(** ** Python strings *)

Module pystr.

(** [str.upper] on the ASCII range: [a..z] go to [A..Z], every other
    character is left alone. *)
Definition upper_char (c : ascii) : ascii :=
  let n := nat_of_ascii c in
  if (97 <=? n)%nat && (n <=? 122)%nat then ascii_of_nat (n - 32) else c.

Fixpoint upper (s : string) : string :=
  match s with
  | EmptyString => EmptyString
  | String c s' => String (upper_char c) (upper s')
  end.

Definition digit (d : Z) : ascii :=
  match d with
  | 0 => "0" | 1 => "1" | 2 => "2" | 3 => "3" | 4 => "4"
  | 5 => "5" | 6 => "6" | 7 => "7" | 8 => "8" | _ => "9"
  end%Z%char.

(** [digits w n rest] is the decimal numeral of [n], zero-padded to [w]
    digits, followed by [rest] (the [%0wd] conversions of [strftime] and
    [isoformat]; [n] is expected in [0 .. 10^w - 1]). *)
Fixpoint digits (w : nat) (n : Z) (rest : string) : string :=
  match w with
  | O => rest
  | S w' => digits w' (n / 10) (String (digit (n mod 10)) rest)
  end.

End pystr.

(** ** [datetime] *)

Record datetime := Datetime {
  year : Z; month : Z; day : Z;
  hour : Z; minute : Z; second : Z; microsecond : Z
}.

Global Instance datetime_eq_dec : EqDecision datetime.
Proof. solve_decision. Defined.

(** The field ranges of a [datetime] whose year prints on four digits. *)
Definition datetime_valid (t : datetime) : Prop :=
  (1000 <= year t <= 9999 /\ 1 <= month t <= 12 /\ 1 <= day t <= 31 /\
   0 <= hour t <= 23 /\ 0 <= minute t <= 59 /\ 0 <= second t <= 59 /\
   0 <= microsecond t <= 999999)%Z.

(** [t.strftime("%Y%m%d_%H%M%S")] *)
Definition strftime_Ymd_HMS (t : datetime) : string :=
  pystr.digits 4 (year t) (pystr.digits 2 (month t) (pystr.digits 2 (day t)
    (String "_" (pystr.digits 2 (hour t) (pystr.digits 2 (minute t)
      (pystr.digits 2 (second t) "")))))).

(** [t.isoformat()]: the fraction is printed only when it is not zero. *)
Definition isoformat (t : datetime) : string :=
  pystr.digits 4 (year t) (String "-" (pystr.digits 2 (month t) (String "-"
    (pystr.digits 2 (day t) (String "T" (pystr.digits 2 (hour t) (String ":"
      (pystr.digits 2 (minute t) (String ":" (pystr.digits 2 (second t)
        (if (microsecond t =? 0)%Z then ""
         else String "." (pystr.digits 6 (microsecond t) "")))))))))))).

(** ** Values, exceptions and the store *)

(** A finding is a dictionary from field names ([test], [category],
    [status], [severity], [url], ...) to strings. *)
Abbreviation finding := (gmap string string).

(** An exception derived from [Exception]: its class name and [str(e)].
    [KeyboardInterrupt] and [SystemExit], which [except Exception] lets
    through, are not part of the model. *)
Record exn := Exn { exn_class : string; exn_msg : string }.

Global Instance exn_eq_dec : EqDecision exn.
Proof. solve_decision. Defined.

Inductive completion (A : Type) : Type :=
  | Normal (a : A)
  | Raised (e : exn).
Arguments Normal {A} a.
Arguments Raised {A} e.

Definition loc := positive.

Record ScanSession := Session {
  target_url : string;
  scan_id : string;
  start_time : datetime;
  end_time : option datetime;
  results : loc;      (* reference to the list object *)
  summary : loc       (* reference to the dict object *)
}.

(** What the scanner writes to the console: the opening lines of a scan as
    one event, the task line of the progress display, then one event per
    [print]. *)
Inductive event :=
  | Out_start (target scan : string) (tests : nat)
  | Out_running (name : string)
  | Out_found (vulnerable_count : nat)
  | Out_passed
  | Out_error (msg : string).

Record world := World {
  sessions : gmap loc ScanSession;
  lists : gmap loc (list finding);
  dicts : gmap loc (gmap string Z);
  console : list event
}.

Definition empty_world : world := World ∅ ∅ ∅ [].

Definition set_sessions (f : gmap loc ScanSession → gmap loc ScanSession)
    (w : world) : world :=
  World (f (sessions w)) (lists w) (dicts w) (console w).
Definition set_lists (f : gmap loc (list finding) → gmap loc (list finding))
    (w : world) : world :=
  World (sessions w) (f (lists w)) (dicts w) (console w).
Definition set_dicts (f : gmap loc (gmap string Z) → gmap loc (gmap string Z))
    (w : world) : world :=
  World (sessions w) (lists w) (f (dicts w)) (console w).
Definition set_console (f : list event → list event) (w : world) : world :=
  World (sessions w) (lists w) (dicts w) (f (console w)).

(** Computations: a result or an exception, and the store they leave. *)
Definition Py (A : Type) : Type := world → completion A * world.

Definition ret {A} (a : A) : Py A := λ w, (Normal a, w).
Definition raise {A} (e : exn) : Py A := λ w, (Raised e, w).
Definition bind {A B} (m : Py A) (k : A → Py B) : Py B :=
  λ w, match m w with
       | (Normal a, w') => k a w'
       | (Raised e, w') => (Raised e, w')
       end.

Notation "'do' x <- m ; k" := (bind m (λ x, k))
  (at level 10, x name, m at level 100, k at level 200,
   format "'[v' 'do'  x  <-  m ; '/' k ']'").
Notation "m ;; k" := (bind m (λ _, k))
  (at level 100, k at level 200, right associativity).

(** [try: body except Exception as e: handler e] *)
Definition try_except {A} (body : Py A) (handler : exn → Py A) : Py A :=
  λ w, match body w with
       | (Normal a, w') => (Normal a, w')
       | (Raised e, w') => handler e w'
       end.

(** [for x in xs: body x] *)
Fixpoint for_each {A} (xs : list A) (body : A → Py unit) : Py unit :=
  match xs with
  | [] => ret tt
  | x :: xs' => body x ;; for_each xs' body
  end.

Definition KeyError (k : string) : exn := Exn "KeyError" k.

(** A reference without an object behind it. Python has no such thing; the
    store reached from [ScanSession_init] never produces it
    (see [add_results_steps] and [run_scan_steps]). *)
Definition dangling {A} : Py A := raise (Exn "SystemError" "dangling reference").

Definition new_list (xs : list finding) : Py loc :=
  λ w, let l := fresh (dom (lists w)) in
       (Normal l, set_lists <[l := xs]> w).

Definition new_dict (d : gmap string Z) : Py loc :=
  λ w, let l := fresh (dom (dicts w)) in
       (Normal l, set_dicts <[l := d]> w).

Definition new_session (s : ScanSession) : Py loc :=
  λ w, let l := fresh (dom (sessions w)) in
       (Normal l, set_sessions <[l := s]> w).

Definition get_session (self : loc) : Py ScanSession :=
  λ w, match sessions w !! self with
       | Some s => (Normal s, w)
       | None => dangling w
       end.

(** [l.extend(xs)] *)
Definition list_extend (l : loc) (xs : list finding) : Py unit :=
  λ w, match lists w !! l with
       | Some ys => (Normal tt, set_lists <[l := ys ++ xs]> w)
       | None => dangling w
       end.

(** [d[k]] *)
Definition dict_getitem (l : loc) (k : string) : Py Z :=
  λ w, match dicts w !! l with
       | Some d =>
           match d !! k with
           | Some v => (Normal v, w)
           | None => raise (KeyError k) w
           end
       | None => dangling w
       end.

(** [d[k] = v] *)
Definition dict_setitem (l : loc) (k : string) (v : Z) : Py unit :=
  λ w, match dicts w !! l with
       | Some d => (Normal tt, set_dicts <[l := <[k := v]> d]> w)
       | None => dangling w
       end.

(** [d[k] += n] *)
Definition dict_iadd (l : loc) (k : string) (n : Z) : Py unit :=
  do v <- dict_getitem l k;
  dict_setitem l k (v + n).

Definition console_print (e : event) : Py unit :=
  λ w, (Normal tt, set_console (λ out, out ++ [e]) w).

(** ** [class ScanSession] *)

(** [ScanSession(target_url, scan_id)]; [now_id] and [now_start] are the two
    readings of [datetime.now()], the first one taken only when [scan_id] is
    [None] or empty. *)
Definition ScanSession_init (target : string) (scan : option string)
    (now_id now_start : datetime) : Py loc :=
  let scan_id :=
    match scan with
    | Some s => if decide (s = "") then strftime_Ymd_HMS now_id else s
    | None => strftime_Ymd_HMS now_id
    end in
  do r <- new_list [];
  do d <- new_dict (list_to_map
            [("total_tests", 0%Z); ("vulnerabilities_found", 0%Z);
             ("critical", 0%Z); ("high", 0%Z); ("medium", 0%Z); ("low", 0%Z);
             ("info", 0%Z); ("passed", 0%Z)]);
  new_session (Session target scan_id now_start None r d).

(** [result.get(k, "").upper()] *)
Definition get_upper (result : finding) (k : string) : string :=
  pystr.upper (default "" (result !! k)).

(** A list as a caller hands it to a method: a list that nothing in the
    store refers to (a literal, the list that a test returns), given by its
    elements, or a list object of the store, given by its reference. *)
Inductive pylist :=
  | Elements (xs : list finding)
  | Object (l : loc).

(** The elements of the list behind a reference. *)
Definition list_get (l : loc) : Py (list finding) :=
  λ w, match lists w !! l with
       | Some rs => (Normal rs, w)
       | None => dangling w
       end.

(** The elements of a list at the time it is read. *)
Definition elements (a : pylist) : Py (list finding) :=
  match a with
  | Elements xs => ret xs
  | Object l => list_get l
  end.

(** [add_results(test_results)]. The argument is read three times, by
    [extend], by [len] and by the loop, the last two after the session's
    list has been extended: when it is the session's own list they see the
    extended list. *)
Definition add_results (self : loc) (test_results : pylist) : Py unit :=
  do s <- get_session self;
  do items <- elements test_results;
  list_extend (results s) items ;;
  do items <- elements test_results;
  dict_iadd (summary s) "total_tests" (Z.of_nat (length items)) ;;
  do items <- elements test_results;
  for_each items (λ result,
    let status := get_upper result "status" in
    let severity := get_upper result "severity" in
    if decide (status = "VULNERABLE") then
      dict_iadd (summary s) "vulnerabilities_found" 1 ;;
      if decide (severity = "CRITICAL") then dict_iadd (summary s) "critical" 1
      else if decide (severity = "HIGH") then dict_iadd (summary s) "high" 1
      else if decide (severity = "MEDIUM") then dict_iadd (summary s) "medium" 1
      else if decide (severity = "LOW") then dict_iadd (summary s) "low" 1
      else ret tt
    else if decide (status = "INFO") then dict_iadd (summary s) "info" 1
    else if decide (status = "PASSED") then dict_iadd (summary s) "passed" 1
    else ret tt).

(** [finalize()]; [now] is the reading of [datetime.now()]. *)
Definition finalize (self : loc) (now : datetime) : Py unit :=
  do s <- get_session self;
  λ w, (Normal tt,
        set_sessions <[self := Session (target_url s) (scan_id s) (start_time s)
                                       (Some now) (results s) (summary s)]> w).

(** The text returned by [get_duration]: ["In progress"], or the elapsed
    seconds [(end_time - start_time).total_seconds()] printed with two
    decimals; the elapsed time is kept as the two instants it is computed
    from. *)
Inductive duration_text :=
  | In_progress
  | Seconds_between (started ended : datetime).

Definition get_duration (self : loc) : Py duration_text :=
  do s <- get_session self;
  ret (match end_time s with
       | Some e => Seconds_between (start_time s) e
       | None => In_progress
       end).

(** The dictionary built by [to_dict]: five entries hold values computed at
    the call, the entries [summary] and [results] hold the references stored
    in the session. *)
Record session_dict := SessionDict {
  d_scan_id : string;
  d_target_url : string;
  d_start_time : string;
  d_end_time : option string;
  d_duration : duration_text;
  d_summary : loc;
  d_results : loc
}.

Definition to_dict (self : loc) : Py session_dict :=
  do s <- get_session self;
  do duration <- get_duration self;
  ret (SessionDict (scan_id s) (target_url s) (isoformat (start_time s))
         (isoformat <$> end_time s) duration (summary s) (results s)).

(** What a consumer of the dictionary ([json.dump], the HTML and PDF
    generators) reads from it: the entries, with the two references followed
    into the store. *)
Record session_data := SessionData {
  v_scan_id : string;
  v_target_url : string;
  v_start_time : string;
  v_end_time : option string;
  v_duration : duration_text;
  v_summary : gmap string Z;
  v_results : list finding
}.

Definition read_dict (d : session_dict) : Py session_data :=
  λ w, match dicts w !! d_summary d, lists w !! d_results d with
       | Some sm, Some rs =>
           (Normal (SessionData (d_scan_id d) (d_target_url d) (d_start_time d)
                      (d_end_time d) (d_duration d) sm rs), w)
       | _, _ => dangling w
       end.

(** ** [class SecurityScanner] *)

(** A test class of the registry [ALL_TESTS]: its descriptor and what
    [test.run(target_url, headers=headers)] does, a list of findings or an
    exception. *)
Record test_class := TestClass {
  name : string;
  category : string;
  severity : string;
  run : string → gmap string string → completion (list finding)
}.

Record SecurityScanner := Scanner {
  test_classes : list test_class
}.

(** The plan dictionary that [CoordinatorAgent.create_scan_plan] asks the
    model for. *)
Record priority_test := PriorityTest {
  test_id : string;
  test_name : string;
  priority : string;
  reason : string
}.

Record ScanPlan := Plan {
  priority_tests : list priority_test;
  recommended_order : list string;
  estimated_duration_minutes : Z;
  special_considerations : list string
}.

(** The [config] dictionary: [target_url] is mandatory, [headers] and
    [selected_tests] are optional; [scan_plan] is the key under which
    [CoordinatorAgent.plan_scan] hands out its plan. *)
Record config := Config {
  cfg_target_url : string;
  cfg_headers : option (gmap string string);
  cfg_selected_tests : option (list test_class);
  cfg_scan_plan : option ScanPlan
}.

(** [sum(1 for r in results if r.get("status") == "VULNERABLE")] *)
Definition vulnerable_count (rs : list finding) : nat :=
  length (filter (λ r : finding, r !! "status" = Some "VULNERABLE") rs).

(** [run_scan(config)]; [now_id], [now_start] and [now_end] are the readings
    of the clock at the creation of the session and at [finalize]. *)
Definition run_scan (self : SecurityScanner) (cfg : config)
    (now_id now_start now_end : datetime) : Py loc :=
  let target_url := cfg_target_url cfg in
  let headers := default ∅ (cfg_headers cfg) in
  let selected_tests := default (test_classes self) (cfg_selected_tests cfg) in
  do session <- ScanSession_init target_url None now_id now_start;
  do s <- get_session session;
  console_print (Out_start target_url (scan_id s) (length selected_tests)) ;;
  for_each selected_tests (λ test,
    console_print (Out_running (name test)) ;;
    try_except
      (do results <- (λ w, (run test target_url headers, w));
       add_results session (Elements results) ;;
       if (0 <? vulnerable_count results)%nat
       then console_print (Out_found (vulnerable_count results))
       else console_print Out_passed)
      (λ e, console_print (Out_error (exn_msg e)))) ;;
  finalize session now_end ;;
  ret session.

(** The names of the tests started so far, in the order they were started. *)
Definition started (w : world) : list string :=
  omap (λ e, match e with Out_running n => Some n | _ => None end) (console w).

(** ** [helpers.py] *)

Module helpers.

Definition weights : gmap string Z :=
  list_to_map [("critical", 25%Z); ("high", 15%Z); ("medium", 8%Z); ("low", 3%Z)].

Definition calculate_risk_score (summary : gmap string Z) : Z :=
  let score := 0%Z in
  let score := (score + default 0 (summary !! "critical") * (weights !!! "critical"))%Z in
  let score := (score + default 0 (summary !! "high") * (weights !!! "high"))%Z in
  let score := (score + default 0 (summary !! "medium") * (weights !!! "medium"))%Z in
  let score := (score + default 0 (summary !! "low") * (weights !!! "low"))%Z in
  Z.min score 100.

Definition get_risk_level (score : Z) : string :=
  if (75 <=? score)%Z then "CRITICAL"
  else if (50 <=? score)%Z then "HIGH"
  else if (25 <=? score)%Z then "MEDIUM"
  else "LOW".

End helpers.

(** ** Reading a session back *)

(** The list and the dictionary behind a session's two references. *)
Definition read_session (self : loc) : Py (list finding * gmap string Z) :=
  do s <- get_session self;
  λ w, match lists w !! results s, dicts w !! summary s with
       | Some rs, Some d => (Normal (rs, d), w)
       | _, _ => dangling w
       end.

(** A fresh session followed by a sequence of [add_results] calls, each of
    them with a list of the caller's own. *)
Definition session_after (target : string) (scan : option string)
    (now_id now_start : datetime) (calls : list (list finding)) : Py loc :=
  do self <- ScanSession_init target scan now_id now_start;
  for_each calls (λ batch, add_results self (Elements batch)) ;;
  ret self.

(** ** The summary recomputed from the results *)

Definition has_status (st : string) (r : finding) : Prop :=
  get_upper r "status" = st.

Definition has_severity (sev : string) (r : finding) : Prop :=
  get_upper r "status" = "VULNERABLE" ∧ get_upper r "severity" = sev.

Global Instance has_status_dec st r : Decision (has_status st r).
Proof. unfold has_status. apply _. Defined.
Global Instance has_severity_dec sev r : Decision (has_severity sev r).
Proof. unfold has_severity. apply _. Defined.

Definition count (P : finding → Prop) `{∀ r, Decision (P r)}
    (rs : list finding) : Z :=
  Z.of_nat (length (filter P rs)).

Record counters := Counters {
  c_total : Z; c_vulnerabilities : Z;
  c_critical : Z; c_high : Z; c_medium : Z; c_low : Z;
  c_info : Z; c_passed : Z
}.

Definition dict_of (c : counters) : gmap string Z :=
  list_to_map
    [("total_tests", c_total c); ("vulnerabilities_found", c_vulnerabilities c);
     ("critical", c_critical c); ("high", c_high c); ("medium", c_medium c);
     ("low", c_low c); ("info", c_info c); ("passed", c_passed c)].

(** The summary as the specification words it, recomputed from the results
    alone: every counter is the number of matching findings of [rs].
    Statuses and severities are compared the way [add_results] compares
    them, after [upper()]. *)
Definition recount (rs : list finding) : counters :=
  Counters (Z.of_nat (length rs))
           (count (has_status "VULNERABLE") rs)
           (count (has_severity "CRITICAL") rs)
           (count (has_severity "HIGH") rs)
           (count (has_severity "MEDIUM") rs)
           (count (has_severity "LOW") rs)
           (count (has_status "INFO") rs)
           (count (has_status "PASSED") rs).

Definition recomputed_summary (rs : list finding) : gmap string Z :=
  dict_of (recount rs).

Definition with_total (x : Z) (c : counters) : counters :=
  Counters x (c_vulnerabilities c) (c_critical c) (c_high c) (c_medium c)
    (c_low c) (c_info c) (c_passed c).
Definition with_vulnerabilities (x : Z) (c : counters) : counters :=
  Counters (c_total c) x (c_critical c) (c_high c) (c_medium c)
    (c_low c) (c_info c) (c_passed c).
Definition with_critical (x : Z) (c : counters) : counters :=
  Counters (c_total c) (c_vulnerabilities c) x (c_high c) (c_medium c)
    (c_low c) (c_info c) (c_passed c).
Definition with_high (x : Z) (c : counters) : counters :=
  Counters (c_total c) (c_vulnerabilities c) (c_critical c) x (c_medium c)
    (c_low c) (c_info c) (c_passed c).
Definition with_medium (x : Z) (c : counters) : counters :=
  Counters (c_total c) (c_vulnerabilities c) (c_critical c) (c_high c) x
    (c_low c) (c_info c) (c_passed c).
Definition with_low (x : Z) (c : counters) : counters :=
  Counters (c_total c) (c_vulnerabilities c) (c_critical c) (c_high c)
    (c_medium c) x (c_info c) (c_passed c).
Definition with_info (x : Z) (c : counters) : counters :=
  Counters (c_total c) (c_vulnerabilities c) (c_critical c) (c_high c)
    (c_medium c) (c_low c) x (c_passed c).
Definition with_passed (x : Z) (c : counters) : counters :=
  Counters (c_total c) (c_vulnerabilities c) (c_critical c) (c_high c)
    (c_medium c) (c_low c) (c_info c) x.

Ltac dict_lookup :=
  unfold dict_of; simpl;
  repeat (rewrite lookup_insert_ne by discriminate);
  apply lookup_insert_eq.

Ltac dict_insert k :=
  unfold dict_of; simpl;
  repeat (rewrite (insert_insert_ne _ k) by discriminate; f_equal);
  apply insert_insert_eq.

(** The effect of one pass of the loop of [add_results] on the counters. *)
Definition tally (r : finding) (c : counters) : counters :=
  if decide (get_upper r "status" = "VULNERABLE") then
    let c := with_vulnerabilities (c_vulnerabilities c + 1) c in
    if decide (get_upper r "severity" = "CRITICAL")
    then with_critical (c_critical c + 1) c
    else if decide (get_upper r "severity" = "HIGH")
    then with_high (c_high c + 1) c
    else if decide (get_upper r "severity" = "MEDIUM")
    then with_medium (c_medium c + 1) c
    else if decide (get_upper r "severity" = "LOW")
    then with_low (c_low c + 1) c
    else c
  else if decide (get_upper r "status" = "INFO")
  then with_info (c_info c + 1) c
  else if decide (get_upper r "status" = "PASSED")
  then with_passed (c_passed c + 1) c
  else c.


(** The session [self] is the record [s], its list holds [rs] and its
    dictionary is the summary recomputed from [rs]. *)
Definition holds (self : loc) (s : ScanSession) (rs : list finding)
    (w : world) : Prop :=
  sessions w !! self = Some s ∧
  lists w !! results s = Some rs ∧
  dicts w !! summary s = Some (recomputed_summary rs).

(** The same with a summary recomputed from [counted], the findings that
    the loop of [add_results] has gone through. *)
Definition tracks (self : loc) (s : ScanSession) (rs counted : list finding)
    (w : world) : Prop :=
  sessions w !! self = Some s ∧
  lists w !! results s = Some rs ∧
  dicts w !! summary s = Some (recomputed_summary counted).

(** The store [w] still holds the lists of [w0], unchanged. *)
Definition keeps (w0 w : world) : Prop :=
  ∀ l ys, lists w0 !! l = Some ys → lists w !! l = Some ys.

(** The session record after [finalize] at [now]. *)
Definition finalized (now : datetime) (s : ScanSession) : ScanSession :=
  Session (target_url s) (scan_id s) (start_time s) (Some now)
    (results s) (summary s).

(** The findings a test hands to the session: none when it raised. *)
Definition returned (o : completion (list finding)) : list finding :=
  match o with
  | Normal rs => rs
  | Raised _ => []
  end.

(** The console lines of one pass of the loop of [run_scan]. *)
Definition events_of (target : string) (headers : gmap string string)
    (t : test_class) : list event :=
  [Out_running (name t);
   match run t target headers with
   | Normal rs =>
       if (0 <? vulnerable_count rs)%nat
       then Out_found (vulnerable_count rs) else Out_passed
   | Raised e => Out_error (exn_msg e)
   end].

(** The instant truncated to the second. *)
Definition to_the_second (t : datetime) : Z * Z * Z * Z * Z * Z :=
  (year t, month t, day t, hour t, minute t, second t).

(** ** Call sequences *)

(** What a session holds after a sequence of [add_results] calls. *)
Definition contents_after (target : string) (scan : option string)
    (now_id now_start : datetime) (calls : list (list finding))
    : Py (list finding * gmap string Z) :=
  do self <- session_after target scan now_id now_start calls;
  read_session self.

(** What a caller hands to [add_results] of a session: a list of its own,
    a list object of the store, or the [results] of that very session, as in
    [session.add_results(session.results)]. *)
Inductive handed :=
  | Batch (xs : list finding)
  | Stored (l : loc)
  | Own_results.

Definition hand_over (self : loc) (h : handed) : Py unit :=
  match h with
  | Batch xs => add_results self (Elements xs)
  | Stored l => add_results self (Object l)
  | Own_results =>
      do s <- get_session self;
      add_results self (Object (results s))
  end.

(** A fresh session followed by a sequence of [add_results] calls, each of
    them with one of the three kinds of list. *)
Definition session_after_calls (target : string) (scan : option string)
    (now_id now_start : datetime) (calls : list handed) : Py loc :=
  do self <- ScanSession_init target scan now_id now_start;
  for_each calls (hand_over self) ;;
  ret self.

Definition contents_after_calls (target : string) (scan : option string)
    (now_id now_start : datetime) (calls : list handed)
    : Py (list finding * gmap string Z) :=
  do self <- session_after_calls target scan now_id now_start calls;
  read_session self.

(** A list that exists: a list of the caller, a list that the store [w]
    holds before the session is created, or the session's own list. *)
Definition known (w : world) (h : handed) : Prop :=
  match h with
  | Stored l => is_Some (lists w !! l)
  | _ => True
  end.

(** A list other than the session's own: a list of the caller, or a list
    that the store holds before the session is created. *)
Definition foreign (w : world) (h : handed) : Prop :=
  match h with
  | Batch _ => True
  | Stored l => is_Some (lists w !! l)
  | Own_results => False
  end.

(** The elements of what is handed over, for a session whose results are
    [rs]. *)
Definition handed_over (w : world) (rs : list finding) (h : handed)
    : list finding :=
  match h with
  | Batch xs => xs
  | Stored l => default [] (lists w !! l)
  | Own_results => rs
  end.

(** The findings handed over by a sequence of calls with foreign lists. *)
Definition batches (w : world) (calls : list handed) : list (list finding) :=
  map (handed_over w []) calls.

(** The results of a session and the findings its summary has counted,
    before and after one call: the session's own list is appended once and
    counted twice. *)
Definition after_call (w : world) (st : list finding * list finding)
    (h : handed) : list finding * list finding :=
  let xs := handed_over w st.1 h in
  (st.1 ++ xs,
   st.2 ++ match h with Own_results => xs ++ xs | _ => xs end).

Definition after_calls (w : world) (calls : list handed)
    : list finding * list finding :=
  fold_left (after_call w) calls ([], []).

(** [finalize] called twice in a row; the result is the final [end_time]. *)
Definition finalize_twice (target : string) (scan : option string)
    (now_id now_start : datetime) (calls : list (list finding))
    (t1 t2 : datetime) : Py (option datetime) :=
  do self <- session_after target scan now_id now_start calls;
  finalize self t1 ;;
  finalize self t2 ;;
  do s <- get_session self;
  ret (end_time s).

(** [add_results] called on a finalized session. *)
Definition add_results_after_finalize (target : string) (scan : option string)
    (now_id now_start : datetime) (calls : list handed)
    (t : datetime) (batch : handed)
    : Py (option datetime * (list finding * gmap string Z)) :=
  do self <- session_after_calls target scan now_id now_start calls;
  finalize self t ;;
  hand_over self batch ;;
  do s <- get_session self;
  do held <- read_session self;
  ret (end_time s, held).

Definition finalize_if (self : loc) (t : option datetime) : Py unit :=
  match t with
  | Some now => finalize self now
  | None => ret tt
  end.

(** A dictionary is taken with [to_dict] and read at once; the session is
    then mutated ([later], [fin1]) and the same dictionary is read again. *)
Definition to_dict_then_mutate (target : string) (scan : option string)
    (now_id now_start : datetime) (calls : list (list finding))
    (fin0 : option datetime) (later : list (list finding))
    (fin1 : option datetime) : Py (session_data * session_data) :=
  do self <- session_after target scan now_id now_start calls;
  finalize_if self fin0 ;;
  do d <- to_dict self;
  do before <- read_dict d;
  for_each later (λ batch, add_results self (Elements batch)) ;;
  finalize_if self fin1 ;;
  do after <- read_dict d;
  ret (before, after).

(** Two sessions created one after the other, without a [scan_id]. *)
Definition two_sessions (target target' : string)
    (ta ta_start tb tb_start : datetime) : Py (string * string) :=
  do a <- ScanSession_init target None ta ta_start;
  do b <- ScanSession_init target' None tb tb_start;
  do sa <- get_session a;
  do sb <- get_session b;
  ret (scan_id sa, scan_id sb).



(** ** Sample data *)

Definition passed_finding : finding :=
  <["test" := "Rate limiting"]> {[ "status" := "PASSED" ]}.

Definition high_finding : finding :=
  <["status" := "VULNERABLE"]> {[ "severity" := "HIGH" ]}.

Definition error_finding : finding := {[ "status" := "ERROR" ]}.

(** A vulnerable finding of severity [INFO], a severity of the data model
    that has no counter. *)
Definition info_severity_finding : finding :=
  <["status" := "VULNERABLE"]> {[ "severity" := "INFO" ]}.

(** A store that holds one list, with one finding. *)
Definition sample_store : world :=
  set_lists <[1%positive := [high_finding]]> empty_world.

Definition morning : datetime := Datetime 2024 1 2 9 30 15 250000.
Definition same_second : datetime := Datetime 2024 1 2 9 30 15 990000.
Definition evening : datetime := Datetime 2024 1 2 18 0 0 0.

Definition failing_test : test_class :=
  TestClass "API4" "API4:2023" "MEDIUM"
    (λ _ _, Raised (Exn "ConnectionError" "connection refused")).

Definition passing_test (n : string) : test_class :=
  TestClass n (n +:+ ":2023") "HIGH" (λ _ _, Normal [passed_finding]).


Definition sample_selection : list test_class :=
  [passing_test "API1"; passing_test "API2"; passing_test "API5"].

(** * More of [helpers.py] *)

(** ** String operations *)

(** The first [n] characters of [s], all of [s] when it is shorter. *)
Fixpoint str_take (n : nat) (s : string) : string :=
  match n, s with
  | S n', String c s' => String c (str_take n' s')
  | _, _ => EmptyString
  end.

(** [text[:stop]]: a negative [stop] counts from the end of the text. *)
Definition slice_to (text : string) (stop : Z) : string :=
  if (0 <=? stop)%Z then str_take (Z.to_nat stop) text
  else str_take (Z.to_nat (Z.of_nat (String.length text) + stop)) text.

(** [truncate_text(text, max_length)] *)
Definition truncate_text (text : string) (max_length : Z) : string :=
  if (Z.of_nat (String.length text) <=? max_length)%Z then text
  else slice_to text (max_length - 3) +:+ "...".

(** ** [group_results_by_severity] *)

(** [result.get("severity", "INFO")] *)
Definition severity_or_info (result : finding) : string :=
  default "INFO" (result !! "severity").

Definition group_results_by_severity (results : list finding)
    : gmap string (list finding) :=
  let grouped : gmap string (list finding) :=
    list_to_map [("CRITICAL", []); ("HIGH", []); ("MEDIUM", []); ("LOW", []);
                 ("INFO", [])] in
  fold_left (λ (grouped : gmap string (list finding)) result,
      let severity := severity_or_info result in
      match grouped !! severity with
      | Some group => <[severity := group ++ [result]]> grouped
      | None => grouped
      end)
    results grouped.

(** The five keys of the dictionary of groups. *)
Definition severities : list string :=
  ["CRITICAL"; "HIGH"; "MEDIUM"; "LOW"; "INFO"].

(** The number of results kept, all groups together. *)
Definition group_sizes (results : list finding) : nat :=
  foldr (λ k n,
      (length (default [] (group_results_by_severity results !! k)) + n)%nat)
    0%nat severities.

(** ** [is_internal_ip] *)

(** The part of the regular expression syntax that the patterns use. *)
Inductive regex :=
  | Eps
  | Chr (c : ascii)                (* a character, escaped or not *)
  | Range (lo hi : ascii)          (* [lo-hi] *)
  | OneOf (cs : list ascii)        (* [abc] *)
  | Seq (r1 r2 : regex)
  | Alt (r1 r2 : regex)
  | Bol                            (* ^ *)
  | Eol.                           (* $ *)

Fixpoint lit (s : string) : regex :=
  match s with
  | EmptyString => Eps
  | String c s' => Seq (Chr c) (lit s')
  end.

(** Backtracking matcher: [rmatch r at_start s k] holds when [r] matches a
    prefix of [s] and the continuation [k] accepts what follows. Without
    [re.MULTILINE], [^] matches at the start of the text only, and [$] at its
    end or just before a final newline. *)
Fixpoint rmatch (r : regex) (at_start : bool) (s : string)
    (k : bool → string → bool) : bool :=
  match r with
  | Eps => k at_start s
  | Chr c =>
      match s with
      | String c' s' => Ascii.eqb c c' && k false s'
      | EmptyString => false
      end
  | Range lo hi =>
      match s with
      | String c' s' =>
          (nat_of_ascii lo <=? nat_of_ascii c')%nat
          && (nat_of_ascii c' <=? nat_of_ascii hi)%nat && k false s'
      | EmptyString => false
      end
  | OneOf cs =>
      match s with
      | String c' s' => existsb (Ascii.eqb c') cs && k false s'
      | EmptyString => false
      end
  | Seq r1 r2 => rmatch r1 at_start s (λ b s', rmatch r2 b s' k)
  | Alt r1 r2 => rmatch r1 at_start s k || rmatch r2 at_start s k
  | Bol => at_start && k at_start s
  | Eol =>
      match s with
      | EmptyString => k at_start s
      | String c EmptyString => Ascii.eqb c "010" && k at_start s
      | _ => false
      end
  end.

(** [re.match(pattern, text)] is not [None]. *)
Definition re_match (pattern : regex) (text : string) : bool :=
  rmatch pattern true text (λ _ _, true).

Definition internal_patterns : list regex :=
  [ Seq Bol (lit "127.");                                   (* ^127\. *)
    Seq Bol (lit "10.");                                    (* ^10\. *)
    Seq Bol (Seq (lit "172.")                               (* ^172\.(1[6-9]|2[0-9]|3[01])\. *)
      (Seq (Alt (Seq (Chr "1") (Range "6" "9"))
             (Alt (Seq (Chr "2") (Range "0" "9"))
                  (Seq (Chr "3") (OneOf ["0"; "1"]%char))))
           (Chr ".")));
    Seq Bol (lit "192.168.");                               (* ^192\.168\. *)
    Seq Bol (Seq (lit "localhost") Eol);                    (* ^localhost$ *)
    Seq Bol (Seq (lit "::1") Eol) ].                        (* ^::1$ *)

Definition is_internal_ip (ip : string) : bool :=
  existsb (λ pattern, re_match pattern ip) internal_patterns.

(** ** Decimal numerals *)

(** [str(n)] for an integer [n >= 0]. *)
Fixpoint str_digits (fuel : nat) (n : Z) (rest : string) : string :=
  match fuel with
  | O => rest
  | S fuel' =>
      let rest' := String (pystr.digit (n mod 10)) rest in
      if (n / 10 =? 0)%Z then rest' else str_digits fuel' (n / 10) rest'
  end.

Definition str_of_nat (n : nat) : string :=
  str_digits (S n) (Z.of_nat n) "".

(** A dotted address that starts with the octets [a] and [b]. *)
Definition dotted (a b : nat) (rest : string) : string :=
  str_of_nat a +:+ "." +:+ str_of_nat b +:+ "." +:+ rest.

(** The private and loopback IPv4 ranges, by the first two octets. *)
Definition private_range (a b : nat) : bool :=
  (a =? 127)%nat || (a =? 10)%nat
  || ((a =? 172)%nat && (16 <=? b)%nat && (b <=? 31)%nat)
  || ((a =? 192)%nat && (b =? 168)%nat).

(** * Observations on sessions and scores *)

(** The order of the risk levels, LOW below MEDIUM below HIGH below
    CRITICAL. *)
Definition level_rank (level : string) : nat :=
  if decide (level = "CRITICAL") then 3
  else if decide (level = "HIGH") then 2
  else if decide (level = "MEDIUM") then 1
  else 0.

(** The risk level of a session after a sequence of [add_results] calls:
    [get_risk_level(calculate_risk_score(session.summary))]. *)
Definition risk_level_after (target : string) (scan : option string)
    (now_id now_start : datetime) (calls : list handed)
    : Py (Z * string) :=
  do held <- contents_after_calls target scan now_id now_start calls;
  let score := helpers.calculate_risk_score held.2 in
  ret (score, helpers.get_risk_level score).

(** The weighted sum of the vulnerable findings of [rs]. *)
Definition weighted_findings (rs : list finding) : Z :=
  (count (has_severity "CRITICAL") rs * 25
   + count (has_severity "HIGH") rs * 15
   + count (has_severity "MEDIUM") rs * 8
   + count (has_severity "LOW") rs * 3)%Z.

(** Two sessions, then [add_results] calls addressed to the one or to the
    other in any order ([true] for the first session), then what each of
    them holds. [Own_results] is the list of the session the call is
    addressed to. *)
Definition interleaved (target target' : string) (scan scan' : option string)
    (ta ta_start tb tb_start : datetime) (ops : list (bool * handed))
    : Py ((list finding * gmap string Z) * (list finding * gmap string Z)) :=
  do a <- ScanSession_init target scan ta ta_start;
  do b <- ScanSession_init target' scan' tb tb_start;
  for_each ops (λ op : bool * handed,
                  hand_over (if op.1 then a else b) op.2) ;;
  do held_a <- read_session a;
  do held_b <- read_session b;
  ret (held_a, held_b).

(** The calls addressed to the session [which]. *)
Definition addressed_to (which : bool) (ops : list (bool * handed))
    : list handed :=
  omap (λ op : bool * handed,
          if Bool.eqb op.1 which then Some op.2 else None) ops.

(** The order of two instants, sub-second parts left aside. *)
Definition compare_seconds (ta tb : datetime) : comparison :=
  match (year ta ?= year tb)%Z with
  | Eq => match (month ta ?= month tb)%Z with
          | Eq => match (day ta ?= day tb)%Z with
                  | Eq => match (hour ta ?= hour tb)%Z with
                          | Eq => match (minute ta ?= minute tb)%Z with
                                  | Eq => (second ta ?= second tb)%Z
                                  | c => c
                                  end
                          | c => c
                          end
                  | c => c
                  end
          | c => c
          end
  | c => c
  end.

(** * [SecurityScanner], continued *)

(** Two scans run one after the other with the same scanner; the contents of
    the first session are read before and after the second scan. *)
Definition scan_twice (self : SecurityScanner) (cfg cfg' : config)
    (now_id now_start now_end now_id' now_start' now_end' : datetime)
    : Py (bool * (list finding * gmap string Z) * (list finding * gmap string Z)
          * (list finding * gmap string Z)) :=
  do first <- run_scan self cfg now_id now_start now_end;
  do before <- read_session first;
  do second <- run_scan self cfg' now_id' now_start' now_end';
  do after <- read_session first;
  do held <- read_session second;
  ret (bool_decide (first = second), before, after, held).

(** The findings that [run_scan] collects for a configuration. *)
Definition collected (self : SecurityScanner) (cfg : config) : list finding :=
  concat (map (λ t, returned (run t (cfg_target_url cfg)
                                (default ∅ (cfg_headers cfg))))
            (default (test_classes self) (cfg_selected_tests cfg))).

(** What [save_results] leaves in a file: the JSON text of the dictionary,
    kept as the data it is printed from, or a file that was opened for
    writing and not completed. *)
Inductive file :=
  | Json (data : session_data)
  | Incomplete.

(** [save_results(session, format)] on the files [files]; the result is the
    file name. The file is opened, and so emptied, before [to_dict] is
    evaluated. *)
Definition save_results (session : loc) (format : string)
    (files : gmap string file) (w : world)
    : completion string * gmap string file * world :=
  match get_session session w with
  | (Raised e, w') => (Raised e, files, w')
  | (Normal s, w') =>
      let filename := "scan_" +:+ scan_id s +:+ "." +:+ format in
      if decide (format = "json") then
        match (do d <- to_dict session; read_dict d) w' with
        | (Normal data, w'') =>
            (Normal filename, <[filename := Json data]> files, w'')
        | (Raised e, w'') =>
            (Raised e, <[filename := Incomplete]> files, w'')
        end
      else (Normal filename, files, w')
  end.

(** A scan followed by [save_results] in the format [format]. *)
Definition scan_and_save (self : SecurityScanner) (cfg : config)
    (now_id now_start now_end : datetime) (format : string)
    (files : gmap string file) (w : world)
    : completion string * gmap string file * world :=
  match run_scan self cfg now_id now_start now_end w with
  | (Normal session, w') => save_results session format files w'
  | (Raised e, w') => (Raised e, files, w')
  end.

(** The data that [to_dict] gives for the session of a scan. *)
Definition scan_data (self : SecurityScanner) (cfg : config)
    (now_id now_start now_end : datetime) : session_data :=
  SessionData (strftime_Ymd_HMS now_id) (cfg_target_url cfg)
    (isoformat now_start) (Some (isoformat now_end))
    (Seconds_between now_start now_end)
    (recomputed_summary (collected self cfg)) (collected self cfg).

(** ** [display_results] *)

(** What [display_results] prints, one constructor per table, panel or
    line; blank lines and rules are left out. *)
Inductive shown :=
  | Results_banner
  | Summary_table (scan target : string) (duration : duration_text)
      (total vulnerabilities : Z)
  | Severity_table (rows : list (string * Z))
  | Findings_title
  | Finding_panel (idx : nat) (severity color : string)
      (test url method description evidence recommendation : string)
  | Info_title
  | Info_item (description : string)
  | Passed_note (passed : Z).

(** [[r for r in results if r.get("status") == status]] *)
Definition with_status (status : string) (rs : list finding) : list finding :=
  filter (λ r : finding, r !! "status" = Some status) rs.

Definition severity_color (severity : string) : string :=
  default "yellow"
    ((list_to_map [("CRITICAL", "red"); ("HIGH", "orange1");
                   ("MEDIUM", "yellow"); ("LOW", "blue")] : gmap string string)
       !! severity).

(** The panel of the vulnerability number [idx]. *)
Definition finding_panel (idx : nat) (vuln : finding) : shown :=
  Finding_panel idx
    (default "MEDIUM" (vuln !! "severity"))
    (severity_color (default "MEDIUM" (vuln !! "severity")))
    (default "Unknown" (vuln !! "test"))
    (default "N/A" (vuln !! "url"))
    (default "N/A" (vuln !! "method"))
    (default "N/A" (vuln !! "description"))
    (default "N/A" (vuln !! "evidence"))
    (default "N/A" (vuln !! "recommendation")).

Definition display_results (session : loc) : Py (list shown) :=
  do s <- get_session session;
  do duration <- get_duration session;
  do total <- dict_getitem (summary s) "total_tests";
  do found <- dict_getitem (summary s) "vulnerabilities_found";
  let out := [Results_banner;
              Summary_table (scan_id s) (target_url s) duration total found] in
  do found <- dict_getitem (summary s) "vulnerabilities_found";
  do out <-
    (if (0 <? found)%Z then
       do critical <- dict_getitem (summary s) "critical";
       let rows := if (0 <? critical)%Z then [("CRITICAL", critical)] else [] in
       do high <- dict_getitem (summary s) "high";
       let rows := if (0 <? high)%Z then rows ++ [("HIGH", high)] else rows in
       do medium <- dict_getitem (summary s) "medium";
       let rows := if (0 <? medium)%Z then rows ++ [("MEDIUM", medium)] else rows in
       do low <- dict_getitem (summary s) "low";
       let rows := if (0 <? low)%Z then rows ++ [("LOW", low)] else rows in
       ret (out ++ [Severity_table rows])
     else ret out);
  do rs <- list_get (results s);
  let vulnerabilities := with_status "VULNERABLE" rs in
  let out :=
    match vulnerabilities with
    | [] => out
    | _ => out ++ Findings_title
             :: imap (λ i vuln, finding_panel (S i) vuln) vulnerabilities
    end in
  do rs <- list_get (results s);
  let info_items := with_status "INFO" rs in
  let out :=
    match info_items with
    | [] => out
    | _ => out ++ Info_title
             :: map (λ item : finding,
                       Info_item (default "N/A" (item !! "description")))
                  info_items
    end in
  do passed <- dict_getitem (summary s) "passed";
  ret (if (0 <? passed)%Z then out ++ [Passed_note passed] else out).







(** ** [get_scan_configuration] *)

(** [c.isspace()] on the ASCII range: tab to carriage return, the four
    separators 28 to 31, and the space. *)
Definition is_space (c : ascii) : bool :=
  let n := nat_of_ascii c in
  ((9 <=? n)%nat && (n <=? 13)%nat) || ((28 <=? n)%nat && (n <=? 32)%nat).

Fixpoint lstrip (s : string) : string :=
  match s with
  | EmptyString => EmptyString
  | String c s' => if is_space c then lstrip s' else s
  end.

Fixpoint rstrip (s : string) : string :=
  match s with
  | EmptyString => EmptyString
  | String c s' =>
      match rstrip s' with
      | EmptyString => if is_space c then EmptyString else String c EmptyString
      | t => String c t
      end
  end.

(** [s.strip()] *)
Definition strip (s : string) : string := rstrip (lstrip s).

Definition lower_char (c : ascii) : ascii :=
  let n := nat_of_ascii c in
  if (65 <=? n)%nat && (n <=? 90)%nat then ascii_of_nat (n + 32) else c.

(** [s.lower()] on the ASCII range. *)
Fixpoint lower (s : string) : string :=
  match s with
  | EmptyString => EmptyString
  | String c s' => String (lower_char c) (lower s')
  end.

(** [s.split(":", 1)] when [":" in s]: what is before the first colon and
    what is after it. *)
Fixpoint split_colon (s : string) : option (string * string) :=
  match s with
  | EmptyString => None
  | String c s' =>
      if Ascii.eqb c ":" then Some (EmptyString, s')
      else match split_colon s' with
           | Some (key, value) => Some (String c key, value)
           | None => None
           end
  end.

Definition is_digit (c : ascii) : bool :=
  (48 <=? nat_of_ascii c)%nat && (nat_of_ascii c <=? 57)%nat.

(** The digits of an [int()] literal, read from the left: underscores are
    allowed between two digits only. *)
Fixpoint int_digits (s : string) (value : Z) (after_digit : bool) : option Z :=
  match s with
  | EmptyString => if after_digit then Some value else None
  | String c s' =>
      if is_digit c
      then int_digits s' (10 * value + Z.of_nat (nat_of_ascii c - 48)) true
      else if Ascii.eqb c "_" && after_digit then int_digits s' value false
      else None
  end.

(** [int(s)] in base 10: [None] stands for [ValueError]. *)
Definition int_of_str (s : string) : option Z :=
  match strip s with
  | String "+" s' => int_digits s' 0 false
  | String "-" s' => Z.opp <$> int_digits s' 0 false
  | s' => int_digits s' 0 false
  end.

(** What [get_scan_configuration] writes to the console, questions
    included. *)
Inductive prompt :=
  | Say_configure
  | Ask_target
  | Say_url_required
  | Say_headers
  | Say_headers_hint
  | Ask_header
  | Say_invalid_header
  | Say_select
  | Say_available
  | Say_test (idx : nat) (severity category name : string)
  | Say_run_all (idx : nat)
  | Ask_choice
  | Say_invalid_choice
  | Say_invalid_input.

(** The outcome of a dialogue on the lines typed by the user: a value and
    the lines not read yet, [sys.exit(code)], or the end of the input
    ([EOFError]); in each case with what was written to the console. *)
Inductive dialogue (A : Type) : Type :=
  | Answered (a : A) (shown : list prompt) (rest : list string)
  | Exits (code : Z) (shown : list prompt)
  | End_of_input (shown : list prompt).
Arguments Answered {A} a shown rest.
Arguments Exits {A} code shown.
Arguments End_of_input {A} shown.

(** The loop that reads the headers. *)
Fixpoint read_headers (answers : list string) (headers : gmap string string)
    (shown : list prompt) : dialogue (gmap string string) :=
  match answers with
  | [] => End_of_input (shown ++ [Ask_header])
  | answer :: rest =>
      let header := strip answer in
      let shown := shown ++ [Ask_header] in
      if decide (header = "") then Answered headers shown rest
      else match split_colon header with
           | Some (key, value) =>
               read_headers rest (<[strip key := strip value]> headers) shown
           | None => read_headers rest headers (shown ++ [Say_invalid_header])
           end
  end.

(** The selection made from the answer to the last question. *)
Definition select_tests (self : SecurityScanner) (answer : string)
    : list test_class * list prompt :=
  let choice := lower (strip answer) in
  let count := length (test_classes self) in
  if bool_decide (choice = "all") || bool_decide (choice = str_of_nat (count + 1))
  then (test_classes self, [])
  else match int_of_str choice with
       | Some i =>
           let idx := (i - 1)%Z in
           if (0 <=? idx)%Z && (idx <? Z.of_nat count)%Z
           then (take 1 (drop (Z.to_nat idx) (test_classes self)), [])
           else (test_classes self, [Say_invalid_choice])
       | None => (test_classes self, [Say_invalid_input])
       end.

(** [target_url] with [https://] put in front unless it starts with
    [http://] or [https://]. *)
Definition with_scheme (target_url : string) : string :=
  if String.prefix "http://" target_url || String.prefix "https://" target_url
  then target_url else "https://" +:+ target_url.

Definition get_scan_configuration (self : SecurityScanner)
    (answers : list string) : dialogue config :=
  let shown := [Say_configure; Ask_target] in
  match answers with
  | [] => End_of_input shown
  | answer :: answers =>
      let target_url := strip answer in
      if decide (target_url = "") then Exits 1 (shown ++ [Say_url_required])
      else
        let target_url := with_scheme target_url in
        match read_headers answers ∅ (shown ++ [Say_headers; Say_headers_hint]) with
        | Answered headers shown answers =>
            let shown :=
              shown ++ [Say_select; Say_available]
              ++ imap (λ i t, Say_test (S i) (severity t) (category t) (name t))
                   (test_classes self)
              ++ [Say_run_all (length (test_classes self) + 1); Ask_choice] in
            match answers with
            | [] => End_of_input shown
            | answer :: rest =>
                let '(selected_tests, said) := select_tests self answer in
                Answered (Config target_url (Some headers) (Some selected_tests)
                            None)
                  (shown ++ said) rest
            end
        | Exits code shown => Exits code shown
        | End_of_input shown => End_of_input shown
        end
  end.

(** A header line for the key [k] and the value [v]. *)
Definition header_line (kv : string * string) : string :=
  kv.1 +:+ ":" +:+ kv.2.

(** The value of a string of decimal digits read after the value [v]. *)
Fixpoint digits_value (s : string) (v : Z) : Z :=
  match s with
  | EmptyString => v
  | String c s' => digits_value s' (10 * v + Z.of_nat (nat_of_ascii c - 48))
  end.

Fixpoint all_digits (s : string) : bool :=
  match s with
  | EmptyString => true
  | String c s' => is_digit c && all_digits s'
  end.


(** ** [interactive_scan] *)

(** What [interactive_scan] writes: the banner, the lines of
    [get_scan_configuration], its own lines and the display of the results.
    The lines that [run_scan] prints are on the console of the store. *)
Inductive line :=
  | Banner
  | Configuring (p : prompt)
  | Review_title
  | Review_target (target_url : string)
  | Review_headers (n : nat)
  | Review_tests (n : nat)
  | Ask_proceed
  | Say_cancelled
  | Displayed (x : shown)
  | Export_title
  | Export_option (n : nat) (label : string)
  | Ask_export.

(** How [interactive_scan] ends: with the pair of the session and the export
    choice, with [None] after a cancellation, with [sys.exit], at the end of
    the input, or with an exception. *)
Inductive interaction :=
  | Scan_done (session : loc) (export_choice : string) (rest : list string)
  | Scan_cancelled (rest : list string)
  | Scan_exit (code : Z)
  | Scan_eof
  | Scan_raised (e : exn).

Definition export_menu : list line :=
  [Export_title; Export_option 1 "JSON"; Export_option 2 "HTML Report";
   Export_option 3 "PDF Report"; Export_option 4 "All formats";
   Export_option 5 "Skip export"; Ask_export].

Definition interactive_scan (self : SecurityScanner) (answers : list string)
    (now_id now_start now_end : datetime) (w : world)
    : interaction * list line * world :=
  match get_scan_configuration self answers with
  | Exits code shown => (Scan_exit code, Banner :: map Configuring shown, w)
  | End_of_input shown => (Scan_eof, Banner :: map Configuring shown, w)
  | Answered config shown answers =>
      let out :=
        Banner :: map Configuring shown
        ++ [Review_title; Review_target (cfg_target_url config);
            Review_headers (size (default ∅ (cfg_headers config)))] in
      match cfg_selected_tests config with
      | None => (Scan_raised (KeyError "selected_tests"), out, w)
      | Some selected_tests =>
          let out := out ++ [Review_tests (length selected_tests); Ask_proceed] in
          match answers with
          | [] => (Scan_eof, out, w)
          | answer :: answers =>
              let confirm := lower (strip answer) in
              if decide (confirm = "y") then
                match run_scan self config now_id now_start now_end w with
                | (Raised e, w') => (Scan_raised e, out, w')
                | (Normal session, w') =>
                    match display_results session w' with
                    | (Raised e, w'') => (Scan_raised e, out, w'')
                    | (Normal report, w'') =>
                        let out := out ++ map Displayed report ++ export_menu in
                        match answers with
                        | [] => (Scan_eof, out, w'')
                        | answer :: rest =>
                            (Scan_done session (strip answer) rest, out, w'')
                        end
                    end
                end
              else (Scan_cancelled answers, out ++ [Say_cancelled], w)
          end
      end
  end.
(** * Properties *)

(** ** Dictionaries of counters *)

Section dict_of_facts.
Variable c : counters.
Variable x : Z.

Lemma lookup_total_tests : dict_of c !! "total_tests" = Some (c_total c).
Proof. dict_lookup. Qed.
Lemma lookup_vulnerabilities :
  dict_of c !! "vulnerabilities_found" = Some (c_vulnerabilities c).
Proof. dict_lookup. Qed.
Lemma lookup_critical : dict_of c !! "critical" = Some (c_critical c).
Proof. dict_lookup. Qed.
Lemma lookup_high : dict_of c !! "high" = Some (c_high c).
Proof. dict_lookup. Qed.
Lemma lookup_medium : dict_of c !! "medium" = Some (c_medium c).
Proof. dict_lookup. Qed.
Lemma lookup_low : dict_of c !! "low" = Some (c_low c).
Proof. dict_lookup. Qed.
Lemma lookup_info : dict_of c !! "info" = Some (c_info c).
Proof. dict_lookup. Qed.
Lemma lookup_passed : dict_of c !! "passed" = Some (c_passed c).
Proof. dict_lookup. Qed.

Lemma insert_total_tests :
  <["total_tests" := x]> (dict_of c) = dict_of (with_total x c).
Proof. dict_insert "total_tests". Qed.
Lemma insert_vulnerabilities :
  <["vulnerabilities_found" := x]> (dict_of c) = dict_of (with_vulnerabilities x c).
Proof. dict_insert "vulnerabilities_found". Qed.
Lemma insert_critical :
  <["critical" := x]> (dict_of c) = dict_of (with_critical x c).
Proof. dict_insert "critical". Qed.
Lemma insert_high : <["high" := x]> (dict_of c) = dict_of (with_high x c).
Proof. dict_insert "high". Qed.
Lemma insert_medium : <["medium" := x]> (dict_of c) = dict_of (with_medium x c).
Proof. dict_insert "medium". Qed.
Lemma insert_low : <["low" := x]> (dict_of c) = dict_of (with_low x c).
Proof. dict_insert "low". Qed.
Lemma insert_info : <["info" := x]> (dict_of c) = dict_of (with_info x c).
Proof. dict_insert "info". Qed.
Lemma insert_passed : <["passed" := x]> (dict_of c) = dict_of (with_passed x c).
Proof. dict_insert "passed". Qed.
End dict_of_facts.

(** ** Store updates *)

Lemma set_dicts_id l d w :
  dicts w !! l = Some d → set_dicts <[l := d]> w = w.
Proof.
  intros H. destruct w as [ss ls ds out]; unfold set_dicts; simpl in *.
  by rewrite (insert_id ds l d H).
Qed.

Lemma set_dicts_twice l d d' w :
  set_dicts <[l := d']> (set_dicts <[l := d]> w) = set_dicts <[l := d']> w.
Proof. unfold set_dicts; simpl. by rewrite insert_insert_eq. Qed.

(** [d[k] += n] on a dictionary of counters. *)
Lemma dict_iadd_counters l c k v n c' w :
  dicts w !! l = Some (dict_of c) →
  dict_of c !! k = Some v →
  <[k := (v + n)%Z]> (dict_of c) = dict_of c' →
  dict_iadd l k n w = (Normal tt, set_dicts <[l := dict_of c']> w).
Proof.
  intros Hl Hk Hins.
  unfold dict_iadd, bind, dict_getitem, dict_setitem.
  rewrite Hl, Hk. simpl. rewrite Hl. by rewrite Hins.
Qed.

Lemma dicts_set_dicts l d w : dicts (set_dicts <[l := d]> w) !! l = Some d.
Proof. unfold set_dicts; simpl. apply lookup_insert_eq. Qed.

(** ** Sequencing *)

Lemma bind_Normal {A B} (m : Py A) (k : A → Py B) w a w' :
  m w = (Normal a, w') → bind m k w = k a w'.
Proof. intros H. unfold bind. by rewrite H. Qed.

Lemma bind_Raised {A B} (m : Py A) (k : A → Py B) w e w' :
  m w = (Raised e, w') → bind m k w = (Raised e, w').
Proof. intros H. unfold bind. by rewrite H. Qed.

Lemma bind_same {A B} (m m' : Py A) (k : A → Py B) w :
  m w = m' w → bind m k w = bind m' k w.
Proof. intros H. unfold bind. by rewrite H. Qed.

(** ** The loop of [add_results] *)

Lemma add_results_loop l batch : ∀ c w,
  dicts w !! l = Some (dict_of c) →
  for_each batch (λ result,
    let status := get_upper result "status" in
    let severity := get_upper result "severity" in
    if decide (status = "VULNERABLE") then
      dict_iadd l "vulnerabilities_found" 1 ;;
      if decide (severity = "CRITICAL") then dict_iadd l "critical" 1
      else if decide (severity = "HIGH") then dict_iadd l "high" 1
      else if decide (severity = "MEDIUM") then dict_iadd l "medium" 1
      else if decide (severity = "LOW") then dict_iadd l "low" 1
      else ret tt
    else if decide (status = "INFO") then dict_iadd l "info" 1
    else if decide (status = "PASSED") then dict_iadd l "passed" 1
    else ret tt) w
  = (Normal tt, set_dicts <[l := dict_of (fold_left (λ c r, tally r c) batch c)]> w).
Proof.
  induction batch as [|r batch IH]; intros c w Hl.
  - simpl. unfold ret. by rewrite set_dicts_id.
  - cbn [for_each fold_left].
    set (body := λ result : finding, _) in *.
    assert (Hstep : body r w = (Normal tt, set_dicts <[l := dict_of (tally r c)]> w)).
    { unfold body, tally. cbv zeta.
      destruct (decide (get_upper r "status" = "VULNERABLE")).
      - rewrite (bind_Normal _ _ _ _ _
                   (dict_iadd_counters l c _ _ 1 _ w Hl (lookup_vulnerabilities c)
                      (insert_vulnerabilities c _))).
        set (c1 := with_vulnerabilities _ c).
        set (w1 := set_dicts _ w).
        assert (Hl1 : dicts w1 !! l = Some (dict_of c1)) by apply dicts_set_dicts.
        repeat case_decide.
        + rewrite (dict_iadd_counters l c1 _ _ 1 _ w1 Hl1 (lookup_critical c1)
                     (insert_critical c1 _)).
          unfold w1. by rewrite set_dicts_twice.
        + rewrite (dict_iadd_counters l c1 _ _ 1 _ w1 Hl1 (lookup_high c1)
                     (insert_high c1 _)).
          unfold w1. by rewrite set_dicts_twice.
        + rewrite (dict_iadd_counters l c1 _ _ 1 _ w1 Hl1 (lookup_medium c1)
                     (insert_medium c1 _)).
          unfold w1. by rewrite set_dicts_twice.
        + rewrite (dict_iadd_counters l c1 _ _ 1 _ w1 Hl1 (lookup_low c1)
                     (insert_low c1 _)).
          unfold w1. by rewrite set_dicts_twice.
        + reflexivity.
      - repeat case_decide.
        + apply (dict_iadd_counters l c _ _ 1 _ w Hl (lookup_info c)
                   (insert_info c _)).
        + apply (dict_iadd_counters l c _ _ 1 _ w Hl (lookup_passed c)
                   (insert_passed c _)).
        + unfold ret. by rewrite set_dicts_id. }
    rewrite (bind_Normal _ _ _ _ _ Hstep).
    rewrite (IH (tally r c)) by apply dicts_set_dicts.
    by rewrite set_dicts_twice.
Qed.

(** ** Counting *)

Lemma count_snoc (P : finding → Prop) `{∀ r, Decision (P r)} rs r :
  count P (rs ++ [r]) = (count P rs + (if decide (P r) then 1 else 0))%Z.
Proof.
  unfold count. rewrite filter_app, length_app.
  rewrite filter_cons, filter_nil. destruct (decide (P r)); simpl; lia.
Qed.

Lemma count_app (P : finding → Prop) `{∀ r, Decision (P r)} rs rs' :
  count P (rs ++ rs') = (count P rs + count P rs')%Z.
Proof. unfold count. rewrite filter_app, length_app. lia. Qed.

Lemma count_nonneg (P : finding → Prop) `{∀ r, Decision (P r)} rs :
  (0 <= count P rs)%Z.
Proof. unfold count. lia. Qed.

Ltac absurd_case :=
  exfalso; unfold has_status, has_severity in *; intuition congruence.

Lemma tally_recount t rs r :
  tally r (with_total t (recount rs)) = with_total t (recount (rs ++ [r])).
Proof.
  unfold tally, recount, with_total, with_vulnerabilities, with_critical,
    with_high, with_medium, with_low, with_info, with_passed; cbn -[count].
  rewrite !count_snoc.
  destruct (decide (get_upper r "status" = "VULNERABLE")) as [Hv|Hv].
  - destruct (decide (get_upper r "severity" = "CRITICAL")) as [Hs|?];
      [|destruct (decide (get_upper r "severity" = "HIGH")) as [Hs|?];
        [|destruct (decide (get_upper r "severity" = "MEDIUM")) as [Hs|?];
          [|destruct (decide (get_upper r "severity" = "LOW")) as [Hs|?]]]];
      repeat (case_decide; try absurd_case); f_equal; lia.
  - destruct (decide (get_upper r "status" = "INFO")) as [Hs|?];
      [|destruct (decide (get_upper r "status" = "PASSED")) as [Hs|?]];
      repeat (case_decide; try absurd_case); f_equal; lia.
Qed.

Lemma fold_tally_recount t batch : ∀ rs,
  fold_left (λ c r, tally r c) batch (with_total t (recount rs))
  = with_total t (recount (rs ++ batch)).
Proof.
  induction batch as [|r batch IH]; intros rs; simpl.
  - by rewrite app_nil_r.
  - rewrite tally_recount, IH. by rewrite <- app_assoc.
Qed.

Lemma with_total_recount rs : with_total (Z.of_nat (length rs)) (recount rs) = recount rs.
Proof. reflexivity. Qed.

(** ** [add_results] on a session whose summary agrees with its results *)

Lemma get_session_Some self s w :
  sessions w !! self = Some s → get_session self w = (Normal s, w).
Proof. intros H. unfold get_session. by rewrite H. Qed.

Lemma list_get_Some l rs w :
  lists w !! l = Some rs → list_get l w = (Normal rs, w).
Proof. intros Hl. unfold list_get. by rewrite Hl. Qed.

(** One call, for an argument whose elements are [ext] when the call starts
    and [it] once the session's list has been extended. *)
Lemma add_results_tracks self s rs counted a ext it w :
  tracks self s rs counted w →
  elements a w = (Normal ext, w) →
  (∀ w', lists w' = <[results s := rs ++ ext]> (lists w) →
         elements a w' = (Normal it, w')) →
  add_results self a w
  = (Normal tt,
     set_dicts <[summary s := recomputed_summary (counted ++ it)]>
       (set_lists <[results s := rs ++ ext]> w)).
Proof.
  intros (Hs & Hr & Hd) Hext Hit. unfold add_results.
  rewrite (bind_Normal _ _ _ _ _ (get_session_Some _ _ _ Hs)).
  rewrite (bind_Normal _ _ _ _ _ Hext).
  assert (Hextend : list_extend (results s) ext w
                    = (Normal tt, set_lists <[results s := rs ++ ext]> w)).
  { unfold list_extend. by rewrite Hr. }
  rewrite (bind_Normal _ _ _ _ _ Hextend).
  set (w1 := set_lists _ w).
  rewrite (bind_Normal _ _ _ _ _ (Hit w1 eq_refl)).
  assert (Hd1 : dicts w1 !! summary s = Some (dict_of (recount counted)))
    by exact Hd.
  rewrite (bind_Normal _ _ _ _ _
             (dict_iadd_counters _ _ _ _ (Z.of_nat (length it)) _ w1 Hd1
                (lookup_total_tests _) (insert_total_tests _ _))).
  match goal with
  | |- bind (elements a) _ ?w2 = _ =>
      rewrite (bind_Normal _ _ _ _ _ (Hit w2 eq_refl))
  end.
  rewrite (add_results_loop (summary s) it _ _ (dicts_set_dicts _ _ _)).
  rewrite set_dicts_twice, fold_tally_recount.
  unfold recomputed_summary.
  cbn [c_total recount]. rewrite <- Nat2Z.inj_add, <- length_app.
  by rewrite with_total_recount.
Qed.

Lemma add_results_steps self s rs batch w :
  holds self s rs w →
  add_results self (Elements batch) w
  = (Normal tt,
     set_dicts <[summary s := recomputed_summary (rs ++ batch)]>
       (set_lists <[results s := rs ++ batch]> w)).
Proof.
  intros Hw. by apply (add_results_tracks self s rs rs (Elements batch)).
Qed.

Lemma add_results_holds self s rs batch w :
  holds self s rs w →
  ∃ w', add_results self (Elements batch) w = (Normal tt, w') ∧
        holds self s (rs ++ batch) w' ∧
        sessions w' = sessions w ∧ console w' = console w.
Proof.
  intros Hw. eexists. split; [by apply add_results_steps|].
  destruct Hw as (Hs & Hr & Hd).
  split; [|done]. split; [exact Hs|]. split.
  - unfold set_dicts, set_lists; cbn [lists]. apply lookup_insert_eq.
  - apply dicts_set_dicts.
Qed.

Lemma for_each_add_results_holds self s calls : ∀ rs w,
  holds self s rs w →
  ∃ w', for_each calls (λ batch, add_results self (Elements batch)) w = (Normal tt, w') ∧
        holds self s (rs ++ concat calls) w' ∧
        sessions w' = sessions w ∧ console w' = console w.
Proof.
  induction calls as [|batch calls IH]; intros rs w Hw; simpl.
  - exists w. rewrite app_nil_r. done.
  - destruct (add_results_holds self s rs batch w Hw) as (w1 & H1 & Hw1 & Hs1 & Hc1).
    destruct (IH _ _ Hw1) as (w2 & H2 & Hw2 & Hs2 & Hc2).
    exists w2. rewrite (bind_Normal _ _ _ _ _ H1), H2.
    rewrite app_assoc. repeat split; [apply Hw2..|congruence|congruence].
Qed.

Lemma read_session_holds self s rs w :
  holds self s rs w →
  read_session self w = (Normal (rs, recomputed_summary rs), w).
Proof.
  intros (Hs & Hr & Hd). unfold read_session.
  rewrite (bind_Normal _ _ _ _ _ (get_session_Some _ _ _ Hs)).
  by rewrite Hr, Hd.
Qed.

(** ** [ScanSession_init] *)

Lemma ScanSession_init_steps target scan now_id now_start w :
  ∃ self r d w',
    let s := Session target
               match scan with
               | Some s => if decide (s = "") then strftime_Ymd_HMS now_id else s
               | None => strftime_Ymd_HMS now_id
               end now_start None r d in
    ScanSession_init target scan now_id now_start w = (Normal self, w') ∧
    holds self s [] w' ∧
    console w' = console w ∧
    sessions w' = <[self := s]> (sessions w) ∧
    sessions w !! self = None.
Proof.
  unfold ScanSession_init, bind, new_list, new_dict, new_session.
  cbv zeta. unfold set_sessions, set_dicts, set_lists.
  cbn [sessions lists dicts console].
  eexists _, _, _, _. split; [reflexivity|].
  split; [|split; [reflexivity|split; [reflexivity|]]].
  - unfold holds. cbn [sessions lists dicts console results summary].
    rewrite !lookup_insert_eq. done.
  - apply not_elem_of_dom, is_fresh.
Qed.

Lemma session_after_steps target scan now_id now_start calls w :
  ∃ self r d w',
    let s := Session target
               match scan with
               | Some s => if decide (s = "") then strftime_Ymd_HMS now_id else s
               | None => strftime_Ymd_HMS now_id
               end now_start None r d in
    session_after target scan now_id now_start calls w = (Normal self, w') ∧
    holds self s (concat calls) w' ∧
    console w' = console w.
Proof.
  destruct (ScanSession_init_steps target scan now_id now_start w)
    as (self & r & d & w1 & Hinit & Hw1 & Hc1 & _).
  cbv zeta in *.
  destruct (for_each_add_results_holds self _ calls [] w1 Hw1)
    as (w2 & Hcalls & Hw2 & _ & Hc2).
  exists self, r, d, w2. cbv zeta. unfold session_after.
  rewrite (bind_Normal _ _ _ _ _ Hinit), (bind_Normal _ _ _ _ _ Hcalls).
  split; [reflexivity|]. split; [exact Hw2|congruence].
Qed.
(** ** [finalize] and the console *)

Lemma finalize_steps self s now w :
  sessions w !! self = Some s →
  finalize self now w = (Normal tt, set_sessions <[self := finalized now s]> w).
Proof.
  intros Hs. unfold finalize.
  by rewrite (bind_Normal _ _ _ _ _ (get_session_Some _ _ _ Hs)).
Qed.

Lemma holds_set_console self s rs f w :
  holds self s rs w → holds self s rs (set_console f w).
Proof. intros (? & ? & ?). done. Qed.

Lemma finalize_holds self s rs now w :
  holds self s rs w →
  finalize self now w = (Normal tt, set_sessions <[self := finalized now s]> w) ∧
  holds self (finalized now s) rs (set_sessions <[self := finalized now s]> w).
Proof.
  intros (Hs & Hr & Hd). split; [by apply finalize_steps|].
  unfold holds, set_sessions; cbn [sessions lists dicts].
  by rewrite lookup_insert_eq.
Qed.

(** ** Calls with lists of the store *)

Lemma read_session_tracks self s rs counted w :
  tracks self s rs counted w →
  read_session self w = (Normal (rs, recomputed_summary counted), w).
Proof.
  intros (Hs & Hr & Hd). unfold read_session.
  rewrite (bind_Normal _ _ _ _ _ (get_session_Some _ _ _ Hs)).
  by rewrite Hr, Hd.
Qed.

Lemma ScanSession_init_fresh target scan now_id now_start w :
  ∃ self r d w',
    let s := Session target
               match scan with
               | Some s => if decide (s = "") then strftime_Ymd_HMS now_id else s
               | None => strftime_Ymd_HMS now_id
               end now_start None r d in
    ScanSession_init target scan now_id now_start w = (Normal self, w') ∧
    holds self s [] w' ∧
    console w' = console w ∧
    lists w !! r = None ∧ keeps w w'.
Proof.
  unfold ScanSession_init, bind, new_list, new_dict, new_session.
  cbv zeta. unfold set_sessions, set_dicts, set_lists.
  cbn [sessions lists dicts console].
  assert (Hr : lists w !! fresh (dom (lists w)) = None)
    by apply not_elem_of_dom, is_fresh.
  eexists _, _, _, _. split; [reflexivity|].
  split; [|split; [reflexivity|split; [exact Hr|]]].
  - unfold holds. cbn [sessions lists dicts console results summary].
    rewrite !lookup_insert_eq. done.
  - intros l ys Hl. cbn [lists]. rewrite lookup_insert_ne; [done|].
    intros <-. congruence.
Qed.

Lemma foreign_known w h : foreign w h → known w h.
Proof. by destruct h. Qed.

Lemma after_call_foreign w st h :
  foreign w h →
  after_call w st h = (st.1 ++ handed_over w [] h, st.2 ++ handed_over w [] h).
Proof. by destruct h. Qed.

Lemma fold_after_call_foreign w calls : ∀ rs counted,
  Forall (foreign w) calls →
  fold_left (after_call w) calls (rs, counted)
  = (rs ++ concat (batches w calls), counted ++ concat (batches w calls)).
Proof.
  induction calls as [|h calls IH]; intros rs counted Hf.
  - cbn. by rewrite !app_nil_r.
  - apply Forall_cons in Hf as [Hh Hf]. cbn [fold_left].
    rewrite (after_call_foreign _ _ _ Hh). cbn [fst snd].
    rewrite (IH _ _ Hf). unfold batches. cbn [map concat].
    by rewrite !app_assoc.
Qed.

Lemma after_calls_foreign w calls :
  Forall (foreign w) calls →
  after_calls w calls = (concat (batches w calls), concat (batches w calls)).
Proof. intros Hf. unfold after_calls. by rewrite fold_after_call_foreign. Qed.

(** What has been counted only grows. *)
Lemma fold_after_call_counted w calls : ∀ st,
  ∃ more, (fold_left (after_call w) calls st).2 = st.2 ++ more.
Proof.
  induction calls as [|h calls IH]; intros st.
  - exists []. cbn. by rewrite app_nil_r.
  - cbn [fold_left]. destruct (IH (after_call w st h)) as [more ->].
    unfold after_call. cbn [snd]. eexists. by rewrite <- app_assoc.
Qed.

(** One call, for each of the three kinds of list; [w0] is the store in
    which the session was created. *)
Lemma hand_over_steps self s rs counted h w0 w :
  tracks self s rs counted w →
  lists w0 !! results s = None →
  keeps w0 w →
  known w0 h →
  hand_over self h w
  = (Normal tt,
     set_dicts <[summary s :=
                  recomputed_summary (after_call w0 (rs, counted) h).2]>
       (set_lists <[results s := (after_call w0 (rs, counted) h).1]> w)).
Proof.
  intros Hw Hr0 Hframe Hk. pose proof Hw as (Hs & Hr & Hd).
  unfold after_call. cbn [fst snd].
  destruct h as [xs|l|]; cbn [hand_over handed_over].
  - by apply (add_results_tracks self s rs counted (Elements xs) xs xs).
  - destruct Hk as [ys Hys]. rewrite Hys. cbn [from_option]. unfold id.
    assert (Hl : l ≠ results s) by (intros ->; congruence).
    apply (add_results_tracks self s rs counted (Object l) ys ys w Hw).
    + apply list_get_Some. by apply Hframe.
    + intros w' Hw'. apply list_get_Some.
      rewrite Hw', lookup_insert_ne by done. by apply Hframe.
  - rewrite (bind_Normal _ _ _ _ _ (get_session_Some _ _ _ Hs)).
    apply (add_results_tracks self s rs counted (Object (results s)) rs
             (rs ++ rs) w Hw).
    + by apply list_get_Some.
    + intros w' Hw'. apply list_get_Some. rewrite Hw'. apply lookup_insert_eq.
Qed.

Lemma hand_over_tracks self s rs counted h w0 w :
  tracks self s rs counted w →
  lists w0 !! results s = None →
  keeps w0 w →
  known w0 h →
  ∃ w',
    hand_over self h w = (Normal tt, w') ∧
    tracks self s (after_call w0 (rs, counted) h).1
      (after_call w0 (rs, counted) h).2 w' ∧
    sessions w' = sessions w ∧ console w' = console w ∧
    dicts w' = <[summary s :=
                  recomputed_summary (after_call w0 (rs, counted) h).2]>
                 (dicts w) ∧
    lists w' = <[results s := (after_call w0 (rs, counted) h).1]> (lists w) ∧
    keeps w0 w'.
Proof.
  intros Hw Hr0 Hframe Hk. eexists.
  split; [by apply hand_over_steps|].
  destruct Hw as (Hs & Hr & Hd).
  split; [|split; [done|split; [done|split; [done|split; [done|]]]]].
  - split; [exact Hs|]. split.
    + unfold set_dicts, set_lists; cbn [lists]. apply lookup_insert_eq.
    + apply dicts_set_dicts.
  - intros l ys Hl. unfold set_dicts, set_lists; cbn [lists].
    rewrite lookup_insert_ne; [by apply Hframe|]. intros <-. congruence.
Qed.

Lemma for_each_hand_over_tracks self s w0 calls : ∀ rs counted w,
  tracks self s rs counted w →
  lists w0 !! results s = None →
  keeps w0 w →
  Forall (known w0) calls →
  ∃ w',
    for_each calls (hand_over self) w = (Normal tt, w') ∧
    tracks self s (fold_left (after_call w0) calls (rs, counted)).1
      (fold_left (after_call w0) calls (rs, counted)).2 w' ∧
    sessions w' = sessions w ∧ console w' = console w ∧
    keeps w0 w'.
Proof.
  induction calls as [|h calls IH]; intros rs counted w Hw Hr0 Hframe Hk.
  - exists w. done.
  - apply Forall_cons in Hk as [Hh Hk]. cbn [for_each fold_left].
    destruct (hand_over_tracks self s rs counted h w0 w Hw Hr0 Hframe Hh)
      as (w1 & H1 & Hw1 & Hs1 & Hc1 & _ & _ & Hf1).
    destruct (after_call w0 (rs, counted) h) as [rs1 counted1].
    destruct (IH rs1 counted1 w1 Hw1 Hr0 Hf1 Hk) as (w2 & H2 & Hw2 & Hs2 & Hc2 & Hf2).
    exists w2. rewrite (bind_Normal _ _ _ _ _ H1), H2.
    repeat split; [apply Hw2..|congruence|congruence|exact Hf2].
Qed.

Lemma session_after_calls_steps target scan now_id now_start calls w :
  Forall (known w) calls →
  ∃ self r d w',
    let s := Session target
               match scan with
               | Some s => if decide (s = "") then strftime_Ymd_HMS now_id else s
               | None => strftime_Ymd_HMS now_id
               end now_start None r d in
    session_after_calls target scan now_id now_start calls w = (Normal self, w') ∧
    tracks self s (after_calls w calls).1 (after_calls w calls).2 w' ∧
    console w' = console w ∧
    lists w !! r = None ∧ keeps w w'.
Proof.
  intros Hk.
  destruct (ScanSession_init_fresh target scan now_id now_start w)
    as (self & r & d & w1 & Hinit & Hw1 & Hc1 & Hr0 & Hframe).
  cbv zeta in *.
  destruct (for_each_hand_over_tracks self _ w calls [] [] w1 Hw1 Hr0 Hframe Hk)
    as (w2 & Hcalls & Hw2 & _ & Hc2 & Hf2).
  exists self, r, d, w2. cbv zeta. unfold session_after_calls.
  rewrite (bind_Normal _ _ _ _ _ Hinit), (bind_Normal _ _ _ _ _ Hcalls).
  split; [reflexivity|]. split; [exact Hw2|].
  split; [congruence|]. split; [exact Hr0|exact Hf2].
Qed.

Lemma finalize_tracks self s rs counted now w :
  tracks self s rs counted w →
  finalize self now w = (Normal tt, set_sessions <[self := finalized now s]> w) ∧
  tracks self (finalized now s) rs counted
    (set_sessions <[self := finalized now s]> w).
Proof.
  intros (Hs & Hr & Hd). split; [by apply finalize_steps|].
  unfold tracks, set_sessions; cbn [sessions lists dicts].
  by rewrite lookup_insert_eq.
Qed.

Lemma after_calls_snoc w calls h :
  after_calls w (calls ++ [h]) = after_call w (after_calls w calls) h.
Proof. unfold after_calls. by rewrite fold_left_app. Qed.

Lemma contents_after_calls_steps target scan now_id now_start calls w :
  Forall (known w) calls →
  (contents_after_calls target scan now_id now_start calls w).1
  = Normal ((after_calls w calls).1, recomputed_summary (after_calls w calls).2).
Proof.
  intros Hk.
  destruct (session_after_calls_steps target scan now_id now_start calls w Hk)
    as (self & r & d & w1 & Hrun & Hw1 & _).
  cbv zeta in *. unfold contents_after_calls.
  rewrite (bind_Normal _ _ _ _ _ Hrun).
  by rewrite (read_session_tracks _ _ _ _ _ Hw1).
Qed.

(** A call with a foreign list is the call with the elements of that
    list. *)
Lemma for_each_hand_over_foreign self s w0 calls : ∀ rs w,
  holds self s rs w →
  lists w0 !! results s = None →
  keeps w0 w →
  Forall (foreign w0) calls →
  for_each calls (hand_over self) w
  = for_each (batches w0 calls) (λ batch, add_results self (Elements batch)) w.
Proof.
  induction calls as [|h calls IH]; intros rs w Hw Hr0 Hframe Hf; [reflexivity|].
  apply Forall_cons in Hf as [Hh Hf]. unfold batches. cbn [for_each map].
  destruct (hand_over_tracks self s rs rs h w0 w Hw Hr0 Hframe
              (foreign_known _ _ Hh)) as (w1 & H1 & Hw1 & _ & _ & _ & _ & Hf1).
  pose proof (hand_over_steps self s rs rs h w0 w Hw Hr0 Hframe
                (foreign_known _ _ Hh)) as Hstep.
  rewrite (after_call_foreign _ _ _ Hh) in Hstep, Hw1. cbn [fst snd] in Hstep, Hw1.
  rewrite <- (add_results_steps self s rs _ w Hw) in Hstep.
  rewrite Hstep in H1.
  rewrite (bind_Normal _ _ _ _ _ (eq_trans Hstep H1)).
  rewrite (bind_Normal _ _ _ _ _ H1).
  exact (IH _ _ Hw1 Hr0 Hf1 Hf).
Qed.

Lemma session_after_calls_foreign target scan now_id now_start calls w :
  Forall (foreign w) calls →
  session_after_calls target scan now_id now_start calls w
  = session_after target scan now_id now_start (batches w calls) w.
Proof.
  intros Hf.
  destruct (ScanSession_init_fresh target scan now_id now_start w)
    as (self & r & d & w1 & Hinit & Hw1 & Hc1 & Hr0 & Hframe).
  cbv zeta in *. unfold session_after_calls, session_after.
  rewrite !(bind_Normal _ _ _ _ _ Hinit).
  apply bind_same.
  exact (for_each_hand_over_foreign self _ w calls [] w1 Hw1 Hr0 Hframe Hf).
Qed.

(** ** The loop of [run_scan] *)

Lemma run_scan_loop session s target headers tests : ∀ rs w,
  holds session s rs w →
  ∃ w',
    for_each tests (λ test,
      console_print (Out_running (name test)) ;;
      try_except
        (do results <- (λ w, (run test target headers, w));
         add_results session (Elements results) ;;
         if (0 <? vulnerable_count results)%nat
         then console_print (Out_found (vulnerable_count results))
         else console_print Out_passed)
        (λ e, console_print (Out_error (exn_msg e)))) w
    = (Normal tt, w') ∧
    holds session s (rs ++ concat (map (λ t, returned (run t target headers)) tests)) w' ∧
    sessions w' = sessions w ∧
    console w' = console w ++ concat (map (events_of target headers) tests).
Proof.
  induction tests as [|t tests IH]; intros rs w Hw.
  - exists w. simpl. by rewrite !app_nil_r.
  - cbn [for_each map concat].
    set (body := λ test : test_class, _) in *.
    assert (Hstep : ∃ w1,
      body t w = (Normal tt, w1) ∧
      holds session s (rs ++ returned (run t target headers)) w1 ∧
      sessions w1 = sessions w ∧
      console w1 = console w ++ events_of target headers t).
    { unfold body, events_of.
      set (w0 := set_console (λ out, out ++ [Out_running (name t)]) w).
      assert (Hp : console_print (Out_running (name t)) w = (Normal tt, w0)) by done.
      rewrite (bind_Normal _ _ _ _ _ Hp).
      assert (Hw0 : holds session s rs w0) by by apply holds_set_console.
      unfold try_except, bind at 1.
      destruct (run t target headers) as [results|e]; cbn [returned].
      - destruct (add_results_holds session s rs results w0 Hw0)
          as (w1 & H1 & Hw1 & Hs1 & Hc1).
        rewrite (bind_Normal _ _ _ _ _ H1).
        destruct (0 <? vulnerable_count results)%nat; unfold console_print;
          (eexists; split; [reflexivity|]);
          (split; [by apply holds_set_console|]);
          unfold set_console; cbn [sessions console]; rewrite Hs1, Hc1;
          unfold w0, set_console; cbn [sessions console];
          by rewrite <- app_assoc.
      - unfold console_print. eexists; split; [reflexivity|].
        rewrite app_nil_r. split; [by apply holds_set_console|].
        unfold w0, set_console; cbn [sessions console].
        by rewrite <- app_assoc. }
    destruct Hstep as (w1 & H1 & Hw1 & Hs1 & Hc1).
    destruct (IH _ _ Hw1) as (w2 & H2 & Hw2 & Hs2 & Hc2).
    exists w2. rewrite (bind_Normal _ _ _ _ _ H1), H2.
    split; [done|]. rewrite app_assoc. split; [done|].
    split; [congruence|]. rewrite Hc2, Hc1. by rewrite <- app_assoc.
Qed.

(** The whole of [run_scan]: the session it returns, the store and the
    console it leaves. *)
Lemma run_scan_steps self cfg now_id now_start now_end w :
  let target := cfg_target_url cfg in
  let headers := default ∅ (cfg_headers cfg) in
  let tests := default (test_classes self) (cfg_selected_tests cfg) in
  ∃ session r d w',
    let s := Session target (strftime_Ymd_HMS now_id) now_start
               (Some now_end) r d in
    run_scan self cfg now_id now_start now_end w = (Normal session, w') ∧
    holds session s
      (concat (map (λ t, returned (run t target headers)) tests)) w' ∧
    console w' = console w
      ++ Out_start target (strftime_Ymd_HMS now_id) (length tests)
      :: concat (map (events_of target headers) tests).
Proof.
  intros target headers tests.
  destruct (ScanSession_init_steps target None now_id now_start w)
    as (session & r & d & w1 & Hinit & Hw1 & Hcon & _).
  cbv zeta in *. set (s := Session _ _ _ _ _ _) in *.
  unfold run_scan. fold target headers tests.
  rewrite (bind_Normal _ _ _ _ _ Hinit).
  rewrite (bind_Normal _ _ _ _ _ (get_session_Some _ _ _ (proj1 Hw1))).
  set (w2 := set_console (λ out, out ++ [Out_start target (scan_id s) (length tests)]) w1).
  assert (Hp : console_print (Out_start target (scan_id s) (length tests)) w1 = (Normal tt, w2)) by done.
  rewrite (bind_Normal _ _ _ _ _ Hp).
  assert (Hw2 : holds session s [] w2) by by apply holds_set_console.
  destruct (run_scan_loop session s target headers tests [] w2 Hw2)
    as (w3 & Hloop & Hw3 & Hs3 & Hc3).
  rewrite (bind_Normal _ _ _ _ _ Hloop).
  destruct (finalize_holds session s _ now_end w3 Hw3) as [Hfin Hw4].
  rewrite (bind_Normal _ _ _ _ _ Hfin).
  exists session, r, d, (set_sessions <[session := finalized now_end s]> w3).
  split; [reflexivity|]. split; [exact Hw4|].
  unfold set_sessions; cbn [console]. rewrite Hc3.
  unfold w2, set_console; cbn [console]. rewrite Hcon.
  by rewrite <- app_assoc.
Qed.

(** ** Formatting of instants *)

Lemma digit_inj a b :
  (0 <= a < 10)%Z → (0 <= b < 10)%Z → pystr.digit a = pystr.digit b → a = b.
Proof.
  intros Ha Hb.
  assert (Ha' : (a = 0 ∨ a = 1 ∨ a = 2 ∨ a = 3 ∨ a = 4 ∨ a = 5 ∨ a = 6
                ∨ a = 7 ∨ a = 8 ∨ a = 9)%Z) by lia.
  assert (Hb' : (b = 0 ∨ b = 1 ∨ b = 2 ∨ b = 3 ∨ b = 4 ∨ b = 5 ∨ b = 6
                ∨ b = 7 ∨ b = 8 ∨ b = 9)%Z) by lia.
  clear Ha Hb.
  repeat (destruct Ha' as [->|Ha']); try subst a;
    repeat (destruct Hb' as [->|Hb']); try subst b;
    simpl; intros H; first [reflexivity | discriminate H].
Qed.

Lemma digits_inj w : ∀ n n' rest rest',
  (0 <= n < 10 ^ Z.of_nat w)%Z → (0 <= n' < 10 ^ Z.of_nat w)%Z →
  pystr.digits w n rest = pystr.digits w n' rest' →
  n = n' ∧ rest = rest'.
Proof.
  induction w as [|w IH]; intros n n' rest rest' Hn Hn' H.
  - simpl in *. split; [lia | exact H].
  - rewrite Nat2Z.inj_succ, Z.pow_succ_r in Hn, Hn' by lia.
    cbn [pystr.digits] in H.
    apply IH in H as [Hq Hr].
    + injection Hr as Hd Hrest. split; [|exact Hrest].
      apply digit_inj in Hd; [|apply Z.mod_pos_bound; lia..].
      rewrite (Z.div_mod n 10), (Z.div_mod n' 10) by lia. congruence.
    + split; [apply Z.div_pos; lia | apply Z.div_lt_upper_bound; lia].
    + split; [apply Z.div_pos; lia | apply Z.div_lt_upper_bound; lia].
Qed.

Lemma string_tail_eq c s s' : String c s = String c s' → s = s'.
Proof. by intros [= ->]. Qed.

Lemma strftime_Ymd_HMS_eq ta tb :
  datetime_valid ta → datetime_valid tb →
  strftime_Ymd_HMS ta = strftime_Ymd_HMS tb ↔ to_the_second ta = to_the_second tb.
Proof.
  intros (Hy & Hm & Hd & Hh & Hmi & Hs & _) (Hy' & Hm' & Hd' & Hh' & Hmi' & Hs' & _).
  unfold strftime_Ymd_HMS, to_the_second. split.
  - intros H.
    apply digits_inj in H as [-> H]; [|simpl; lia..].
    apply digits_inj in H as [-> H]; [|simpl; lia..].
    apply digits_inj in H as [-> H]; [|simpl; lia..].
    apply string_tail_eq in H.
    apply digits_inj in H as [-> H]; [|simpl; lia..].
    apply digits_inj in H as [-> H]; [|simpl; lia..].
    apply digits_inj in H as [-> H]; [|simpl; lia..].
    reflexivity.
  - intros [= -> -> -> -> -> ->]. reflexivity.
Qed.

(** ** Sequences of [add_results] calls *)

Lemma contents_after_steps target scan now_id now_start calls w :
  (contents_after target scan now_id now_start calls w).1
  = Normal (concat calls, recomputed_summary (concat calls)).
Proof.
  destruct (session_after_steps target scan now_id now_start calls w)
    as (self & r & d & w1 & Hrun & Hw1 & _).
  cbv zeta in *. unfold contents_after.
  rewrite (bind_Normal _ _ _ _ _ Hrun).
  by rewrite (read_session_holds _ _ _ _ Hw1).
Qed.

Lemma recount_snoc rs r :
  recount (rs ++ [r])
  = tally r (with_total (Z.of_nat (length (rs ++ [r]))) (recount rs)).
Proof. by rewrite tally_recount, with_total_recount. Qed.

Lemma tally_bounds r c :
  let c' := tally r c in
  (c_total c' = c_total c ∧
   c_vulnerabilities c' + c_info c' + c_passed c'
     <= c_vulnerabilities c + c_info c + c_passed c + 1 ∧
   c_critical c' + c_high c' + c_medium c' + c_low c' - c_vulnerabilities c'
     <= c_critical c + c_high c + c_medium c + c_low c - c_vulnerabilities c)%Z.
Proof.
  unfold tally. cbv zeta.
  repeat case_decide; cbn; lia.
Qed.

Lemma recount_bounds rs :
  let c := recount rs in
  (c_vulnerabilities c + c_info c + c_passed c <= c_total c ∧
   c_critical c + c_high c + c_medium c + c_low c <= c_vulnerabilities c)%Z.
Proof.
  induction rs as [|r rs IH] using rev_ind;
    [unfold recount, count; rewrite !filter_nil; cbn; lia|].
  cbv zeta in *. rewrite recount_snoc.
  pose proof (tally_bounds r (with_total (Z.of_nat (length (rs ++ [r]))) (recount rs))) as H.
  cbv zeta in H. destruct H as (Ht & Hv & Hs).
  cbn [c_total c_vulnerabilities c_info c_passed c_critical c_high c_medium
       c_low with_total] in *.
  rewrite length_app in *. cbn [length] in *.
  cbn [recount c_total] in IH. lia.
Qed.

Lemma tally_other_status r c :
  get_upper r "status" ≠ "VULNERABLE" →
  get_upper r "status" ≠ "INFO" →
  get_upper r "status" ≠ "PASSED" →
  tally r c = c.
Proof.
  intros Hv Hi Hp. unfold tally.
  rewrite (decide_False (P := _ = "VULNERABLE")) by done.
  rewrite (decide_False (P := _ = "INFO")) by done.
  by rewrite (decide_False (P := _ = "PASSED")) by done.
Qed.

Lemma tally_other_severity r c :
  get_upper r "status" = "VULNERABLE" →
  get_upper r "severity" ∉ ["CRITICAL"; "HIGH"; "MEDIUM"; "LOW"] →
  tally r c = with_vulnerabilities (c_vulnerabilities c + 1) c.
Proof.
  intros Hv Hs. unfold tally.
  rewrite (decide_True (P := _ = "VULNERABLE")) by done. cbv zeta.
  rewrite !not_elem_of_cons in Hs. destruct Hs as (? & ? & ? & ? & _).
  rewrite (decide_False (P := _ = "CRITICAL")) by done.
  rewrite (decide_False (P := _ = "HIGH")) by done.
  rewrite (decide_False (P := _ = "MEDIUM")) by done.
  by rewrite (decide_False (P := _ = "LOW")) by done.
Qed.

Lemma concat_snoc_singleton (calls : list (list finding)) r :
  concat (calls ++ [[r]]) = concat calls ++ [r].
Proof. by rewrite concat_app. Qed.

(** Two batches, a PASSED finding and then a VULNERABLE one of severity
    HIGH: two tests in total, one passed, one vulnerability, one high. *)
Example two_batches :
  match (contents_after "http://target" None morning morning
           [[passed_finding]; [high_finding]] empty_world).1 with
  | Normal (rs, d) =>
      length rs = 2%nat ∧
      d !! "total_tests" = Some 2%Z ∧ d !! "passed" = Some 1%Z ∧
      d !! "high" = Some 1%Z ∧ d !! "vulnerabilities_found" = Some 1%Z ∧
      d !! "critical" = Some 0%Z ∧ d !! "info" = Some 0%Z
  | Raised _ => False
  end.
Proof. vm_compute. repeat split; reflexivity. Qed.

(** A finding written in lower case is counted like its upper-case form. *)
Example lower_case_status_counts :
  match (contents_after "http://target" None morning morning
           [[ {[ "status" := "passed" ]} ]] empty_world).1 with
  | Normal (_, d) => d !! "passed" = Some 1%Z
  | Raised _ => False
  end.
Proof. vm_compute. reflexivity. Qed.


(** C1 (as the code has it). Whatever the sequence of [add_results] calls
    on a new session in which the list handed over is never the session's
    own [results] (it is a list of the caller, or a list that the store held
    before the session), and after each of the calls (after the first [k]
    of them, for every [k]), the session holds the concatenation [rs] of the
    lists received so far and its summary is the one recomputed from [rs]
    alone: [total_tests] is the length of [rs], and every other counter is
    the number of findings of [rs] with that status, or vulnerable with that
    severity, statuses and severities being compared after [upper()] as
    [add_results] does. *)
Theorem summary_recomputable_from_results
    (w : world) (target : string) (scan : option string)
    (now_id now_start : datetime) (calls : list handed) (k : nat) :
  Forall (foreign w) calls →
  let rs := concat (batches w (take k calls)) in
  ∃ d : gmap string Z,
    (contents_after_calls target scan now_id now_start (take k calls) w).1
      = Normal (rs, d) ∧
    d = recomputed_summary rs ∧
    d !! "total_tests" = Some (Z.of_nat (length rs)) ∧
    d !! "vulnerabilities_found" = Some (count (has_status "VULNERABLE") rs) ∧
    d !! "critical" = Some (count (has_severity "CRITICAL") rs) ∧
    d !! "high" = Some (count (has_severity "HIGH") rs) ∧
    d !! "medium" = Some (count (has_severity "MEDIUM") rs) ∧
    d !! "low" = Some (count (has_severity "LOW") rs) ∧
    d !! "info" = Some (count (has_status "INFO") rs) ∧
    d !! "passed" = Some (count (has_status "PASSED") rs).
Proof.
  intros Hf rs. exists (recomputed_summary rs).
  assert (Hk : Forall (foreign w) (take k calls)) by by apply Forall_take.
  split.
  - rewrite contents_after_calls_steps
      by (eapply Forall_impl; [exact Hk|apply foreign_known]).
    by rewrite (after_calls_foreign _ _ Hk).
  - split; [reflexivity|]. unfold recomputed_summary.
    split; [apply lookup_total_tests|]. split; [apply lookup_vulnerabilities|].
    split; [apply lookup_critical|]. split; [apply lookup_high|].
    split; [apply lookup_medium|]. split; [apply lookup_low|].
    split; [apply lookup_info|apply lookup_passed].
Qed.

(** A list of the caller, then the list that the store held. *)
Lemma summary_recomputable_from_results_witness :
  Forall (foreign sample_store) [Batch [passed_finding]; Stored 1%positive] ∧
  ∃ d : gmap string Z,
    (contents_after_calls "http://target" None morning morning
       (take 2 [Batch [passed_finding]; Stored 1%positive]) sample_store).1
      = Normal ([passed_finding; high_finding], d) ∧
    d !! "total_tests" = Some 2%Z ∧
    d !! "vulnerabilities_found" = Some 1%Z.
Proof.
  assert (H : Forall (foreign sample_store)
                [Batch [passed_finding]; Stored 1%positive]).
  { repeat constructor. by exists [high_finding]. }
  split; [exact H|].
  destruct (summary_recomputable_from_results sample_store "http://target" None
              morning morning [Batch [passed_finding]; Stored 1%positive] 2 H)
    as (d & Hrun & _ & Ht & Hv & _).
  exists d. split; [exact Hrun|]. split; [exact Ht|exact Hv].
Defined.

(** Counterexample. One PASSED finding, then the session's own list handed
    to [add_results]: the list is doubled before it is measured and gone
    through, so the session holds two results while [total_tests] and
    [passed] are 3. *)
Lemma own_results_counted_twice :
  match (contents_after_calls "http://target" None morning morning
           [Batch [passed_finding]; Own_results] empty_world).1 with
  | Normal (rs, d) =>
      rs = [passed_finding; passed_finding] ∧
      d !! "total_tests" = Some 3%Z ∧ d !! "passed" = Some 3%Z ∧
      d !! "total_tests" ≠ Some (Z.of_nat (length rs)) ∧
      d !! "passed" ≠ Some (count (has_status "PASSED") rs)
  | Raised _ => False
  end.
Proof. vm_compute. repeat split; (reflexivity || discriminate). Qed.

(** C10. After every sequence of [add_results] calls,
    [total_tests >= vulnerabilities_found + info + passed] and
    [vulnerabilities_found >= critical + high + medium + low]. A finding
    whose status is none of VULNERABLE, INFO, PASSED adds one to
    [total_tests] and to nothing else; a VULNERABLE finding whose severity is
    none of CRITICAL, HIGH, MEDIUM, LOW adds one to [total_tests] and to
    [vulnerabilities_found] and to nothing else; and there is a call sequence
    after which both inequalities are strict. *)
Theorem summary_counters_bounded :
  (∀ w target scan now_id now_start (calls : list (list finding)),
     ∃ rs c,
       (contents_after target scan now_id now_start calls w).1
         = Normal (rs, dict_of c) ∧
       (c_total c >= c_vulnerabilities c + c_info c + c_passed c)%Z ∧
       (c_vulnerabilities c
          >= c_critical c + c_high c + c_medium c + c_low c)%Z) ∧
  (∀ w target scan now_id now_start (calls : list (list finding)) (r : finding),
     get_upper r "status" ∉ ["VULNERABLE"; "INFO"; "PASSED"] →
     ∃ rs c,
       (contents_after target scan now_id now_start calls w).1
         = Normal (rs, dict_of c) ∧
       (contents_after target scan now_id now_start (calls ++ [[r]]) w).1
         = Normal (rs ++ [r], dict_of (with_total (c_total c + 1) c))) ∧
  (∀ w target scan now_id now_start (calls : list (list finding)) (r : finding),
     get_upper r "status" = "VULNERABLE" →
     get_upper r "severity" ∉ ["CRITICAL"; "HIGH"; "MEDIUM"; "LOW"] →
     ∃ rs c,
       (contents_after target scan now_id now_start calls w).1
         = Normal (rs, dict_of c) ∧
       (contents_after target scan now_id now_start (calls ++ [[r]]) w).1
         = Normal (rs ++ [r],
                   dict_of (with_vulnerabilities (c_vulnerabilities c + 1)
                              (with_total (c_total c + 1) c)))) ∧
  (∃ rs c,
     (contents_after "http://target" None morning morning
        [[error_finding]; [info_severity_finding]] empty_world).1
       = Normal (rs, dict_of c) ∧
     (c_total c > c_vulnerabilities c + c_info c + c_passed c)%Z ∧
     (c_vulnerabilities c > c_critical c + c_high c + c_medium c + c_low c)%Z).
Proof.
  split; [|split; [|split]].
  - intros. exists (concat calls), (recount (concat calls)).
    split; [apply contents_after_steps|].
    pose proof (recount_bounds (concat calls)) as H. cbv zeta in H. lia.
  - intros w target scan now_id now_start calls r Hst.
    rewrite !not_elem_of_cons in Hst. destruct Hst as (? & ? & ? & _).
    exists (concat calls), (recount (concat calls)).
    split; [apply contents_after_steps|].
    rewrite contents_after_steps, concat_snoc_singleton.
    unfold recomputed_summary.
    rewrite recount_snoc, tally_other_status by done.
    do 4 f_equal. unfold with_total. f_equal. cbn [recount c_total].
    rewrite length_app. cbn [length]. lia.
  - intros w target scan now_id now_start calls r Hst Hsev.
    exists (concat calls), (recount (concat calls)).
    split; [apply contents_after_steps|].
    rewrite contents_after_steps, concat_snoc_singleton.
    unfold recomputed_summary.
    rewrite recount_snoc, tally_other_severity by done.
    do 4 f_equal. unfold with_total, with_vulnerabilities.
    cbn [recount c_total c_vulnerabilities c_critical c_high c_medium c_low
         c_info c_passed].
    f_equal. rewrite length_app. cbn [length]. lia.
  - eexists _, _. split; [apply contents_after_steps|].
    vm_compute. split; reflexivity.
Qed.

(** An ERROR finding, and a VULNERABLE finding of severity INFO, appended to
    a new session. *)
Lemma summary_counters_bounded_witness :
  (get_upper error_finding "status" ∉ ["VULNERABLE"; "INFO"; "PASSED"]) ∧
  (∃ rs c,
    (contents_after "http://target" None morning morning [] empty_world).1
      = Normal (rs, dict_of c) ∧
    (contents_after "http://target" None morning morning ([] ++ [[error_finding]])
       empty_world).1
      = Normal (rs ++ [error_finding], dict_of (with_total (c_total c + 1) c))) ∧
  get_upper info_severity_finding "status" = "VULNERABLE" ∧
  (get_upper info_severity_finding "severity"
     ∉ ["CRITICAL"; "HIGH"; "MEDIUM"; "LOW"]) ∧
  (∃ rs c,
    (contents_after "http://target" None morning morning [] empty_world).1
      = Normal (rs, dict_of c) ∧
    (contents_after "http://target" None morning morning
       ([] ++ [[info_severity_finding]]) empty_world).1
      = Normal (rs ++ [info_severity_finding],
                dict_of (with_vulnerabilities (c_vulnerabilities c + 1)
                           (with_total (c_total c + 1) c)))).
Proof.
  assert (H : get_upper error_finding "status" ∉ ["VULNERABLE"; "INFO"; "PASSED"]).
  { rewrite !not_elem_of_cons. vm_compute. repeat split; try discriminate.
    apply not_elem_of_nil. }
  assert (Hv : get_upper info_severity_finding "status" = "VULNERABLE")
    by (vm_compute; reflexivity).
  assert (Hs : get_upper info_severity_finding "severity"
                 ∉ ["CRITICAL"; "HIGH"; "MEDIUM"; "LOW"]).
  { rewrite !not_elem_of_cons. vm_compute. repeat split; try discriminate.
    apply not_elem_of_nil. }
  split; [exact H|]. split.
  { exact (proj1 (proj2 summary_counters_bounded) empty_world "http://target"
             None morning morning [] error_finding H). }
  split; [exact Hv|]. split; [exact Hs|].
  exact (proj1 (proj2 (proj2 summary_counters_bounded)) empty_world
           "http://target" None morning morning [] info_severity_finding Hv Hs).
Defined.

(** ** Risk score *)

Lemma weights_lookup :
  helpers.weights !!! "critical" = 25%Z ∧ helpers.weights !!! "high" = 15%Z ∧
  helpers.weights !!! "medium" = 8%Z ∧ helpers.weights !!! "low" = 3%Z.
Proof. repeat split; vm_compute; reflexivity. Qed.

Lemma calculate_risk_score_eq (summary : gmap string Z) :
  helpers.calculate_risk_score summary
  = Z.min (default 0 (summary !! "critical") * 25
           + default 0 (summary !! "high") * 15
           + default 0 (summary !! "medium") * 8
           + default 0 (summary !! "low") * 3)%Z 100.
Proof.
  unfold helpers.calculate_risk_score. cbv zeta.
  destruct weights_lookup as (-> & -> & -> & ->).
  f_equal.
Qed.

(** C2. The risk score is the weighted sum
    [critical*25 + high*15 + medium*8 + low*3] capped at 100 (a missing
    counter counts for 0), and the level is CRITICAL from 75, HIGH from 50,
    MEDIUM from 25 and LOW below; [{critical:1, high:1, medium:0, low:0}]
    scores 40, level MEDIUM, and [{critical:3}] scores 75, level CRITICAL. *)
Theorem risk_score_and_level :
  (∀ summary : gmap string Z,
     helpers.calculate_risk_score summary
     = Z.min (default 0 (summary !! "critical") * 25
              + default 0 (summary !! "high") * 15
              + default 0 (summary !! "medium") * 8
              + default 0 (summary !! "low") * 3)%Z 100) ∧
  (∀ score : Z,
     ((75 <= score)%Z → helpers.get_risk_level score = "CRITICAL") ∧
     ((50 <= score < 75)%Z → helpers.get_risk_level score = "HIGH") ∧
     ((25 <= score < 50)%Z → helpers.get_risk_level score = "MEDIUM") ∧
     ((score < 25)%Z → helpers.get_risk_level score = "LOW")) ∧
  (let summary : gmap string Z :=
     list_to_map [("critical", 1%Z); ("high", 1%Z); ("medium", 0%Z); ("low", 0%Z)] in
   helpers.calculate_risk_score summary = 40%Z ∧
   helpers.get_risk_level (helpers.calculate_risk_score summary) = "MEDIUM") ∧
  (let summary : gmap string Z := {[ "critical" := 3%Z ]} in
   helpers.calculate_risk_score summary = 75%Z ∧
   helpers.get_risk_level (helpers.calculate_risk_score summary) = "CRITICAL").
Proof.
  split; [exact calculate_risk_score_eq|]. split; [|split].
  - intros score. unfold helpers.get_risk_level.
    repeat split; intros H;
      repeat (match goal with
              | |- context [(?a <=? ?b)%Z] => destruct (Z.leb_spec a b); try lia
              end); reflexivity.
  - cbv zeta. split; vm_compute; reflexivity.
  - cbv zeta. split; vm_compute; reflexivity.
Qed.

(** The scores 80, 60, 40 and 10, one in each band. *)
Lemma risk_score_and_level_witness :
  ((75 <= 80)%Z ∧ helpers.get_risk_level 80 = "CRITICAL") ∧
  ((50 <= 60 < 75)%Z ∧ helpers.get_risk_level 60 = "HIGH") ∧
  ((25 <= 40 < 50)%Z ∧ helpers.get_risk_level 40 = "MEDIUM") ∧
  ((10 < 25)%Z ∧ helpers.get_risk_level 10 = "LOW").
Proof.
  assert (H80 : (75 <= 80)%Z) by lia.
  assert (H60 : (50 <= 60 < 75)%Z) by lia.
  assert (H40 : (25 <= 40 < 50)%Z) by lia.
  assert (H10 : (10 < 25)%Z) by lia.
  split; [split; [exact H80|]|split; [split; [exact H60|]|split; split;
    [exact H40| |exact H10|]]].
  - exact (proj1 (proj1 (proj2 risk_score_and_level) 80%Z) H80).
  - exact (proj1 (proj2 (proj1 (proj2 risk_score_and_level) 60%Z)) H60).
  - exact (proj1 (proj2 (proj2 (proj1 (proj2 risk_score_and_level) 40%Z))) H40).
  - exact (proj2 (proj2 (proj2 (proj1 (proj2 risk_score_and_level) 10%Z))) H10).
Defined.

(** C7. Raising any one of the counts [critical], [high], [medium], [low]
    of a summary, the others being unchanged, never lowers the risk score,
    and the score of any summary is at most 100. *)
Theorem risk_score_monotone_bounded :
  (∀ (summary : gmap string Z) (k : string) (n : Z),
     k ∈ ["critical"; "high"; "medium"; "low"] →
     (default 0 (summary !! k) <= n)%Z →
     (helpers.calculate_risk_score summary
        <= helpers.calculate_risk_score (<[k := n]> summary))%Z) ∧
  (∀ summary : gmap string Z, (helpers.calculate_risk_score summary <= 100)%Z).
Proof.
  split.
  - intros summary k n Hk Hn. rewrite !calculate_risk_score_eq.
    apply Z.min_le_compat_r.
    rewrite !elem_of_cons in Hk.
    destruct Hk as [->|[->|[->|[->|Hk]]]]; [..|by apply elem_of_nil in Hk];
      rewrite lookup_insert_eq; rewrite !lookup_insert_ne by discriminate;
      cbn [from_option]; unfold id in *; lia.
  - intros summary. rewrite calculate_risk_score_eq. apply Z.le_min_r.
Qed.

(** One more critical finding on [{critical:1, high:2}]. *)
Lemma risk_score_monotone_bounded_witness :
  let summary : gmap string Z := <["critical" := 1%Z]> {[ "high" := 2%Z ]} in
  ("critical" ∈ ["critical"; "high"; "medium"; "low"]) ∧
  (default 0 (summary !! "critical") <= 2)%Z ∧
  (helpers.calculate_risk_score summary
     <= helpers.calculate_risk_score (<["critical" := 2%Z]> summary))%Z.
Proof.
  cbv zeta.
  assert (Hk : "critical" ∈ ["critical"; "high"; "medium"; "low"])
    by apply list_elem_of_here.
  assert (Hn : (default 0 ((<["critical" := 1%Z]> {[ "high" := 2%Z ]} : gmap string Z)
                            !! "critical") <= 2)%Z)
    by (rewrite lookup_insert_eq; simpl; lia).
  split; [exact Hk|]. split; [exact Hn|].
  exact (proj1 risk_score_monotone_bounded _ _ _ Hk Hn).
Defined.

(** ** [finalize], and [add_results] after it *)

Lemma finalize_if_holds self s rs fin w :
  holds self s rs w →
  ∃ w', finalize_if self fin w = (Normal tt, w') ∧
        holds self (from_option finalized id fin s) rs w' ∧
        lists w' = lists w ∧ dicts w' = dicts w.
Proof.
  intros Hw. destruct fin as [now|]; cbn [finalize_if from_option].
  - destruct (finalize_holds self s rs now w Hw) as [Hfin Hw'].
    eexists. split; [exact Hfin|]. split; [exact Hw'|done].
  - exists w. done.
Qed.

(** C4 (as the code has it). [finalize] never fails: called on an already
    finalized session it completes normally and overwrites [end_time] with
    the time of the later call. *)
Theorem finalize_twice_overwrites
    (w : world) (target : string) (scan : option string)
    (now_id now_start : datetime) (calls : list (list finding))
    (t1 t2 : datetime) :
  (finalize_twice target scan now_id now_start calls t1 t2 w).1
  = Normal (Some t2).
Proof.
  destruct (session_after_steps target scan now_id now_start calls w)
    as (self & r & d & w1 & Hrun & Hw1 & _).
  cbv zeta in *. unfold finalize_twice.
  rewrite (bind_Normal _ _ _ _ _ Hrun).
  destruct (finalize_holds _ _ _ t1 _ Hw1) as [Hf1 Hw2].
  rewrite (bind_Normal _ _ _ _ _ Hf1).
  destruct (finalize_holds _ _ _ t2 _ Hw2) as [Hf2 Hw3].
  rewrite (bind_Normal _ _ _ _ _ Hf2).
  by rewrite (bind_Normal _ _ _ _ _ (get_session_Some _ _ _ (proj1 Hw3))).
Qed.

(** Counterexample. A session finalized in the morning and again in the
    evening: the second call does not raise, and [end_time] is the evening,
    not the morning. *)
Lemma finalize_twice_not_rejected :
  (finalize_twice "http://target" None morning morning [] morning evening
     empty_world).1 = Normal (Some evening) ∧
  (∀ e, (finalize_twice "http://target" None morning morning [] morning evening
           empty_world).1 ≠ Raised e) ∧
  Some evening ≠ Some morning.
Proof.
  assert (H : (finalize_twice "http://target" None morning morning [] morning
                 evening empty_world).1 = Normal (Some evening))
    by (vm_compute; reflexivity).
  split; [exact H|]. split; [intros e; rewrite H; discriminate|discriminate].
Qed.

(** C5 (as the code has it). [add_results] on a finalized session is not
    rejected: whatever list is handed over, it completes normally and
    changes the results and the summary exactly as on a session that is not
    finalized, and [end_time] stays set to the time of [finalize]. When the
    session's own [results] is never handed over, before or after
    [finalize], the results are extended with the batch and the summary
    stays the one recomputed from the results. *)
Theorem add_results_after_finalize_appends
    (w : world) (target : string) (scan : option string)
    (now_id now_start : datetime) (calls : list handed)
    (t : datetime) (batch : handed) :
  Forall (known w) (calls ++ [batch]) →
  ∃ held,
    (add_results_after_finalize target scan now_id now_start calls t batch w).1
      = Normal (Some t, held) ∧
    (contents_after_calls target scan now_id now_start (calls ++ [batch]) w).1
      = Normal held ∧
    (Forall (foreign w) (calls ++ [batch]) →
       held = (concat (batches w calls) ++ handed_over w [] batch,
               recomputed_summary
                 (concat (batches w calls) ++ handed_over w [] batch))).
Proof.
  intros Hk. pose proof Hk as [Hcalls Hbatch]%Forall_app.
  rewrite Forall_singleton in Hbatch.
  destruct (session_after_calls_steps target scan now_id now_start calls w Hcalls)
    as (self & r & d & w1 & Hrun & Hw1 & _ & Hr0 & Hframe).
  cbv zeta in *. unfold add_results_after_finalize.
  rewrite (bind_Normal _ _ _ _ _ Hrun).
  destruct (finalize_tracks _ _ _ _ t _ Hw1) as [Hfin Hw2].
  rewrite (bind_Normal _ _ _ _ _ Hfin).
  destruct (after_calls w calls) as [rs counted] eqn:Hafter.
  cbn [fst snd] in *.
  destruct (hand_over_tracks self _ rs counted batch w _ Hw2 Hr0 Hframe Hbatch)
    as (w3 & Hadd & Hw3 & _).
  rewrite (bind_Normal _ _ _ _ _ Hadd).
  rewrite (bind_Normal _ _ _ _ _ (get_session_Some _ _ _ (proj1 Hw3))).
  rewrite (bind_Normal _ _ _ _ _ (read_session_tracks _ _ _ _ _ Hw3)).
  eexists. split; [reflexivity|]. split.
  - rewrite (contents_after_calls_steps _ _ _ _ _ _ Hk).
    by rewrite after_calls_snoc, Hafter.
  - intros [Hfc Hfb]%Forall_app. rewrite Forall_singleton in Hfb.
    rewrite (after_calls_foreign _ _ Hfc) in Hafter.
    injection Hafter as <- <-.
    by rewrite (after_call_foreign _ _ _ Hfb).
Qed.

(** A list of the caller before [finalize], the list of the store after
    it. *)
Lemma add_results_after_finalize_appends_witness :
  Forall (known sample_store) ([Batch [passed_finding]] ++ [Stored 1%positive]) ∧
  Forall (foreign sample_store) ([Batch [passed_finding]] ++ [Stored 1%positive]) ∧
  (add_results_after_finalize "http://target" None morning morning
     [Batch [passed_finding]] evening (Stored 1%positive) sample_store).1
    = Normal (Some evening,
              ([passed_finding; high_finding],
               recomputed_summary [passed_finding; high_finding])).
Proof.
  assert (Hf : Forall (foreign sample_store)
                 ([Batch [passed_finding]] ++ [Stored 1%positive])).
  { repeat constructor. by exists [high_finding]. }
  assert (H : Forall (known sample_store)
                ([Batch [passed_finding]] ++ [Stored 1%positive])).
  { repeat constructor. by exists [high_finding]. }
  split; [exact H|]. split; [exact Hf|].
  destruct (add_results_after_finalize_appends sample_store "http://target" None
              morning morning [Batch [passed_finding]] evening
              (Stored 1%positive) H)
    as (held & H1 & _ & H3).
  rewrite H1, (H3 Hf). reflexivity.
Defined.

(** Counterexample. One PASSED finding appended to a finalized, empty
    session: the call does not raise, the session now holds one result, and
    [total_tests] and [passed] went from 0 to 1. *)
Lemma add_results_after_finalize_not_rejected :
  match (add_results_after_finalize "http://target" None morning morning []
           evening (Batch [passed_finding]) empty_world).1 with
  | Normal (e, (rs, d)) =>
      e = Some evening ∧
      map (λ r : finding, r !! "status") rs = [Some "PASSED"] ∧
      d !! "total_tests" = Some 1%Z ∧ d !! "passed" = Some 1%Z
  | Raised _ => False
  end.
Proof. vm_compute. repeat split; reflexivity. Qed.

(** ** [to_dict] *)

Lemma to_dict_steps self s w :
  sessions w !! self = Some s →
  to_dict self w
  = (Normal (SessionDict (scan_id s) (target_url s) (isoformat (start_time s))
               (isoformat <$> end_time s)
               match end_time s with
               | Some e => Seconds_between (start_time s) e
               | None => In_progress
               end (summary s) (results s)), w).
Proof.
  intros Hs. unfold to_dict, get_duration.
  rewrite (bind_Normal _ _ _ _ _ (get_session_Some _ _ _ Hs)).
  rewrite (bind_Normal _ _ _ _ _
             (bind_Normal _ _ _ _ _ (get_session_Some _ _ _ Hs))).
  reflexivity.
Qed.

Lemma read_dict_steps d rs sm w :
  lists w !! d_results d = Some rs →
  dicts w !! d_summary d = Some sm →
  read_dict d w
  = (Normal (SessionData (d_scan_id d) (d_target_url d) (d_start_time d)
               (d_end_time d) (d_duration d) sm rs), w).
Proof. intros Hr Hd. unfold read_dict. by rewrite Hd, Hr. Qed.

Lemma from_option_finalized_refs fin s :
  results (from_option finalized id fin s) = results s ∧
  summary (from_option finalized id fin s) = summary s.
Proof. by destruct fin. Qed.

(** C6 (as the code has it). The dictionary returned by [to_dict] carries
    its own copy of [scan_id], [target_url], [start_time], [end_time] and
    [duration], which later [add_results] and [finalize] calls do not
    change; its [summary] and [results] entries are the session's own
    dictionary and list, not copies, so that after later [add_results] calls
    the dictionary issued earlier shows the results and the summary the
    session has now. *)
Theorem to_dict_shares_summary_and_results
    (w : world) (target : string) (scan : option string)
    (now_id now_start : datetime) (calls : list (list finding))
    (fin0 : option datetime) (later : list (list finding))
    (fin1 : option datetime) :
  let rs := concat calls in
  let rs' := concat calls ++ concat later in
  ∃ sid : string,
    (to_dict_then_mutate target scan now_id now_start calls fin0 later fin1 w).1
    = Normal
        (SessionData sid target (isoformat now_start) (isoformat <$> fin0)
           (from_option (Seconds_between now_start) In_progress fin0)
           (recomputed_summary rs) rs,
         SessionData sid target (isoformat now_start) (isoformat <$> fin0)
           (from_option (Seconds_between now_start) In_progress fin0)
           (recomputed_summary rs') rs').
Proof.
  intros rs rs'.
  destruct (session_after_steps target scan now_id now_start calls w)
    as (self & r & d & w1 & Hrun & Hw1 & _).
  cbv zeta in *. set (s := Session _ _ _ _ _ _) in *.
  exists (scan_id s). unfold to_dict_then_mutate.
  rewrite (bind_Normal _ _ _ _ _ Hrun).
  destruct (finalize_if_holds _ _ _ fin0 _ Hw1) as (w2 & Hf0 & Hw2 & _).
  rewrite (bind_Normal _ _ _ _ _ Hf0).
  set (s0 := from_option finalized id fin0 s) in *.
  rewrite (bind_Normal _ _ _ _ _ (to_dict_steps _ _ _ (proj1 Hw2))).
  set (dict := SessionDict _ _ _ _ _ _ _).
  destruct Hw2 as (Hs2 & Hr2 & Hd2).
  rewrite (bind_Normal _ _ _ _ _ (read_dict_steps dict _ _ w2 Hr2 Hd2)).
  destruct (for_each_add_results_holds self s0 later rs w2 (conj Hs2 (conj Hr2 Hd2)))
    as (w3 & Hlater & Hw3 & _).
  rewrite (bind_Normal _ _ _ _ _ Hlater).
  destruct (finalize_if_holds _ _ _ fin1 _ Hw3) as (w4 & Hf1 & _ & Hl4 & Hd4).
  rewrite (bind_Normal _ _ _ _ _ Hf1).
  destruct Hw3 as (_ & Hr3 & Hd3). rewrite <- Hl4 in Hr3. rewrite <- Hd4 in Hd3.
  rewrite (bind_Normal _ _ _ _ _ (read_dict_steps dict _ _ w4 Hr3 Hd3)).
  unfold ret, dict, s0. cbn [fst].
  destruct fin0; reflexivity.
Qed.

(** Counterexample. A dictionary taken from an empty session, then one
    PASSED finding appended to the session: read through the dictionary
    issued before the call, [results] went from empty to one finding and
    [total_tests] from 0 to 1. *)
Lemma to_dict_not_a_copy :
  match (to_dict_then_mutate "http://target" None morning morning [] None
           [[passed_finding]] None empty_world).1 with
  | Normal (before, after) =>
      length (v_results before) = 0%nat ∧
      length (v_results after) = 1%nat ∧
      v_summary before !! "total_tests" = Some 0%Z ∧
      v_summary after !! "total_tests" = Some 1%Z ∧
      v_results before ≠ v_results after ∧
      v_summary before ≠ v_summary after
  | Raised _ => False
  end.
Proof.
  assert (H : ∃ before after,
    (to_dict_then_mutate "http://target" None morning morning [] None
       [[passed_finding]] None empty_world).1 = Normal (before, after) ∧
    length (v_results before) = 0%nat ∧
    length (v_results after) = 1%nat ∧
    v_summary before !! "total_tests" = Some 0%Z ∧
    v_summary after !! "total_tests" = Some 1%Z).
  { eexists _, _. split; [reflexivity|]. vm_compute. repeat split; reflexivity. }
  destruct H as (before & after & -> & Hb & Ha & Hsb & Hsa).
  repeat split; [exact Hb|exact Ha|exact Hsb|exact Hsa|..].
  - intros Heq. rewrite Heq in Hb. congruence.
  - intros Heq. rewrite Heq in Hsb. congruence.
Qed.

(** ** [run_scan] *)







(** ** [scan_id] *)

Lemma two_sessions_steps target target' ta ta_start tb tb_start w :
  (two_sessions target target' ta ta_start tb tb_start w).1
  = Normal (strftime_Ymd_HMS ta, strftime_Ymd_HMS tb).
Proof.
  destruct (ScanSession_init_steps target None ta ta_start w)
    as (a & ra & da & w1 & Ha & Hw1 & _).
  destruct (ScanSession_init_steps target' None tb tb_start w1)
    as (b & rb & db & w2 & Hb & Hw2 & _ & Hs2 & Hfresh).
  cbv zeta in *. unfold two_sessions.
  rewrite (bind_Normal _ _ _ _ _ Ha), (bind_Normal _ _ _ _ _ Hb).
  assert (Hab : b ≠ a).
  { intros ->. destruct Hw1 as [Hs1 _]. congruence. }
  assert (Ha2 : sessions w2 !! a = Some (Session target (strftime_Ymd_HMS ta) ta_start None ra da)).
  { rewrite Hs2, lookup_insert_ne by done. apply Hw1. }
  rewrite (bind_Normal _ _ _ _ _ (get_session_Some _ _ _ Ha2)).
  by rewrite (bind_Normal _ _ _ _ _ (get_session_Some _ _ _ (proj1 Hw2))).
Qed.

(** C9 (as the code has it). A session created without a [scan_id] gets the
    creation time printed as [%Y%m%d_%H%M%S]. Two such sessions have the same
    [scan_id] exactly when they were created within the same second, so that
    sessions created in different seconds have distinct identifiers. *)
Theorem scan_id_distinct_across_seconds
    (w : world) (target target' : string) (ta ta_start tb tb_start : datetime) :
  datetime_valid ta → datetime_valid tb →
  ∃ ida idb : string,
    (two_sessions target target' ta ta_start tb tb_start w).1
      = Normal (ida, idb) ∧
    ida = strftime_Ymd_HMS ta ∧ idb = strftime_Ymd_HMS tb ∧
    (ida = idb ↔ to_the_second ta = to_the_second tb).
Proof.
  intros Hta Htb. eexists _, _. split; [apply two_sessions_steps|].
  split; [reflexivity|]. split; [reflexivity|].
  by apply strftime_Ymd_HMS_eq.
Qed.

Lemma morning_valid : datetime_valid morning.
Proof. unfold datetime_valid, morning; cbn. lia. Defined.

Lemma evening_valid : datetime_valid evening.
Proof. unfold datetime_valid, evening; cbn. lia. Defined.

(** A session created in the morning and one created in the evening. *)
Lemma scan_id_distinct_across_seconds_witness :
  datetime_valid morning ∧ datetime_valid evening ∧
  ∃ ida idb : string,
    (two_sessions "http://a" "http://b" morning morning evening evening
       empty_world).1 = Normal (ida, idb) ∧
    ida = strftime_Ymd_HMS morning ∧ idb = strftime_Ymd_HMS evening ∧
    (ida = idb ↔ to_the_second morning = to_the_second evening).
Proof.
  split; [exact morning_valid|]. split; [exact evening_valid|].
  exact (scan_id_distinct_across_seconds empty_world "http://a" "http://b"
           morning morning evening evening morning_valid evening_valid).
Defined.

(** Counterexample. Two sessions created within the same second,
    740 milliseconds apart, get the same [scan_id]. *)
Lemma scan_id_not_unique :
  morning ≠ same_second ∧
  (two_sessions "http://a" "http://b" morning morning same_second same_second
     empty_world).1 = Normal ("20240102_093015", "20240102_093015").
Proof. split; [discriminate|vm_compute; reflexivity]. Qed.

(** * More properties *)

(** ** [truncate_text] *)

Lemma length_str_take n s :
  String.length (str_take n s) = Nat.min n (String.length s).
Proof.
  revert s. induction n as [|n IH]; intros [|c s]; simpl; try reflexivity.
  by rewrite IH.
Qed.

Lemma length_string_app s t :
  String.length (s +:+ t) = (String.length s + String.length t)%nat.
Proof. induction s as [|c s IH]; simpl; [reflexivity|by rewrite IH]. Qed.

Lemma str_take_all n s : (String.length s <= n)%nat → str_take n s = s.
Proof.
  revert s. induction n as [|n IH]; intros [|c s]; simpl; intros H;
    try reflexivity; [lia|]. rewrite IH; [reflexivity|lia].
Qed.


Lemma str_take_app_exact n s t :
  String.length s = n → str_take n (s +:+ t) = s.
Proof.
  revert n. induction s as [|c s IH]; intros n <-; simpl.
  - by destruct t.
  - by rewrite IH.
Qed.

(** For a limit of at least 3 the result fits the limit: it has
    [min(len(text), max_length)] characters; a text within the limit comes
    back as it is; a longer one keeps its first [max_length - 3] characters
    and ends with three dots; and truncating a second time changes nothing. *)
Theorem truncate_text_fits (text : string) (max_length : Z) :
  (3 <= max_length)%Z →
  Z.of_nat (String.length (truncate_text text max_length))
    = Z.min (Z.of_nat (String.length text)) max_length ∧
  truncate_text text max_length
    = (if (Z.of_nat (String.length text) <=? max_length)%Z then text
       else str_take (Z.to_nat (max_length - 3)) text +:+ "...") ∧
  str_take (Z.to_nat (max_length - 3)) (truncate_text text max_length)
    = str_take (Z.to_nat (max_length - 3)) text ∧
  truncate_text (truncate_text text max_length) max_length
    = truncate_text text max_length.
Proof.
  intros Hmax.
  assert (Heq : truncate_text text max_length
    = (if (Z.of_nat (String.length text) <=? max_length)%Z then text
       else str_take (Z.to_nat (max_length - 3)) text +:+ "...")).
  { unfold truncate_text, slice_to.
    by destruct (Z.leb_spec 0 (max_length - 3)); [|lia]. }
  assert (Hlen : Z.of_nat (String.length (truncate_text text max_length))
                 = Z.min (Z.of_nat (String.length text)) max_length).
  { rewrite Heq.
    destruct (Z.leb_spec (Z.of_nat (String.length text)) max_length); [lia|].
    rewrite length_string_app, length_str_take. simpl. lia. }
  split; [exact Hlen|]. split; [exact Heq|]. split.
  - rewrite Heq.
    destruct (Z.leb_spec (Z.of_nat (String.length text)) max_length);
      [reflexivity|].
    rewrite str_take_app_exact; [reflexivity|].
    rewrite length_str_take. lia.
  - unfold truncate_text at 1.
    destruct (Z.leb_spec (Z.of_nat (String.length (truncate_text text max_length)))
                max_length); [reflexivity|lia].
Qed.

(** A text of ten characters cut to eight. *)
Lemma truncate_text_fits_witness :
  (3 <= 8)%Z ∧
  Z.of_nat (String.length (truncate_text "abcdefghij" 8))
    = Z.min (Z.of_nat (String.length "abcdefghij")) 8 ∧
  truncate_text "abcdefghij" 8 = "abcde...".
Proof.
  assert (H : (3 <= 8)%Z) by lia.
  split; [exact H|]. split; [|reflexivity].
  exact (proj1 (truncate_text_fits "abcdefghij" 8 H)).
Defined.

(** Below a limit of 3 a text longer than the limit is never brought within
    the limit: the slice [text[:max_length - 3]] then counts from the end,
    and the result has [max(0, len(text) + max_length - 3) + 3] characters,
    more than [max_length]; for a limit of 1 or 2 it is longer than the text
    itself. *)
Theorem truncate_text_small_limit (text : string) (max_length : Z) :
  (max_length < 3)%Z →
  (max_length < Z.of_nat (String.length text))%Z →
  Z.of_nat (String.length (truncate_text text max_length))
    = (Z.max 0 (Z.of_nat (String.length text) + max_length - 3) + 3)%Z ∧
  (max_length < Z.of_nat (String.length (truncate_text text max_length)))%Z ∧
  ((1 <= max_length)%Z →
     (Z.of_nat (String.length text)
        < Z.of_nat (String.length (truncate_text text max_length)))%Z).
Proof.
  intros Hmax Hlen.
  assert (H : Z.of_nat (String.length (truncate_text text max_length))
              = (Z.max 0 (Z.of_nat (String.length text) + max_length - 3) + 3)%Z).
  { unfold truncate_text, slice_to.
    destruct (Z.leb_spec (Z.of_nat (String.length text)) max_length); [lia|].
    destruct (Z.leb_spec 0 (max_length - 3)); [lia|].
    rewrite length_string_app, length_str_take. simpl. lia. }
  split; [exact H|]. rewrite H. split; [lia|]. intros H1. lia.
Qed.

(** Ten characters and a limit of 2: twelve characters come back. *)
Lemma truncate_text_small_limit_witness :
  (2 < 3)%Z ∧ (2 < Z.of_nat (String.length "abcdefghij"))%Z ∧ (1 <= 2)%Z ∧
  truncate_text "abcdefghij" 2 = "abcdefghi..." ∧
  (2 < Z.of_nat (String.length (truncate_text "abcdefghij" 2)))%Z ∧
  (Z.of_nat (String.length "abcdefghij")
     < Z.of_nat (String.length (truncate_text "abcdefghij" 2)))%Z.
Proof.
  assert (H1 : (2 < 3)%Z) by lia.
  assert (H2 : (2 < Z.of_nat (String.length "abcdefghij"))%Z) by (simpl; lia).
  assert (H3 : (1 <= 2)%Z) by lia.
  split; [exact H1|]. split; [exact H2|]. split; [exact H3|].
  split; [reflexivity|]. split.
  - exact (proj1 (proj2 (truncate_text_small_limit "abcdefghij" 2 H1 H2))).
  - exact (proj2 (proj2 (truncate_text_small_limit "abcdefghij" 2 H1 H2)) H3).
Defined.

(** ** [group_results_by_severity] *)

Lemma group_fold_lookup (k : string) (results : list finding) :
  ∀ grouped : gmap string (list finding),
    fold_left (λ (grouped : gmap string (list finding)) result,
        let severity := severity_or_info result in
        match grouped !! severity with
        | Some group => <[severity := group ++ [result]]> grouped
        | None => grouped
        end) results grouped !! k
    = (λ group, group ++ filter (λ r, severity_or_info r = k) results)
        <$> grouped !! k.
Proof.
  induction results as [|r results IH]; intros grouped.
  - simpl. destruct (grouped !! k) as [group|]; simpl; [|reflexivity].
    by rewrite app_nil_r.
  - cbn [fold_left]. rewrite IH. cbv zeta. rewrite filter_cons.
    destruct (grouped !! severity_or_info r) as [group|] eqn:Hsev.
    + destruct (decide (severity_or_info r = k)) as [<-|Hne].
      * rewrite lookup_insert_eq, Hsev. simpl. by rewrite <- app_assoc.
      * by rewrite lookup_insert_ne.
    + destruct (decide (severity_or_info r = k)) as [<-|Hne]; [|reflexivity].
      by rewrite Hsev.
Qed.

Lemma group_lookup (results : list finding) (k : string) :
  group_results_by_severity results !! k
  = if decide (k ∈ severities)
    then Some (filter (λ r, severity_or_info r = k) results)
    else None.
Proof.
  unfold group_results_by_severity. cbv zeta. rewrite group_fold_lookup.
  unfold severities. cbn [list_to_map foldr fst snd].
  destruct (decide (k ∈ ["CRITICAL"; "HIGH"; "MEDIUM"; "LOW"; "INFO"])) as [Hk|Hk].
  - rewrite !elem_of_cons in Hk.
    destruct Hk as [->|[->|[->|[->|[->|Hk]]]]]; [..|by apply elem_of_nil in Hk];
      rewrite ?lookup_insert_ne by discriminate; by rewrite lookup_insert_eq.
  - rewrite !not_elem_of_cons in Hk. destruct Hk as (?&?&?&?&?&_).
    rewrite !lookup_insert_ne by done. by rewrite lookup_empty.
Qed.

(** The result has exactly the five keys CRITICAL, HIGH, MEDIUM, LOW and
    INFO, and the group of each key is the list of the results whose
    severity is that key, in the order of the input; a result without a
    [severity] entry goes to INFO. Severities are compared as they are
    written, so a result of any other severity (also one written in lower
    case) is in no group. *)
Theorem group_results_by_severity_groups (results : list finding) :
  dom (group_results_by_severity results) = list_to_set severities ∧
  ∀ k : string,
    group_results_by_severity results !! k
    = if decide (k ∈ severities)
      then Some (filter (λ r, severity_or_info r = k) results)
      else None.
Proof.
  split; [|apply group_lookup].
  apply set_eq. intros k. rewrite elem_of_dom, elem_of_list_to_set.
  rewrite group_lookup. destruct (decide (k ∈ severities)) as [Hk|Hk].
  - split; [done|]. intros _. by eexists.
  - split; [|done]. by intros [x Hx].
Qed.


Lemma length_filter_cons_dec (P : finding → Prop) `{∀ r, Decision (P r)} r rs :
  length (filter P (r :: rs))
  = ((if decide (P r) then 1 else 0) + length (filter P rs))%nat.
Proof. rewrite filter_cons. by destruct (decide (P r)). Qed.

(** No result is put in two groups and only the results of an unknown
    severity are left out: the sizes of the five groups add up to the number
    of results whose severity is one of the five keys. *)
Theorem group_results_by_severity_sizes (results : list finding) :
  group_sizes results
  = length (filter (λ r, severity_or_info r ∈ severities) results).
Proof.
  unfold group_sizes, severities. cbn [foldr].
  rewrite !group_lookup.
  repeat (rewrite decide_True
            by (unfold severities; rewrite !elem_of_cons; tauto)).
  cbn [from_option]. unfold id.
  induction results as [|r rs IH]; [reflexivity|].
  rewrite !length_filter_cons_dec, <- IH. clear IH.
  destruct (decide (severity_or_info r = "CRITICAL")) as [Hc|Hc];
    [|destruct (decide (severity_or_info r = "HIGH")) as [Hh|Hh];
      [|destruct (decide (severity_or_info r = "MEDIUM")) as [Hm|Hm];
        [|destruct (decide (severity_or_info r = "LOW")) as [Hl|Hl];
          [|destruct (decide (severity_or_info r = "INFO")) as [Hi|Hi]]]]];
    try (rewrite (decide_True (P := _ ∈ _))
           by (rewrite !elem_of_cons; tauto));
    try (rewrite (decide_False (P := _ ∈ _))
           by (rewrite !not_elem_of_cons; repeat split; try done;
               apply not_elem_of_nil));
    repeat (rewrite (decide_False (P := severity_or_info r = _))
              by (first [rewrite Hc | rewrite Hh | rewrite Hm | rewrite Hl
                        | rewrite Hi]; discriminate));
    lia.
Qed.

(** ** [is_internal_ip] *)

Lemma is_internal_ip_octets_table (rest : string) :
  forallb (λ a,
    forallb (λ b,
      Bool.eqb (is_internal_ip (dotted a b rest)) (private_range a b))
      (seq 0 256))
    (seq 0 256) = true.
Proof. vm_compute. reflexivity. Qed.

(** On a dotted address whose first two octets are [a] and [b], written in
    decimal without leading zeros, the answer depends on these two octets
    only, whatever follows: it is [True] exactly for 127.x, 10.x,
    172.16.x to 172.31.x and 192.168.x. *)
Theorem is_internal_ip_dotted (a b : nat) (rest : string) :
  (a < 256)%nat → (b < 256)%nat →
  is_internal_ip (dotted a b rest) = private_range a b.
Proof.
  intros Ha Hb.
  pose proof (is_internal_ip_octets_table rest) as H.
  rewrite forallb_forall in H.
  specialize (H a (proj2 (in_seq 256 0 a) (conj (Nat.le_0_l a) Ha))).
  rewrite forallb_forall in H.
  specialize (H b (proj2 (in_seq 256 0 b) (conj (Nat.le_0_l b) Hb))).
  by apply Bool.eqb_prop in H.
Qed.

(** 172.31.255.254 is internal, 172.32.0.1 is not. *)
Lemma is_internal_ip_dotted_witness :
  (172 < 256)%nat ∧ (31 < 256)%nat ∧ (32 < 256)%nat ∧
  dotted 172 31 "255.254" = "172.31.255.254" ∧
  is_internal_ip (dotted 172 31 "255.254") = true ∧
  is_internal_ip (dotted 172 32 "0.1") = false.
Proof.
  assert (H172 : (172 < 256)%nat) by lia.
  assert (H31 : (31 < 256)%nat) by lia.
  assert (H32 : (32 < 256)%nat) by lia.
  split; [exact H172|]. split; [exact H31|]. split; [exact H32|].
  split; [reflexivity|]. split.
  - exact (is_internal_ip_dotted 172 31 "255.254" H172 H31).
  - exact (is_internal_ip_dotted 172 32 "0.1" H172 H32).
Defined.

(** A text that starts with [localhost] or with [::1] is internal only when
    nothing follows, or a single newline (which [$] lets through): a longer
    host name such as one with a domain after [localhost] is not. *)
Theorem is_internal_ip_names (rest : string) :
  (is_internal_ip ("localhost" +:+ rest) = true ↔ rest = "" ∨ rest = String "010" "") ∧
  (is_internal_ip ("::1" +:+ rest) = true ↔ rest = "" ∨ rest = String "010" "").
Proof.
  split.
  - destruct rest as [|c [|c' rest]]; [vm_compute; tauto| |].
    + destruct c as [[] [] [] [] [] [] [] []];
        (split;
         [vm_compute; intros H; first [discriminate H | by right]
         |intros [H|H];
          [discriminate H | first [discriminate H | vm_compute; reflexivity]]]).
    + split; [|intros [H|H]; discriminate].
      vm_compute. discriminate.
  - destruct rest as [|c [|c' rest]]; [vm_compute; tauto| |].
    + destruct c as [[] [] [] [] [] [] [] []];
        (split;
         [vm_compute; intros H; first [discriminate H | by right]
         |intros [H|H];
          [discriminate H | first [discriminate H | vm_compute; reflexivity]]]).
    + split; [|intros [H|H]; discriminate].
      vm_compute. discriminate.
Qed.

Lemma is_internal_ip_names_witness :
  is_internal_ip "localhost" = true ∧
  ¬ is_internal_ip "localhost.example.com" = true.
Proof.
  split.
  - apply (proj2 (proj1 (is_internal_ip_names ""))). by left.
  - intros H.
    apply (proj1 (proj1 (is_internal_ip_names ".example.com"))) in H.
    destruct H as [H|H]; discriminate H.
Defined.

(** ** Risk score and level, continued *)

(** Only the entries [critical], [high], [medium] and [low] enter the
    score: setting or removing any other entry of the summary ([info],
    [passed], [total_tests], ...) leaves the score as it is. *)
Theorem risk_score_ignores_other_keys
    (summary : gmap string Z) (k : string) (v : Z) :
  k ∉ ["critical"; "high"; "medium"; "low"] →
  helpers.calculate_risk_score (<[k := v]> summary)
    = helpers.calculate_risk_score summary ∧
  helpers.calculate_risk_score (delete k summary)
    = helpers.calculate_risk_score summary.
Proof.
  intros Hk. rewrite !not_elem_of_cons in Hk. destruct Hk as (?&?&?&?&_).
  rewrite !calculate_risk_score_eq.
  rewrite !lookup_insert_ne, !lookup_delete_ne by done. done.
Qed.

(** The count of passed tests does not move the score. *)
Lemma risk_score_ignores_other_keys_witness :
  ("passed" ∉ ["critical"; "high"; "medium"; "low"]) ∧
  helpers.calculate_risk_score (<["passed" := 40%Z]> {[ "high" := 2%Z ]})
    = helpers.calculate_risk_score {[ "high" := 2%Z ]}.
Proof.
  assert (H : "passed" ∉ ["critical"; "high"; "medium"; "low"]).
  { rewrite !not_elem_of_cons. repeat split; try discriminate.
    apply not_elem_of_nil. }
  split; [exact H|].
  exact (proj1 (risk_score_ignores_other_keys {[ "high" := 2%Z ]} "passed" 40 H)).
Defined.

(** The score has no lower cap of its own: it is at least 0 when none of the
    four counts is negative (and then lies between 0 and 100), and it is
    negative as soon as the weighted sum is. *)
Theorem risk_score_lower_bound (summary : gmap string Z) :
  let get k := default 0%Z (summary !! k) in
  ((0 <= get "critical")%Z → (0 <= get "high")%Z →
   (0 <= get "medium")%Z → (0 <= get "low")%Z →
   (0 <= helpers.calculate_risk_score summary <= 100)%Z) ∧
  ((get "critical" * 25 + get "high" * 15 + get "medium" * 8 + get "low" * 3 < 0)%Z →
   (helpers.calculate_risk_score summary < 0)%Z).
Proof.
  cbv zeta. rewrite calculate_risk_score_eq. split; intros; lia.
Qed.

(** Two high findings: 30; one critical finding taken back: -25. *)
Lemma risk_score_lower_bound_witness :
  (0 <= helpers.calculate_risk_score {[ "high" := 2%Z ]} <= 100)%Z ∧
  (helpers.calculate_risk_score {[ "critical" := (-1)%Z ]} < 0)%Z.
Proof.
  split.
  - apply (proj1 (risk_score_lower_bound {[ "high" := 2%Z ]}));
      vm_compute; discriminate.
  - apply (proj2 (risk_score_lower_bound {[ "critical" := (-1)%Z ]})).
    vm_compute. reflexivity.
Defined.

(** A higher score never gives a lower level. *)
Theorem risk_level_monotone (score score' : Z) :
  (score <= score')%Z →
  (level_rank (helpers.get_risk_level score)
   <= level_rank (helpers.get_risk_level score'))%nat.
Proof.
  intros H. unfold helpers.get_risk_level.
  repeat (match goal with
          | |- context [(?a <=? ?b)%Z] => destruct (Z.leb_spec a b); try lia
          end); vm_compute; lia.
Qed.

(** From 40 (MEDIUM) to 55 (HIGH). *)
Lemma risk_level_monotone_witness :
  (40 <= 55)%Z ∧
  (level_rank (helpers.get_risk_level 40)
   <= level_rank (helpers.get_risk_level 55))%nat.
Proof.
  assert (H : (40 <= 55)%Z) by lia.
  split; [exact H|]. exact (risk_level_monotone 40 55 H).
Defined.

Lemma risk_score_of_recomputed_summary rs :
  helpers.calculate_risk_score (recomputed_summary rs)
  = Z.min (weighted_findings rs) 100.
Proof.
  rewrite calculate_risk_score_eq. unfold recomputed_summary.
  rewrite lookup_critical, lookup_high, lookup_medium, lookup_low.
  reflexivity.
Qed.

Lemma weighted_findings_app rs rs' :
  weighted_findings (rs ++ rs') = (weighted_findings rs + weighted_findings rs')%Z.
Proof. unfold weighted_findings. rewrite !count_app. lia. Qed.

Lemma weighted_findings_nonneg rs : (0 <= weighted_findings rs)%Z.
Proof.
  unfold weighted_findings.
  pose proof (count_nonneg (has_severity "CRITICAL") rs).
  pose proof (count_nonneg (has_severity "HIGH") rs).
  pose proof (count_nonneg (has_severity "MEDIUM") rs).
  pose proof (count_nonneg (has_severity "LOW") rs).
  lia.
Qed.

Lemma risk_level_after_steps target scan now_id now_start calls w :
  Forall (known w) calls →
  (risk_level_after target scan now_id now_start calls w).1
  = Normal (Z.min (weighted_findings (after_calls w calls).2) 100,
            helpers.get_risk_level
              (Z.min (weighted_findings (after_calls w calls).2) 100)).
Proof.
  intros Hk. unfold risk_level_after, bind.
  pose proof (contents_after_calls_steps target scan now_id now_start calls w Hk)
    as H.
  destruct (contents_after_calls target scan now_id now_start calls w)
    as [[held|e] w']; cbn [fst] in H; [|discriminate].
  injection H as ->. cbn [fst snd ret].
  by rewrite risk_score_of_recomputed_summary.
Qed.

(** Whatever lists are handed to [add_results], the session's own list
    included, the score of a session is between 0 and 100 and further calls
    never lower its score or its level. When the session's own list is never
    handed over, the score is the weighted sum of the numbers of vulnerable
    findings of severity CRITICAL, HIGH, MEDIUM and LOW among its results,
    capped at 100. *)
Theorem session_risk_never_decreases
    (w : world) (target : string) (scan : option string)
    (now_id now_start : datetime) (calls more : list handed) :
  Forall (known w) (calls ++ more) →
  ∃ score level score' level',
    (risk_level_after target scan now_id now_start calls w).1
      = Normal (score, level) ∧
    (risk_level_after target scan now_id now_start (calls ++ more) w).1
      = Normal (score', level') ∧
    (Forall (foreign w) calls →
       score = Z.min (weighted_findings (concat (batches w calls))) 100) ∧
    (0 <= score <= score')%Z ∧ (score' <= 100)%Z ∧
    (level_rank level <= level_rank level')%nat.
Proof.
  intros Hk. pose proof Hk as [Hcalls _]%Forall_app.
  eexists _, _, _, _.
  split; [by apply risk_level_after_steps|].
  split; [by apply risk_level_after_steps|].
  split; [intros Hf; by rewrite (after_calls_foreign _ _ Hf)|].
  assert (Hmore : after_calls w (calls ++ more)
                  = fold_left (after_call w) more (after_calls w calls))
    by (unfold after_calls; by rewrite fold_left_app).
  rewrite Hmore.
  destruct (fold_after_call_counted w more (after_calls w calls)) as [extra ->].
  rewrite weighted_findings_app.
  pose proof (weighted_findings_nonneg (after_calls w calls).2).
  pose proof (weighted_findings_nonneg extra).
  split; [lia|]. split; [lia|].
  unfold helpers.get_risk_level.
  repeat (match goal with
          | |- context [(?a <=? ?b)%Z] => destruct (Z.leb_spec a b); try lia
          end); vm_compute; lia.
Qed.

(** One HIGH finding, then the session's own list: the score goes from 15
    to 45, the level from LOW to MEDIUM. *)
Lemma session_risk_never_decreases_witness :
  Forall (known empty_world) ([Batch [high_finding]] ++ [Own_results]) ∧
  Forall (foreign empty_world) [Batch [high_finding]] ∧
  (risk_level_after "http://target" None morning morning
     [Batch [high_finding]] empty_world).1 = Normal (15%Z, "LOW") ∧
  (risk_level_after "http://target" None morning morning
     ([Batch [high_finding]] ++ [Own_results]) empty_world).1
    = Normal (45%Z, "MEDIUM").
Proof.
  assert (H : Forall (known empty_world)
                ([Batch [high_finding]] ++ [Own_results]))
    by (repeat constructor).
  assert (Hf : Forall (foreign empty_world) [Batch [high_finding]])
    by (repeat constructor).
  split; [exact H|]. split; [exact Hf|].
  destruct (session_risk_never_decreases empty_world "http://target" None
              morning morning [Batch [high_finding]] [Own_results] H)
    as (score & level & score' & level' & H1 & H2 & Hs & _).
  specialize (Hs Hf). split.
  - rewrite H1. vm_compute in H1. by injection H1 as <- <-.
  - rewrite H2. vm_compute in H2. by injection H2 as <- <-.
Defined.

(** ** How [add_results] calls compose *)

Lemma set_lists_id l rs w :
  lists w !! l = Some rs → set_lists <[l := rs]> w = w.
Proof.
  intros H. destruct w as [ss ls ds out]; unfold set_lists; simpl in *.
  by rewrite (insert_id ls l rs H).
Qed.

Lemma set_lists_twice l rs rs' w :
  set_lists <[l := rs']> (set_lists <[l := rs]> w) = set_lists <[l := rs']> w.
Proof. unfold set_lists; simpl. by rewrite insert_insert_eq. Qed.

Lemma set_lists_set_dicts l d l' rs w :
  set_lists <[l' := rs]> (set_dicts <[l := d]> w)
  = set_dicts <[l := d]> (set_lists <[l' := rs]> w).
Proof. reflexivity. Qed.

(** The store after a sequence of calls, in closed form. *)
Lemma for_each_add_results_steps self s calls : ∀ rs w,
  holds self s rs w →
  for_each calls (λ batch, add_results self (Elements batch)) w
  = (Normal tt,
     set_dicts <[summary s := recomputed_summary (rs ++ concat calls)]>
       (set_lists <[results s := rs ++ concat calls]> w)).
Proof.
  induction calls as [|batch calls IH]; intros rs w Hw.
  - simpl. rewrite app_nil_r. destruct Hw as (_ & Hr & Hd).
    unfold ret. rewrite (set_lists_id _ _ _ Hr). by rewrite (set_dicts_id _ _ _ Hd).
  - cbn [for_each concat].
    rewrite (bind_Normal _ _ _ _ _ (add_results_steps _ _ _ batch _ Hw)).
    destruct (add_results_holds self s rs batch w Hw) as (w1 & H1 & Hw1 & _).
    rewrite (add_results_steps _ _ _ batch _ Hw) in H1. injection H1 as <-.
    rewrite (IH _ _ Hw1). rewrite <- app_assoc.
    rewrite set_lists_set_dicts, set_lists_twice. by rewrite set_dicts_twice.
Qed.

Lemma session_after_concat target scan now_id now_start calls calls' w :
  concat calls = concat calls' →
  session_after target scan now_id now_start calls w
  = session_after target scan now_id now_start calls' w.
Proof.
  intros Heq.
  destruct (ScanSession_init_steps target scan now_id now_start w)
    as (self & r & d & w1 & Hinit & Hw1 & _).
  cbv zeta in *. unfold session_after.
  rewrite !(bind_Normal _ _ _ _ _ Hinit).
  rewrite !(bind_Normal _ _ _ _ _ (for_each_add_results_steps _ _ _ _ _ Hw1)).
  by rewrite Heq.
Qed.

(** Among calls that never hand over the session's own list, only the
    concatenation of the lists matters: two sequences of [add_results]
    calls that hand over the same findings in the same order, cut into lists
    in any way, empty lists included, and whether the lists are the caller's
    or lists of the store, leave the same session and the same store. *)
Theorem add_results_batching_irrelevant
    (w : world) (target : string) (scan : option string)
    (now_id now_start : datetime) (calls calls' : list handed) :
  Forall (foreign w) calls → Forall (foreign w) calls' →
  concat (batches w calls) = concat (batches w calls') →
  session_after_calls target scan now_id now_start calls w
  = session_after_calls target scan now_id now_start calls' w.
Proof.
  intros Hf Hf' Heq.
  rewrite (session_after_calls_foreign _ _ _ _ _ _ Hf).
  rewrite (session_after_calls_foreign _ _ _ _ _ _ Hf').
  by apply session_after_concat.
Qed.

(** One list of two findings, or a list of the caller and the list of the
    store around an empty one. *)
Lemma add_results_batching_irrelevant_witness :
  session_after_calls "http://target" None morning morning
    [Batch [passed_finding; high_finding]] sample_store
  = session_after_calls "http://target" None morning morning
      [Batch [passed_finding]; Batch []; Stored 1%positive] sample_store.
Proof.
  apply (add_results_batching_irrelevant sample_store "http://target" None
           morning morning [Batch [passed_finding; high_finding]]
           [Batch [passed_finding]; Batch []; Stored 1%positive]).
  - repeat constructor.
  - repeat constructor. by exists [high_finding].
  - reflexivity.
Defined.

(** Handing a session its own [results] appends the list to itself and
    counts the doubled list: after [session.add_results(session.results)] on
    a session that holds [rs], the session holds [rs ++ rs], and the summary
    has counted [rs ++ rs] on top of what it had counted, so [total_tests]
    has grown by twice the length of [rs] while the results have grown by
    that length once. *)
Theorem add_results_own_results_doubles
    (w : world) (target : string) (scan : option string)
    (now_id now_start : datetime) (calls : list handed) :
  Forall (known w) calls →
  ∃ rs counted,
    (contents_after_calls target scan now_id now_start calls w).1
      = Normal (rs, recomputed_summary counted) ∧
    (contents_after_calls target scan now_id now_start
       (calls ++ [Own_results]) w).1
      = Normal (rs ++ rs, recomputed_summary (counted ++ rs ++ rs)) ∧
    recomputed_summary counted !! "total_tests"
      = Some (Z.of_nat (length counted)) ∧
    recomputed_summary (counted ++ rs ++ rs) !! "total_tests"
      = Some (Z.of_nat (length counted) + 2 * Z.of_nat (length rs))%Z ∧
    (Forall (foreign w) calls → counted = rs).
Proof.
  intros Hk. exists (after_calls w calls).1, (after_calls w calls).2.
  split; [by apply contents_after_calls_steps|]. split.
  - rewrite contents_after_calls_steps.
    + by rewrite after_calls_snoc.
    + apply Forall_app. split; [exact Hk|]. by repeat constructor.
  - unfold recomputed_summary. rewrite !lookup_total_tests.
    cbn [recount c_total]. split; [reflexivity|]. split.
    + f_equal. rewrite !length_app. lia.
    + intros Hf. by rewrite (after_calls_foreign _ _ Hf).
Qed.

(** Two findings, then the session's own list: four results,
    [total_tests] is 6. *)
Lemma add_results_own_results_doubles_witness :
  Forall (known empty_world) [Batch [high_finding; passed_finding]] ∧
  ∃ d,
    (contents_after_calls "http://target" None morning morning
       ([Batch [high_finding; passed_finding]] ++ [Own_results])
       empty_world).1
      = Normal ([high_finding; passed_finding; high_finding; passed_finding],
                d) ∧
    d !! "total_tests" = Some 6%Z.
Proof.
  assert (H : Forall (known empty_world) [Batch [high_finding; passed_finding]])
    by (repeat constructor).
  split; [exact H|].
  destruct (add_results_own_results_doubles empty_world "http://target" None
              morning morning [Batch [high_finding; passed_finding]] H)
    as (rs & counted & H1 & H2 & _ & Ht & Hf).
  pose proof (Hf ltac:(repeat constructor)) as ->.
  assert (Hrs : rs = [high_finding; passed_finding]).
  { rewrite (contents_after_calls_steps _ _ _ _ _ _ H) in H1.
    by injection H1 as <- _. }
  subst rs. eexists. split; [exact H2|]. exact Ht.
Defined.

(** ** The count announced by [run_scan] *)






(** ** Independent sessions *)

Lemma ScanSession_init_other target scan now_id now_start a sa ra w :
  holds a sa ra w →
  ∃ b sb w',
    ScanSession_init target scan now_id now_start w = (Normal b, w') ∧
    holds b sb [] w' ∧ holds a sa ra w' ∧
    b ≠ a ∧ results sb ≠ results sa ∧ summary sb ≠ summary sa.
Proof.
  intros (Hs & Hr & Hd).
  unfold ScanSession_init, bind, new_list, new_dict, new_session.
  cbv zeta. unfold set_sessions, set_dicts, set_lists.
  cbn [sessions lists dicts console].
  assert (Hb : fresh (dom (sessions w)) ≠ a).
  { intros Heq. pose proof (is_fresh (dom (sessions w))) as Hf.
    rewrite Heq in Hf. apply not_elem_of_dom in Hf. congruence. }
  assert (Hrb : fresh (dom (lists w)) ≠ results sa).
  { intros Heq. pose proof (is_fresh (dom (lists w))) as Hf.
    rewrite Heq in Hf. apply not_elem_of_dom in Hf. congruence. }
  assert (Hdb : fresh (dom (dicts w)) ≠ summary sa).
  { intros Heq. pose proof (is_fresh (dom (dicts w))) as Hf.
    rewrite Heq in Hf. apply not_elem_of_dom in Hf. congruence. }
  eexists _, (Session target _ now_start None (fresh (dom (lists w)))
                (fresh (dom (dicts w)))), _.
  split; [reflexivity|]. cbn [results summary].
  split; [|split; [|split; [exact Hb|split; [exact Hrb|exact Hdb]]]].
  - unfold holds. cbn [sessions lists dicts results summary].
    rewrite !lookup_insert_eq. done.
  - unfold holds. cbn [sessions lists dicts].
    rewrite !lookup_insert_ne by done. done.
Qed.

Lemma add_results_other self s rs batch o so ro w :
  holds self s rs w → holds o so ro w →
  results s ≠ results so → summary s ≠ summary so →
  ∃ w', add_results self (Elements batch) w = (Normal tt, w') ∧
        holds self s (rs ++ batch) w' ∧ holds o so ro w'.
Proof.
  intros Hw (Hso & Hro & Hdo) Hr Hd.
  destruct (add_results_holds self s rs batch w Hw) as (w' & Hadd & Hw' & Hs' & _).
  exists w'. split; [exact Hadd|]. split; [exact Hw'|].
  rewrite (add_results_steps _ _ _ batch _ Hw) in Hadd. injection Hadd as <-.
  unfold holds, set_dicts, set_lists. cbn [sessions lists dicts].
  rewrite !lookup_insert_ne by done. done.
Qed.

Lemma ScanSession_init_second target scan now_id now_start a sa ra ca w0 w :
  tracks a sa ra ca w → keeps w0 w →
  ∃ b rb db w',
    let sb := Session target
                match scan with
                | Some s => if decide (s = "") then strftime_Ymd_HMS now_id else s
                | None => strftime_Ymd_HMS now_id
                end now_start None rb db in
    ScanSession_init target scan now_id now_start w = (Normal b, w') ∧
    tracks b sb [] [] w' ∧ tracks a sa ra ca w' ∧
    rb ≠ results sa ∧ db ≠ summary sa ∧
    lists w0 !! rb = None ∧ keeps w0 w'.
Proof.
  intros (Hs & Hr & Hd) Hkeep.
  unfold ScanSession_init, bind, new_list, new_dict, new_session.
  cbv zeta. unfold set_sessions, set_dicts, set_lists.
  cbn [sessions lists dicts console].
  assert (Hfs : sessions w !! fresh (dom (sessions w)) = None)
    by apply not_elem_of_dom, is_fresh.
  assert (Hfl : lists w !! fresh (dom (lists w)) = None)
    by apply not_elem_of_dom, is_fresh.
  assert (Hfd : dicts w !! fresh (dom (dicts w)) = None)
    by apply not_elem_of_dom, is_fresh.
  eexists _, _, _, _. split; [reflexivity|].
  split; [|split; [|split; [|split; [|split]]]].
  - unfold tracks. cbn [sessions lists dicts results summary].
    rewrite !lookup_insert_eq. done.
  - unfold tracks. cbn [sessions lists dicts].
    rewrite !lookup_insert_ne by congruence. done.
  - congruence.
  - congruence.
  - destruct (lists w0 !! fresh (dom (lists w))) as [ys|] eqn:Hys; [|done].
    apply Hkeep in Hys. congruence.
  - intros l ys Hl. cbn [lists]. apply Hkeep in Hl.
    rewrite lookup_insert_ne; [done|]. congruence.
Qed.

Lemma keeps_refl w : keeps w w.
Proof. by intros l ys. Qed.

Lemma addressed_to_cons which op ops :
  addressed_to which (op :: ops)
  = (if Bool.eqb op.1 which then [op.2] else []) ++ addressed_to which ops.
Proof.
  unfold addressed_to. cbn [omap list_omap].
  by destruct (Bool.eqb op.1 which).
Qed.

Lemma Forall_addressed_to (P : handed → Prop) which ops :
  Forall (λ op : bool * handed, P op.2) ops → Forall P (addressed_to which ops).
Proof.
  induction 1 as [|op ops Hop Hops IH]; [constructor|].
  rewrite addressed_to_cons. destruct (Bool.eqb op.1 which); cbn [app]; auto.
Qed.

(** A call on one session leaves the other as it is. *)
Lemma hand_over_other self s rs counted h o so ro co w0 w :
  tracks self s rs counted w → tracks o so ro co w →
  results s ≠ results so → summary s ≠ summary so →
  lists w0 !! results s = None → keeps w0 w → known w0 h →
  ∃ w', hand_over self h w = (Normal tt, w') ∧
        tracks self s (after_call w0 (rs, counted) h).1
          (after_call w0 (rs, counted) h).2 w' ∧
        tracks o so ro co w' ∧ keeps w0 w'.
Proof.
  intros Hw (Hso & Hro & Hdo) Hr Hd Hr0 Hkeep Hk.
  destruct (hand_over_tracks self s rs counted h w0 w Hw Hr0 Hkeep Hk)
    as (w' & Hadd & Hw' & Hs' & _ & Hd' & Hl' & Hkeep').
  exists w'. split; [exact Hadd|]. split; [exact Hw'|]. split; [|exact Hkeep'].
  unfold tracks. rewrite Hs', Hd', Hl'.
  rewrite !lookup_insert_ne by done. done.
Qed.

Lemma interleaved_loop a sa b sb w0 ops : ∀ sta stb w,
  tracks a sa sta.1 sta.2 w → tracks b sb stb.1 stb.2 w →
  results sa ≠ results sb → summary sa ≠ summary sb →
  lists w0 !! results sa = None → lists w0 !! results sb = None →
  keeps w0 w →
  Forall (λ op : bool * handed, known w0 op.2) ops →
  ∃ w', for_each ops (λ op : bool * handed,
                         hand_over (if op.1 then a else b) op.2) w
          = (Normal tt, w') ∧
        tracks a sa (fold_left (after_call w0) (addressed_to true ops) sta).1
          (fold_left (after_call w0) (addressed_to true ops) sta).2 w' ∧
        tracks b sb (fold_left (after_call w0) (addressed_to false ops) stb).1
          (fold_left (after_call w0) (addressed_to false ops) stb).2 w'.
Proof.
  intros sta stb w Ha Hb Hr Hd Hra Hrb Hkeep Hk.
  revert sta stb w Ha Hb Hkeep.
  induction Hk as [|[which h] ops Hh Hk IH]; intros sta stb w Ha Hb Hkeep.
  - exists w. done.
  - cbn [for_each fst snd] in *. rewrite !addressed_to_cons. cbn [fst snd].
    destruct which; cbn [Bool.eqb app fold_left].
    + destruct sta as [ra ca]. cbn [fst snd] in Ha.
      destruct (hand_over_other a sa ra ca h b sb _ _ w0 w Ha Hb Hr Hd Hra
                  Hkeep Hh) as (w1 & H1 & Ha1 & Hb1 & Hkeep1).
      destruct (IH (after_call w0 (ra, ca) h) stb w1 Ha1 Hb1 Hkeep1)
        as (w2 & H2 & Ha2 & Hb2).
      exists w2. rewrite (bind_Normal _ _ _ _ _ H1). by split.
    + destruct stb as [rb cb]. cbn [fst snd] in Hb.
      destruct (hand_over_other b sb rb cb h a sa _ _ w0 w Hb Ha
                  (not_eq_sym Hr) (not_eq_sym Hd) Hrb Hkeep Hh)
        as (w1 & H1 & Hb1 & Ha1 & Hkeep1).
      destruct (IH sta (after_call w0 (rb, cb) h) w1 Ha1 Hb1 Hkeep1)
        as (w2 & H2 & Ha2 & Hb2).
      exists w2. rewrite (bind_Normal _ _ _ _ _ H1). by split.
Qed.

(** Two sessions never share results or summary: whatever the order in
    which [add_results] calls reach two sessions, and whether a call hands
    over a list of the caller, a list that the store held before, or the own
    list of the session it is addressed to, each session ends up holding
    exactly what the calls addressed to it produce on a session alone; calls
    on one session change nothing in the other. When no session is handed
    its own list, each holds the findings addressed to it, in order, with
    the summary recomputed from them. *)
Theorem sessions_are_independent
    (w : world) (target target' : string) (scan scan' : option string)
    (ta ta_start tb tb_start : datetime) (ops : list (bool * handed)) :
  Forall (λ op : bool * handed, known w op.2) ops →
  ∃ held_a held_b,
    (interleaved target target' scan scan' ta ta_start tb tb_start ops w).1
      = Normal (held_a, held_b) ∧
    (contents_after_calls target scan ta ta_start (addressed_to true ops) w).1
      = Normal held_a ∧
    (contents_after_calls target' scan' tb tb_start (addressed_to false ops) w).1
      = Normal held_b ∧
    (Forall (λ op : bool * handed, foreign w op.2) ops →
       held_a = (concat (batches w (addressed_to true ops)),
                 recomputed_summary
                   (concat (batches w (addressed_to true ops)))) ∧
       held_b = (concat (batches w (addressed_to false ops)),
                 recomputed_summary
                   (concat (batches w (addressed_to false ops))))).
Proof.
  intros Hk.
  destruct (ScanSession_init_fresh target scan ta ta_start w)
    as (a & ra & da & w1 & Ha & Hw1 & _ & Hra & Hkeep1).
  cbv zeta in *.
  destruct (ScanSession_init_second target' scan' tb tb_start a _ [] [] w w1
              Hw1 Hkeep1)
    as (b & rb & db & w2 & Hb & Hbw2 & Haw2 & Hr & Hd & Hrb & Hkeep2).
  cbv zeta in *. cbn [results summary] in Hr, Hd.
  destruct (interleaved_loop a _ b _ w ops ([], []) ([], []) w2 Haw2 Hbw2
              (not_eq_sym Hr) (not_eq_sym Hd) Hra Hrb Hkeep2 Hk)
    as (w3 & Hloop & Ha3 & Hb3).
  fold (after_calls w (addressed_to true ops)) in Ha3.
  fold (after_calls w (addressed_to false ops)) in Hb3.
  unfold interleaved.
  rewrite (bind_Normal _ _ _ _ _ Ha), (bind_Normal _ _ _ _ _ Hb).
  rewrite (bind_Normal _ _ _ _ _ Hloop).
  rewrite (bind_Normal _ _ _ _ _ (read_session_tracks _ _ _ _ _ Ha3)).
  rewrite (bind_Normal _ _ _ _ _ (read_session_tracks _ _ _ _ _ Hb3)).
  eexists _, _. split; [reflexivity|].
  split; [by rewrite contents_after_calls_steps
            by by apply Forall_addressed_to|].
  split; [by rewrite contents_after_calls_steps
            by by apply Forall_addressed_to|].
  intros Hf.
  rewrite (after_calls_foreign w (addressed_to true ops))
    by by apply Forall_addressed_to.
  rewrite (after_calls_foreign w (addressed_to false ops))
    by by apply Forall_addressed_to.
  done.
Qed.

(** Calls on the two sessions in turn, with lists of the caller and the
    list of the store. *)
Lemma sessions_are_independent_witness :
  ∃ held_a,
    (interleaved "http://a" "http://b" None None morning morning evening
       evening
       [(true, Batch [high_finding]); (false, Batch [passed_finding]);
        (true, Stored 1%positive); (false, Batch [error_finding])]
       sample_store).1
      = Normal (held_a,
                ([passed_finding; error_finding],
                 recomputed_summary [passed_finding; error_finding])) ∧
    held_a.1 = [high_finding; high_finding].
Proof.
  assert (Hk : Forall (λ op : bool * handed, known sample_store op.2)
                 [(true, Batch [high_finding]); (false, Batch [passed_finding]);
                  (true, Stored 1%positive); (false, Batch [error_finding])]).
  { repeat constructor. by exists [high_finding]. }
  assert (Hf : Forall (λ op : bool * handed, foreign sample_store op.2)
                 [(true, Batch [high_finding]); (false, Batch [passed_finding]);
                  (true, Stored 1%positive); (false, Batch [error_finding])]).
  { repeat constructor. by exists [high_finding]. }
  destruct (sessions_are_independent sample_store "http://a" "http://b" None
              None morning morning evening evening _ Hk)
    as (held_a & held_b & H & _ & _ & Hheld).
  destruct (Hheld Hf) as [Ha Hb].
  exists held_a. split.
  - rewrite H, Hb. reflexivity.
  - rewrite Ha. reflexivity.
Defined.

(** ** The order of scan identifiers *)

Lemma digit_compare a b :
  (0 <= a < 10)%Z → (0 <= b < 10)%Z →
  Ascii.compare (pystr.digit a) (pystr.digit b) = (a ?= b)%Z.
Proof.
  intros Ha Hb.
  assert (Ha' : (a = 0 ∨ a = 1 ∨ a = 2 ∨ a = 3 ∨ a = 4 ∨ a = 5 ∨ a = 6
                ∨ a = 7 ∨ a = 8 ∨ a = 9)%Z) by lia.
  assert (Hb' : (b = 0 ∨ b = 1 ∨ b = 2 ∨ b = 3 ∨ b = 4 ∨ b = 5 ∨ b = 6
                ∨ b = 7 ∨ b = 8 ∨ b = 9)%Z) by lia.
  clear Ha Hb.
  repeat (destruct Ha' as [->|Ha']); try subst a;
    repeat (destruct Hb' as [->|Hb']); try subst b; reflexivity.
Qed.

Lemma compare_by_quotient n n' (c : comparison) :
  (0 <= n)%Z → (0 <= n')%Z →
  match (n / 10 ?= n' / 10)%Z with
  | Eq => match (n mod 10 ?= n' mod 10)%Z with Eq => c | c' => c' end
  | c' => c'
  end
  = match (n ?= n')%Z with Eq => c | c' => c' end.
Proof.
  intros Hn Hn'.
  pose proof (Z.div_mod n 10 ltac:(lia)).
  pose proof (Z.div_mod n' 10 ltac:(lia)).
  pose proof (Z.mod_pos_bound n 10 ltac:(lia)).
  pose proof (Z.mod_pos_bound n' 10 ltac:(lia)).
  destruct (Z.compare_spec (n / 10) (n' / 10));
    destruct (Z.compare_spec (n mod 10) (n' mod 10));
    destruct (Z.compare_spec n n'); try reflexivity; lia.
Qed.

Lemma digits_compare w : ∀ n n' rest rest',
  (0 <= n < 10 ^ Z.of_nat w)%Z → (0 <= n' < 10 ^ Z.of_nat w)%Z →
  String.compare (pystr.digits w n rest) (pystr.digits w n' rest')
  = match (n ?= n')%Z with Eq => String.compare rest rest' | c => c end.
Proof.
  induction w as [|w IH]; intros n n' rest rest' Hn Hn'.
  - simpl in *. assert (n = 0%Z) as -> by lia. by assert (n' = 0%Z) as -> by lia.
  - rewrite Nat2Z.inj_succ, Z.pow_succ_r in Hn, Hn' by lia.
    cbn [pystr.digits]. rewrite IH.
    + cbn [String.compare].
      rewrite digit_compare by (apply Z.mod_pos_bound; lia).
      apply compare_by_quotient; lia.
    + split; [apply Z.div_pos; lia | apply Z.div_lt_upper_bound; lia].
    + split; [apply Z.div_pos; lia | apply Z.div_lt_upper_bound; lia].
Qed.

(** Identifiers sort like creation times: comparing the default [scan_id]
    of two sessions as strings gives the order of their creation times taken
    to the second (so the identifiers, and the file names built from them,
    list the scans in chronological order). *)
Theorem scan_id_order_is_creation_order (ta tb : datetime) :
  datetime_valid ta → datetime_valid tb →
  String.compare (strftime_Ymd_HMS ta) (strftime_Ymd_HMS tb)
  = compare_seconds ta tb.
Proof.
  intros (Hy & Hm & Hd & Hh & Hmi & Hs & _) (Hy' & Hm' & Hd' & Hh' & Hmi' & Hs' & _).
  unfold strftime_Ymd_HMS, compare_seconds.
  rewrite !digits_compare by (simpl; lia).
  cbn [String.compare]. rewrite !digits_compare by (simpl; lia).
  cbn [String.compare Ascii.compare].
  destruct (year ta ?= year tb)%Z, (month ta ?= month tb)%Z,
    (day ta ?= day tb)%Z, (hour ta ?= hour tb)%Z,
    (minute ta ?= minute tb)%Z, (second ta ?= second tb)%Z; reflexivity.
Qed.

(** The morning session sorts before the evening one. *)
Lemma scan_id_order_is_creation_order_witness :
  datetime_valid morning ∧ datetime_valid evening ∧
  String.compare (strftime_Ymd_HMS morning) (strftime_Ymd_HMS evening) = Lt.
Proof.
  split; [exact morning_valid|]. split; [exact evening_valid|].
  rewrite (scan_id_order_is_creation_order morning evening morning_valid
             evening_valid).
  reflexivity.
Defined.

(** ** A scanner used for several scans *)

Lemma run_scan_loop_other session s target headers tests o so ro : ∀ rs w,
  holds session s rs w → holds o so ro w →
  results s ≠ results so → summary s ≠ summary so →
  ∃ w',
    for_each tests (λ test,
      console_print (Out_running (name test)) ;;
      try_except
        (do results <- (λ w, (run test target headers, w));
         add_results session (Elements results) ;;
         if (0 <? vulnerable_count results)%nat
         then console_print (Out_found (vulnerable_count results))
         else console_print Out_passed)
        (λ e, console_print (Out_error (exn_msg e)))) w
    = (Normal tt, w') ∧
    holds session s (rs ++ concat (map (λ t, returned (run t target headers)) tests)) w' ∧
    holds o so ro w'.
Proof.
  intros rs w Hw Ho Hr Hd. revert rs w Hw Ho.
  induction tests as [|t tests IH]; intros rs w Hw Ho.
  - exists w. simpl. by rewrite !app_nil_r.
  - cbn [for_each map concat].
    set (body := λ test : test_class, _) in *.
    assert (Hstep : ∃ w1,
      body t w = (Normal tt, w1) ∧
      holds session s (rs ++ returned (run t target headers)) w1 ∧
      holds o so ro w1).
    { unfold body.
      set (w0 := set_console (λ out, out ++ [Out_running (name t)]) w).
      assert (Hp : console_print (Out_running (name t)) w = (Normal tt, w0)) by done.
      rewrite (bind_Normal _ _ _ _ _ Hp).
      assert (Hw0 : holds session s rs w0) by by apply holds_set_console.
      assert (Ho0 : holds o so ro w0) by by apply holds_set_console.
      unfold try_except, bind at 1.
      destruct (run t target headers) as [results|e]; cbn [returned].
      - destruct (add_results_other session s rs results o so ro w0 Hw0 Ho0 Hr Hd)
          as (w1 & H1 & Hw1 & Ho1).
        rewrite (bind_Normal _ _ _ _ _ H1).
        destruct (0 <? vulnerable_count results)%nat; unfold console_print;
          (eexists; split; [reflexivity|]);
          split; by apply holds_set_console.
      - unfold console_print. eexists; split; [reflexivity|].
        rewrite app_nil_r. split; by apply holds_set_console. }
    destruct Hstep as (w1 & H1 & Hw1 & Ho1).
    destruct (IH _ _ Hw1 Ho1) as (w2 & H2 & Hw2 & Ho2).
    exists w2. rewrite (bind_Normal _ _ _ _ _ H1), H2.
    split; [done|]. rewrite app_assoc. by split.
Qed.

(** [run_scan] next to a session that already exists. *)
Lemma run_scan_other self cfg now_id now_start now_end o so ro w :
  holds o so ro w →
  ∃ session r d w',
    let s := Session (cfg_target_url cfg) (strftime_Ymd_HMS now_id) now_start
               (Some now_end) r d in
    run_scan self cfg now_id now_start now_end w = (Normal session, w') ∧
    holds session s (collected self cfg) w' ∧
    holds o so ro w' ∧ session ≠ o.
Proof.
  intros Ho.
  destruct (ScanSession_init_other (cfg_target_url cfg) None now_id now_start
              o so ro w Ho)
    as (session & s & w1 & Hinit & Hw1 & Ho1 & Hne & Hr & Hd).
  pose proof Hinit as Hinit'.
  destruct (ScanSession_init_steps (cfg_target_url cfg) None now_id now_start w)
    as (session' & r & d & w1' & Hinit0 & Hw1' & _).
  cbv zeta in *. rewrite Hinit in Hinit0. injection Hinit0 as <- <-.
  assert (s = Session (cfg_target_url cfg) (strftime_Ymd_HMS now_id) now_start
                None r d) as -> by (destruct Hw1, Hw1'; congruence).
  set (s := Session _ _ _ None r d) in *.
  unfold run_scan.
  rewrite (bind_Normal _ _ _ _ _ Hinit).
  rewrite (bind_Normal _ _ _ _ _ (get_session_Some _ _ _ (proj1 Hw1))).
  set (tests := default (test_classes self) (cfg_selected_tests cfg)).
  set (w2 := set_console (λ out, out ++ [Out_start (cfg_target_url cfg) (scan_id s)
                                           (length tests)]) w1).
  assert (Hp : console_print (Out_start (cfg_target_url cfg) (scan_id s)
                                (length tests)) w1 = (Normal tt, w2)) by done.
  rewrite (bind_Normal _ _ _ _ _ Hp).
  assert (Hw2 : holds session s [] w2) by by apply holds_set_console.
  assert (Ho2 : holds o so ro w2) by by apply holds_set_console.
  destruct (run_scan_loop_other session s (cfg_target_url cfg)
              (default ∅ (cfg_headers cfg)) tests o so ro [] w2 Hw2 Ho2 Hr Hd)
    as (w3 & Hloop & Hw3 & Ho3).
  rewrite (bind_Normal _ _ _ _ _ Hloop).
  destruct (finalize_holds session s _ now_end w3 Hw3) as [Hfin Hw4].
  rewrite (bind_Normal _ _ _ _ _ Hfin).
  exists session, r, d, (set_sessions <[session := finalized now_end s]> w3).
  split; [reflexivity|]. split; [exact Hw4|]. split; [|exact Hne].
  destruct Ho3 as (Hso & Hro & Hdo).
  unfold holds, set_sessions. cbn [sessions lists dicts].
  by rewrite lookup_insert_ne.
Qed.

(** Every [run_scan] works on a session of its own: a second scan with the
    same scanner returns another session object, and the session returned
    by the first scan still holds what it held, the findings of the first
    scan and their summary; the second session holds the findings of the
    second scan only. *)
Theorem run_scan_sessions_are_separate
    (self : SecurityScanner) (cfg cfg' : config)
    (now_id now_start now_end now_id' now_start' now_end' : datetime)
    (w : world) :
  (scan_twice self cfg cfg' now_id now_start now_end
     now_id' now_start' now_end' w).1
  = Normal (false,
            (collected self cfg, recomputed_summary (collected self cfg)),
            (collected self cfg, recomputed_summary (collected self cfg)),
            (collected self cfg', recomputed_summary (collected self cfg'))).
Proof.
  destruct (run_scan_steps self cfg now_id now_start now_end w)
    as (first & r & d & w1 & Hrun & Hw1 & _).
  cbv zeta in *. fold (collected self cfg) in Hw1.
  destruct (run_scan_other self cfg' now_id' now_start' now_end' first _ _ w1 Hw1)
    as (second & r' & d' & w2 & Hrun' & Hw2 & Ho2 & Hne).
  cbv zeta in *. unfold scan_twice.
  rewrite (bind_Normal _ _ _ _ _ Hrun).
  rewrite (bind_Normal _ _ _ _ _ (read_session_holds _ _ _ _ Hw1)).
  rewrite (bind_Normal _ _ _ _ _ Hrun').
  rewrite (bind_Normal _ _ _ _ _ (read_session_holds _ _ _ _ Ho2)).
  rewrite (bind_Normal _ _ _ _ _ (read_session_holds _ _ _ _ Hw2)).
  unfold ret. cbn [fst]. by rewrite bool_decide_eq_false_2 by done.
Qed.

(** ** [save_results] *)

Lemma scan_and_save_steps self cfg now_id now_start now_end format files w :
  ∃ w',
    scan_and_save self cfg now_id now_start now_end format files w
    = (Normal ("scan_" +:+ strftime_Ymd_HMS now_id +:+ "." +:+ format),
       (if decide (format = "json")
        then <["scan_" +:+ strftime_Ymd_HMS now_id +:+ "." +:+ format
               := Json (scan_data self cfg now_id now_start now_end)]> files
        else files),
       w').
Proof.
  destruct (run_scan_steps self cfg now_id now_start now_end w)
    as (session & r & d & w1 & Hrun & Hw1 & _).
  cbv zeta in *. fold (collected self cfg) in Hw1.
  exists w1. unfold scan_and_save. rewrite Hrun. unfold save_results.
  destruct Hw1 as (Hs & Hr & Hd).
  rewrite (get_session_Some _ _ _ Hs). cbn [scan_id].
  destruct (decide (format = "json")) as [->|Hf]; [|reflexivity].
  rewrite (bind_Normal _ _ _ _ _ (to_dict_steps _ _ _ Hs)).
  cbn [scan_id target_url start_time end_time results summary] in *.
  set (dict := SessionDict _ _ _ _ _ _ _).
  by rewrite (read_dict_steps dict _ _ w1 Hr Hd).
Qed.

(** [save_results] after a scan always returns the name
    [scan_<scan_id>.<format>], but it writes a file under that name only for
    the format [json], spelled exactly so; for any other format no file is
    created or changed. The JSON file holds the finalized session: its
    [end_time] is set, its results are the findings collected by the scan and
    its summary is the one recomputed from them. *)
Theorem save_results_writes_json_only
    (self : SecurityScanner) (cfg : config)
    (now_id now_start now_end : datetime) (format : string)
    (files : gmap string file) (w : world) :
  let name := "scan_" +:+ strftime_Ymd_HMS now_id +:+ "." +:+ format in
  let out := scan_and_save self cfg now_id now_start now_end format files w in
  out.1.1 = Normal name ∧
  out.1.2 = (if decide (format = "json")
             then <[name := Json (scan_data self cfg now_id now_start now_end)]> files
             else files).
Proof.
  cbv zeta.
  destruct (scan_and_save_steps self cfg now_id now_start now_end format files w)
    as (w' & ->).
  done.
Qed.

Lemma digits_app w : ∀ n rest tail,
  pystr.digits w n rest +:+ tail = pystr.digits w n (rest +:+ tail).
Proof.
  induction w as [|w IH]; intros n rest tail; [reflexivity|].
  cbn [pystr.digits]. by rewrite IH.
Qed.

Lemma string_app_cons c s t : String c s +:+ t = String c (s +:+ t).
Proof. reflexivity. Qed.

Lemma string_app_nil t : "" +:+ t = t.
Proof. reflexivity. Qed.

Lemma strftime_app_eq ta tb tail :
  datetime_valid ta → datetime_valid tb →
  strftime_Ymd_HMS ta +:+ tail = strftime_Ymd_HMS tb +:+ tail →
  to_the_second ta = to_the_second tb.
Proof.
  intros (Hy & Hm & Hd & Hh & Hmi & Hs & _) (Hy' & Hm' & Hd' & Hh' & Hmi' & Hs' & _).
  unfold strftime_Ymd_HMS, to_the_second.
  rewrite !digits_app, !string_app_cons, !digits_app, string_app_nil.
  intros H.
  apply digits_inj in H as [-> H]; [|simpl; lia..].
  apply digits_inj in H as [-> H]; [|simpl; lia..].
  apply digits_inj in H as [-> H]; [|simpl; lia..].
  apply string_tail_eq in H.
  apply digits_inj in H as [-> H]; [|simpl; lia..].
  apply digits_inj in H as [-> H]; [|simpl; lia..].
  apply digits_inj in H as [-> H]; [|simpl; lia..].
  reflexivity.
Qed.

(** The report of a scan replaces the report of an earlier scan exactly when
    the two scans were started within the same second: the two JSON file
    names are then the same and after the second [save_results] only the
    second report is left; scans started in different seconds are saved
    under different names and both reports are kept. *)
Theorem save_results_overwrites_within_a_second
    (self : SecurityScanner) (cfg cfg' : config)
    (now_id now_start now_end now_id' now_start' now_end' : datetime)
    (files : gmap string file) (w : world) :
  datetime_valid now_id → datetime_valid now_id' →
  let first := scan_and_save self cfg now_id now_start now_end "json" files w in
  let second := scan_and_save self cfg' now_id' now_start' now_end' "json"
                  first.1.2 first.2 in
  ∃ name name',
    first.1.1 = Normal name ∧ second.1.1 = Normal name' ∧
    (name = name' ↔ to_the_second now_id = to_the_second now_id') ∧
    second.1.2 !! name'
      = Some (Json (scan_data self cfg' now_id' now_start' now_end')) ∧
    second.1.2 !! name
      = Some (Json (if decide (name = name')
                    then scan_data self cfg' now_id' now_start' now_end'
                    else scan_data self cfg now_id now_start now_end)).
Proof.
  intros Hv Hv'. cbv zeta.
  destruct (scan_and_save_steps self cfg now_id now_start now_end "json" files w)
    as (w1 & ->). cbn [fst snd].
  destruct (scan_and_save_steps self cfg' now_id' now_start' now_end' "json"
              (if decide ("json" = "json")
               then <["scan_" +:+ strftime_Ymd_HMS now_id +:+ "." +:+ "json"
                      := Json (scan_data self cfg now_id now_start now_end)]> files
               else files) w1)
    as (w2 & ->). cbn [fst snd].
  rewrite !decide_True by reflexivity.
  eexists _, _. split; [reflexivity|]. split; [reflexivity|].
  split; [|split].
  - split.
    + intros H. rewrite !string_app_cons, !string_app_nil in H.
      do 5 apply string_tail_eq in H.
      by apply strftime_app_eq in H.
    + intros H.
      by rewrite (proj2 (strftime_Ymd_HMS_eq now_id now_id' Hv Hv') H).
  - by rewrite lookup_insert_eq.
  - destruct (decide ("scan_" +:+ strftime_Ymd_HMS now_id +:+ "." +:+ "json"
                      = "scan_" +:+ strftime_Ymd_HMS now_id' +:+ "." +:+ "json"))
      as [Heq|Hne].
    + rewrite Heq. by rewrite lookup_insert_eq.
    + rewrite lookup_insert_ne by done. by rewrite lookup_insert_eq.
Qed.

(** Two scans started 740 milliseconds apart, in the same second. *)
Lemma save_results_overwrites_within_a_second_witness :
  datetime_valid morning ∧ datetime_valid same_second ∧
  to_the_second morning = to_the_second same_second ∧
  ∃ name name',
    (scan_and_save (Scanner sample_selection)
       (Config "http://target" None None None) morning morning evening "json"
       ∅ empty_world).1.1 = Normal name ∧
    name = name'.
Proof.
  assert (Hs : datetime_valid same_second)
    by (unfold datetime_valid, same_second; cbn; lia).
  split; [exact morning_valid|]. split; [exact Hs|]. split; [reflexivity|].
  destruct (save_results_overwrites_within_a_second (Scanner sample_selection)
              (Config "http://target" None None None)
              (Config "http://target" None None None)
              morning morning evening same_second same_second evening
              ∅ empty_world morning_valid Hs)
    as (name & name' & H1 & _ & Hiff & _).
  exists name, name'. split; [exact H1|]. apply Hiff. reflexivity.
Defined.

(** ** [display_results] *)













(** ** [get_scan_configuration] *)

Lemma with_scheme_prefix u :
  String.prefix "http://" (with_scheme u) = true
  ∨ String.prefix "https://" (with_scheme u) = true.
Proof.
  unfold with_scheme.
  destruct (String.prefix "http://" u) eqn:H1; [by left|].
  destruct (String.prefix "https://" u) eqn:H2; [by right|].
  right. simpl. by destruct u.
Qed.

Lemma with_scheme_idem u : with_scheme (with_scheme u) = with_scheme u.
Proof.
  unfold with_scheme at 1.
  by destruct (with_scheme_prefix u) as [-> | ->]; rewrite ?orb_true_r.
Qed.

Lemma take_1_drop {A} (l : list A) i :
  (i < length l)%nat → ∃ x, l !! i = Some x ∧ take 1 (drop i l) = [x].
Proof.
  revert i. induction l as [|y l IH]; intros i Hi; [simpl in Hi; lia|].
  destruct i as [|i]; [exists y; by destruct l|].
  apply IH. simpl in Hi. lia.
Qed.

Lemma select_tests_cases self answer :
  (select_tests self answer).1 = test_classes self
  ∨ ∃ i t, test_classes self !! i = Some t ∧ (select_tests self answer).1 = [t].
Proof.
  unfold select_tests. cbv zeta.
  destruct (bool_decide _ || bool_decide _); [by left|].
  destruct (int_of_str _) as [i|]; [|by left].
  destruct (Z.leb_spec 0 (i - 1)); [|by left].
  destruct (Z.ltb_spec (i - 1) (Z.of_nat (length (test_classes self))));
    [|by left].
  cbn [andb fst]. right.
  destruct (take_1_drop (test_classes self) (Z.to_nat (i - 1))) as (t & Ht & Heq);
    [lia|].
  by exists (Z.to_nat (i - 1)), t.
Qed.

Lemma read_headers_never_exits answers : ∀ headers shown code shown',
  read_headers answers headers shown ≠ Exits code shown'.
Proof.
  induction answers as [|a answers IH]; intros headers shown code shown';
    [discriminate|].
  cbn [read_headers]. cbv zeta.
  destruct (decide (strip a = "")); [discriminate|].
  destruct (split_colon (strip a)) as [[key value]|]; apply IH.
Qed.

(** Whatever is typed, a configuration that [get_scan_configuration] returns
    has a target that starts with [http://] or [https://], a dictionary of
    headers, no plan, and a selection that is either the whole registry or
    one single test of the registry; in particular the selection is never
    empty unless the registry is. *)
Theorem get_scan_configuration_result
    (self : SecurityScanner) (answers : list string)
    (cfg : config) (shown : list prompt) (rest : list string) :
  get_scan_configuration self answers = Answered cfg shown rest →
  (String.prefix "http://" (cfg_target_url cfg) = true
   ∨ String.prefix "https://" (cfg_target_url cfg) = true) ∧
  (∃ headers, cfg_headers cfg = Some headers) ∧
  (∃ selected,
     cfg_selected_tests cfg = Some selected ∧
     (selected = test_classes self
      ∨ ∃ i t, test_classes self !! i = Some t ∧ selected = [t])) ∧
  cfg_scan_plan cfg = None.
Proof.
  unfold get_scan_configuration. cbv zeta.
  destruct answers as [|a answers]; [discriminate|].
  destruct (decide (strip a = "")); [discriminate|].
  destruct (read_headers answers ∅ _) as [headers sh [|choice more]| |];
    try discriminate.
  pose proof (select_tests_cases self choice) as Hsel.
  destruct (select_tests self choice) as [selected said].
  intros [= <- <- <-]. cbn [cfg_target_url cfg_headers cfg_selected_tests
                             cfg_scan_plan fst] in *.
  split; [apply with_scheme_prefix|]. split; [by eexists|].
  split; [|reflexivity]. by exists selected.
Qed.

Lemma get_scan_configuration_result_witness :
  ∃ shown,
    get_scan_configuration (Scanner sample_selection)
      ["localhost:5000/api"; "X-Api-Key: k1"; ""; "7"]
    = Answered
        (Config "https://localhost:5000/api" (Some {[ "X-Api-Key" := "k1" ]})
           (Some sample_selection) None)
        shown [] ∧
    (String.prefix "http://" "https://localhost:5000/api" = true
     ∨ String.prefix "https://" "https://localhost:5000/api" = true).
Proof.
  eexists.
  refine ((λ H, conj H (proj1 (get_scan_configuration_result _ _ _ _ _ H))) _).
  vm_compute. reflexivity.
Defined.

(** It ends the program, with status 1, exactly when the first line typed is
    empty or blank; nothing is asked after that line. *)
Theorem get_scan_configuration_exit
    (self : SecurityScanner) (answers : list string)
    (code : Z) (shown : list prompt) :
  get_scan_configuration self answers = Exits code shown ↔
  code = 1%Z ∧ shown = [Say_configure; Ask_target; Say_url_required] ∧
  ∃ answer rest, answers = answer :: rest ∧ strip answer = "".
Proof.
  unfold get_scan_configuration. cbv zeta. split.
  - destruct answers as [|a answers]; [discriminate|].
    destruct (decide (strip a = "")) as [Ha|Ha].
    + intros [= <- <-]. repeat split. by exists a, answers.
    + pose proof (read_headers_never_exits answers ∅
                    ([Say_configure; Ask_target] ++ [Say_headers; Say_headers_hint]))
        as Hne.
      destruct (read_headers answers ∅ _) as [headers sh [|choice more]|c sh|];
        try discriminate.
      * by destruct (select_tests self choice).
      * by destruct (Hne c sh).
  - intros (-> & -> & a & rest & -> & Ha).
    by rewrite decide_True by done.
Qed.

Lemma get_scan_configuration_exit_witness :
  get_scan_configuration (Scanner sample_selection) ["   "; "all"]
  = Exits 1 [Say_configure; Ask_target; Say_url_required].
Proof.
  apply (proj2 (get_scan_configuration_exit (Scanner sample_selection)
                  ["   "; "all"] 1 [Say_configure; Ask_target; Say_url_required])).
  split; [reflexivity|]. split; [reflexivity|].
  exists "   ", ["all"]. split; reflexivity.
Defined.

(** *** Numerals *)

Lemma digit_is_digit d : is_digit (pystr.digit d) = true.
Proof.
  unfold pystr.digit.
  repeat (match goal with
          | |- context [match ?x with _ => _ end] => destruct x
          end); reflexivity.
Qed.

Lemma digit_value d :
  (0 <= d < 10)%Z → Z.of_nat (nat_of_ascii (pystr.digit d) - 48) = d.
Proof.
  intros Hd.
  assert (H : (d = 0 ∨ d = 1 ∨ d = 2 ∨ d = 3 ∨ d = 4 ∨ d = 5 ∨ d = 6
               ∨ d = 7 ∨ d = 8 ∨ d = 9)%Z) by lia.
  repeat (destruct H as [->|H]); try subst d; reflexivity.
Qed.

Lemma str_digits_all_digits fuel : ∀ n rest,
  all_digits rest = true → all_digits (str_digits fuel n rest) = true.
Proof.
  induction fuel as [|fuel IH]; intros n rest Hrest; [exact Hrest|].
  cbn [str_digits]. cbv zeta.
  assert (H : all_digits (String (pystr.digit (n mod 10)) rest) = true).
  { cbn [all_digits]. by rewrite digit_is_digit. }
  destruct (n / 10 =? 0)%Z; [exact H|by apply IH].
Qed.

Lemma str_digits_nonempty fuel n rest :
  str_digits (S fuel) n rest ≠ "".
Proof.
  revert n rest. induction fuel as [|fuel IH]; intros n rest.
  - cbn. by destruct (n / 10 =? 0)%Z.
  - cbn [str_digits]. cbv zeta. destruct (n / 10 =? 0)%Z; [discriminate|].
    apply IH.
Qed.

Lemma digits_value_str_digits fuel : ∀ n rest,
  (0 <= n < 10 ^ Z.of_nat fuel)%Z →
  digits_value (str_digits fuel n rest) 0 = digits_value rest n.
Proof.
  induction fuel as [|fuel IH]; intros n rest Hn.
  - simpl in *. by assert (n = 0%Z) as -> by lia.
  - rewrite Nat2Z.inj_succ, Z.pow_succ_r in Hn by lia.
    cbn [str_digits]. cbv zeta.
    pose proof (Z.div_mod n 10 ltac:(lia)) as Hdm.
    pose proof (Z.mod_pos_bound n 10 ltac:(lia)) as Hm.
    destruct (Z.eqb_spec (n / 10) 0) as [Hq|Hq].
    + cbn [digits_value]. rewrite digit_value by lia. f_equal. lia.
    + rewrite IH.
      * cbn [digits_value]. rewrite digit_value by lia. f_equal. lia.
      * split; [apply Z.div_pos; lia | apply Z.div_lt_upper_bound; lia].
Qed.

Lemma digits_value_str_of_nat n : digits_value (str_of_nat n) 0 = Z.of_nat n.
Proof.
  unfold str_of_nat. rewrite digits_value_str_digits; [reflexivity|].
  pose proof (Z.pow_gt_lin_r 10 (Z.of_nat (S n))). lia.
Qed.

Lemma str_of_nat_inj n m : str_of_nat n = str_of_nat m → n = m.
Proof.
  intros H. apply (f_equal (λ s, digits_value s 0)) in H.
  rewrite !digits_value_str_of_nat in H. lia.
Qed.

Lemma is_digit_not_space c : is_digit c = true → is_space c = false.
Proof.
  unfold is_digit, is_space. cbv zeta.
  intros [H1%Nat.leb_le H2%Nat.leb_le]%andb_prop.
  destruct (Nat.leb_spec (nat_of_ascii c) 13); [lia|].
  destruct (Nat.leb_spec (nat_of_ascii c) 32); [lia|].
  by rewrite !andb_false_r.
Qed.

Lemma is_digit_lower c : is_digit c = true → lower_char c = c.
Proof.
  unfold is_digit, lower_char. cbv zeta.
  intros [H1%Nat.leb_le H2%Nat.leb_le]%andb_prop.
  destruct (Nat.leb_spec 65 (nat_of_ascii c)); [lia|]. reflexivity.
Qed.

Lemma all_digits_strip s : all_digits s = true → strip s = s.
Proof.
  intros H. unfold strip.
  assert (lstrip s = s) as ->.
  { destruct s as [|c s]; [reflexivity|]. cbn [all_digits lstrip] in *.
    apply andb_prop in H as [Hc _]. by rewrite (is_digit_not_space c Hc). }
  induction s as [|c s IH]; [reflexivity|].
  cbn [all_digits rstrip] in *. apply andb_prop in H as [Hc Hs].
  rewrite (IH Hs), (is_digit_not_space c Hc). by destruct s.
Qed.

Lemma all_digits_lower s : all_digits s = true → lower s = s.
Proof.
  induction s as [|c s IH]; [reflexivity|].
  cbn [all_digits lower]. intros [Hc Hs]%andb_prop.
  by rewrite (is_digit_lower c Hc), (IH Hs).
Qed.

Lemma all_digits_int_digits s : ∀ v b,
  all_digits s = true → s ≠ "" →
  int_digits s v b = Some (digits_value s v).
Proof.
  induction s as [|c s IH]; intros v b H Hne; [done|].
  cbn [all_digits int_digits digits_value] in *.
  apply andb_prop in H as [Hc Hs]. rewrite Hc.
  destruct s as [|c' s]; [reflexivity|]. by apply IH.
Qed.

Lemma all_digits_int_of_str s :
  all_digits s = true → s ≠ "" → int_of_str s = Some (digits_value s 0).
Proof.
  intros H Hne. unfold int_of_str. rewrite (all_digits_strip s H).
  destruct s as [|c s]; [done|].
  cbn [all_digits] in H. apply andb_prop in H as [Hc Hs].
  assert (Hplus : c ≠ "+"%char) by (intros ->; discriminate Hc).
  assert (Hminus : c ≠ "-"%char) by (intros ->; discriminate Hc).
  assert (Hall : all_digits (String c s) = true)
    by (cbn [all_digits]; by rewrite Hc, Hs).
  destruct c as [[] [] [] [] [] [] [] []];
    try (by apply all_digits_int_digits); try done.
Qed.

Lemma str_of_nat_digits n :
  all_digits (str_of_nat n) = true ∧ str_of_nat n ≠ "".
Proof.
  unfold str_of_nat. split; [by apply str_digits_all_digits|].
  apply str_digits_nonempty.
Qed.

(** [int(str(n))] is [n]. *)
Lemma int_of_str_str_of_nat n : int_of_str (str_of_nat n) = Some (Z.of_nat n).
Proof.
  destruct (str_of_nat_digits n) as [H Hne].
  by rewrite all_digits_int_of_str, digits_value_str_of_nat.
Qed.

Lemma select_tests_number self k t :
  test_classes self !! k = Some t →
  select_tests self (str_of_nat (S k)) = ([t], []).
Proof.
  intros Hk. unfold select_tests. cbv zeta.
  destruct (str_of_nat_digits (S k)) as [H Hne].
  rewrite (all_digits_strip _ H), (all_digits_lower _ H).
  pose proof (lookup_lt_Some _ _ _ Hk) as Hlt.
  rewrite bool_decide_eq_false_2.
  2: { intros Heq. rewrite Heq in H. discriminate H. }
  rewrite bool_decide_eq_false_2.
  2: { intros Heq%str_of_nat_inj. lia. }
  cbn [orb]. rewrite int_of_str_str_of_nat.
  replace (Z.of_nat (S k) - 1)%Z with (Z.of_nat k) by lia.
  destruct (Z.leb_spec 0 (Z.of_nat k)); [|lia].
  destruct (Z.ltb_spec (Z.of_nat k) (Z.of_nat (length (test_classes self))));
    [|lia].
  cbn [andb]. rewrite Nat2Z.id.
  destruct (take_1_drop (test_classes self) k Hlt) as (t' & Ht' & ->).
  congruence.
Qed.

(** *** Header lines *)

Lemma lstrip_app_colon k v :
  lstrip (k +:+ ":" +:+ v) = lstrip k +:+ ":" +:+ v.
Proof.
  induction k as [|c k IH]; [reflexivity|].
  rewrite string_app_cons. cbn [lstrip].
  destruct (is_space c); [exact IH|by rewrite string_app_cons].
Qed.

Lemma rstrip_app_colon x v :
  rstrip (x +:+ ":" +:+ v) = x +:+ ":" +:+ rstrip v.
Proof.
  induction x as [|c x IH].
  - rewrite !string_app_nil.
    change (":" +:+ v) with (String ":" v).
    change (":" +:+ rstrip v) with (String ":" (rstrip v)).
    cbn [rstrip]. by destruct (rstrip v).
  - rewrite !(string_app_cons c x).
    change (rstrip (String c (x +:+ ":" +:+ v)))
      with (match rstrip (x +:+ ":" +:+ v) with
            | EmptyString =>
                if is_space c then EmptyString else String c EmptyString
            | t => String c t
            end).
    rewrite IH. destruct x as [|c' x]; [by rewrite string_app_nil|].
    by rewrite (string_app_cons c' x).
Qed.

Lemma split_colon_app x y :
  split_colon x = None → split_colon (x +:+ ":" +:+ y) = Some (x, y).
Proof.
  induction x as [|c x IH]; intros H; [by rewrite string_app_nil|].
  rewrite string_app_cons. cbn [split_colon] in *.
  destruct (Ascii.eqb c ":"); [discriminate|].
  destruct (split_colon x) as [[??]|]; [discriminate|]. by rewrite IH.
Qed.

Lemma split_colon_lstrip k : split_colon k = None → split_colon (lstrip k) = None.
Proof.
  induction k as [|c k IH]; [done|]. intros H. cbn [lstrip].
  destruct (is_space c); [|exact H]. apply IH.
  cbn [split_colon] in H. destruct (Ascii.eqb c ":"); [discriminate|].
  by destruct (split_colon k) as [[??]|].
Qed.

Lemma lstrip_idem s : lstrip (lstrip s) = lstrip s.
Proof.
  induction s as [|c s IH]; [reflexivity|]. cbn [lstrip].
  destruct (is_space c) eqn:Hc; [exact IH|]. cbn [lstrip]. by rewrite Hc.
Qed.

Lemma rstrip_idem s : rstrip (rstrip s) = rstrip s.
Proof.
  induction s as [|c s IH]; [reflexivity|]. cbn [rstrip].
  destruct (rstrip s) as [|c' t] eqn:Ht.
  - destruct (is_space c) eqn:Hc; [reflexivity|]. cbn [rstrip]. by rewrite Hc.
  - cbn [rstrip] in *. by rewrite IH.
Qed.

Lemma rstrip_empty_lstrip s : rstrip s = "" → lstrip s = "".
Proof.
  induction s as [|c s IH]; [done|]. cbn [rstrip lstrip].
  destruct (rstrip s) as [|c' t]; [|discriminate].
  destruct (is_space c); [intros _; by apply IH|discriminate].
Qed.

Lemma strip_lstrip s : strip (lstrip s) = strip s.
Proof. unfold strip. by rewrite lstrip_idem. Qed.

Lemma strip_rstrip s : strip (rstrip s) = strip s.
Proof.
  unfold strip. induction s as [|c s IH]; [reflexivity|].
  cbn [rstrip]. destruct (rstrip s) as [|c' t] eqn:Ht.
  - destruct (is_space c) eqn:Hc.
    + cbn [lstrip]. rewrite Hc. by rewrite (rstrip_empty_lstrip s Ht).
    + cbn [lstrip]. rewrite Hc. cbn [rstrip]. by rewrite Hc, Ht.
  - destruct (is_space c) eqn:Hc.
    + cbn [lstrip]. rewrite Hc. exact IH.
    + cbn [lstrip]. rewrite Hc.
      change (rstrip (String c (String c' t)) = rstrip (String c s)).
      rewrite <- Ht. cbn [rstrip]. by rewrite rstrip_idem.
Qed.

Lemma strip_header_line k v :
  strip (header_line (k, v)) = lstrip k +:+ ":" +:+ rstrip v.
Proof.
  unfold strip, header_line. cbn [fst snd].
  by rewrite lstrip_app_colon, rstrip_app_colon.
Qed.

Lemma app_colon_nonempty x y : x +:+ ":" +:+ y ≠ "".
Proof. by destruct x. Qed.

(** The headers collected from the lines [hs], the last line for a key
    winning; the question is asked once for each line read. *)
Lemma read_headers_lines hs : ∀ headers shown blank rest,
  Forall (λ kv : string * string, split_colon kv.1 = None) hs →
  strip blank = "" →
  read_headers (map header_line hs ++ blank :: rest) headers shown
  = Answered (foldl (λ h kv, <[strip kv.1 := strip kv.2]> h) headers hs)
      (shown ++ replicate (S (length hs)) Ask_header) rest.
Proof.
  induction hs as [|[k v] hs IH]; intros headers shown blank rest Hhs Hb.
  - cbn [map app read_headers foldl]. cbv zeta.
    by rewrite decide_True by done.
  - apply Forall_cons in Hhs as [Hk Hhs]. cbn [fst] in Hk.
    cbn [map app read_headers foldl]. cbv zeta.
    rewrite strip_header_line.
    rewrite decide_False by apply app_colon_nonempty.
    rewrite split_colon_app by by apply split_colon_lstrip.
    rewrite strip_lstrip, strip_rstrip. cbn [fst snd].
    rewrite (IH _ _ _ _ Hhs Hb). by rewrite <- app_assoc.
Qed.

(** What is shown up to the last question. *)
Lemma get_scan_configuration_shown self url hs blank choice rest :
  strip url ≠ "" →
  Forall (λ kv : string * string, split_colon kv.1 = None) hs →
  strip blank = "" →
  get_scan_configuration self
    (url :: map header_line hs ++ blank :: choice :: rest)
  = Answered
      (Config (with_scheme (strip url))
         (Some (foldl (λ h kv, <[strip kv.1 := strip kv.2]> h) ∅ hs))
         (Some (select_tests self choice).1) None)
      (((([Say_configure; Ask_target] ++ [Say_headers; Say_headers_hint])
         ++ replicate (S (length hs)) Ask_header)
        ++ [Say_select; Say_available]
        ++ imap (λ i t, Say_test (S i) (severity t) (category t) (name t))
             (test_classes self)
        ++ [Say_run_all (length (test_classes self) + 1); Ask_choice])
       ++ (select_tests self choice).2)
      rest.
Proof.
  intros Hurl Hhs Hb. unfold get_scan_configuration. cbv zeta.
  rewrite decide_False by done.
  rewrite (read_headers_lines hs ∅
             ([Say_configure; Ask_target] ++ [Say_headers; Say_headers_hint])
             blank (choice :: rest) Hhs Hb).
  by destruct (select_tests self choice) as [selected said].
Qed.

Lemma get_scan_configuration_lines self url hs blank choice rest :
  strip url ≠ "" →
  Forall (λ kv : string * string, split_colon kv.1 = None) hs →
  strip blank = "" →
  ∃ shown,
    get_scan_configuration self
      (url :: map header_line hs ++ blank :: choice :: rest)
    = Answered
        (Config (with_scheme (strip url))
           (Some (foldl (λ h kv, <[strip kv.1 := strip kv.2]> h) ∅ hs))
           (Some (select_tests self choice).1) None)
        shown rest.
Proof.
  intros Hurl Hhs Hb. eexists.
  by apply get_scan_configuration_shown.
Qed.

(** The headers typed as [key:value] lines, with no colon in the key, are
    stored with key and value stripped of the white space around them; the
    value may hold colons; a later line for the same key replaces the
    earlier one; the first blank line ends the headers. *)
Theorem get_scan_configuration_headers
    (self : SecurityScanner) (url : string) (hs : list (string * string))
    (blank choice : string) (rest : list string) :
  strip url ≠ "" →
  Forall (λ kv : string * string, split_colon kv.1 = None) hs →
  strip blank = "" →
  ∃ selected shown,
    get_scan_configuration self
      (url :: map header_line hs ++ blank :: choice :: rest)
    = Answered
        (Config (with_scheme (strip url))
           (Some (foldl (λ h kv, <[strip kv.1 := strip kv.2]> h) ∅ hs))
           (Some selected) None)
        shown rest.
Proof.
  intros Hurl Hhs Hb.
  destruct (get_scan_configuration_lines self url hs blank choice rest
              Hurl Hhs Hb) as [shown H].
  by exists (select_tests self choice).1, shown.
Qed.

Lemma get_scan_configuration_headers_witness :
  ∃ selected shown,
    get_scan_configuration (Scanner [failing_test; passing_test "API2"])
      (" api.example.com " ::
       map header_line
         [(" Authorization ", " Bearer a:b "); ("Authorization", "Basic c")]
       ++ "  " :: "all" :: ["y"])
    = Answered
        (Config "https://api.example.com"
           (Some {[ "Authorization" := "Basic c" ]})
           (Some selected) None)
        shown ["y"].
Proof.
  destruct (get_scan_configuration_headers
              (Scanner [failing_test; passing_test "API2"]) " api.example.com "
              [(" Authorization ", " Bearer a:b "); ("Authorization", "Basic c")]
              "  " "all" ["y"]) as (selected & shown & H).
  - vm_compute. discriminate.
  - repeat constructor.
  - reflexivity.
  - exists selected, shown. rewrite H. f_equal.
Defined.

(** Typing the number shown in front of a test selects that test and no
    other: every test of the registry is listed under its index plus one
    and nothing else is listed, so the test at index [k] is the one listed
    as number [k + 1]; and for the answer [str(k + 1)] the selection is the
    list of that one test, with no complaint about the choice. *)
Theorem get_scan_configuration_selects_by_number
    (self : SecurityScanner) (url : string) (hs : list (string * string))
    (blank : string) (k : nat) (t : test_class) (rest : list string) :
  strip url ≠ "" →
  Forall (λ kv : string * string, split_colon kv.1 = None) hs →
  strip blank = "" →
  test_classes self !! k = Some t →
  ∃ headers shown,
    get_scan_configuration self
      (url :: map header_line hs ++ blank :: str_of_nat (S k) :: rest)
    = Answered (Config (with_scheme (strip url)) (Some headers) (Some [t]) None)
        shown rest ∧
    Say_test (S k) (severity t) (category t) (name t) ∈ shown ∧
    (∀ n sev cat nm,
       Say_test n sev cat nm ∈ shown →
       ∃ i t', test_classes self !! i = Some t' ∧ n = S i ∧
               sev = severity t' ∧ cat = category t' ∧ nm = name t') ∧
    (∀ sev cat nm,
       Say_test (S k) sev cat nm ∈ shown →
       sev = severity t ∧ cat = category t ∧ nm = name t) ∧
    (Say_invalid_choice ∉ shown) ∧ (Say_invalid_input ∉ shown).
Proof.
  intros Hurl Hhs Hb Hk.
  pose proof (get_scan_configuration_shown self url hs blank (str_of_nat (S k))
                rest Hurl Hhs Hb) as H.
  rewrite (select_tests_number self k t Hk) in H. cbn [fst snd] in H.
  rewrite app_nil_r in H.
  eexists _, _. split; [exact H|].
  assert (Hlisted : ∀ x,
    (x ∈ ((([Say_configure; Ask_target] ++ [Say_headers; Say_headers_hint])
           ++ replicate (S (length hs)) Ask_header)
          ++ [Say_select; Say_available]
          ++ imap (λ i t, Say_test (S i) (severity t) (category t) (name t))
               (test_classes self)
          ++ [Say_run_all (length (test_classes self) + 1); Ask_choice])) →
    (∃ i t', test_classes self !! i = Some t' ∧
             x = Say_test (S i) (severity t') (category t') (name t'))
    ∨ (x ∈ [Say_configure; Ask_target; Say_headers; Say_headers_hint;
            Ask_header; Say_select; Say_available;
            Say_run_all (length (test_classes self) + 1); Ask_choice])).
  { intros x. rewrite !elem_of_app, elem_of_replicate, elem_of_lookup_imap.
    rewrite !elem_of_cons, !elem_of_nil.
    intros [[[[->|[->|[]]]|[->|[->|[]]]]|[-> _]]|[[->|[->|[]]]|[(i & t' & -> & Hi)|[->|[->|[]]]]]];
      try (right; tauto).
    left. by exists i, t'. }
  split; [|split; [|split; [|split]]].
  - apply elem_of_app. right. apply elem_of_app. right.
    apply elem_of_app. left. apply elem_of_lookup_imap. by exists k, t.
  - intros n sev cat nm Hin.
    apply Hlisted in Hin as [(i & t' & Hi & Heq)|Hin].
    + injection Heq as -> -> -> ->. by exists i, t'.
    + rewrite !elem_of_cons, elem_of_nil in Hin.
      repeat (destruct Hin as [Hin|Hin]; [discriminate Hin|]). done.
  - intros sev cat nm Hin.
    apply Hlisted in Hin as [(i & t' & Hi & Heq)|Hin].
    + injection Heq as <- -> -> ->. rewrite Hk in Hi. by injection Hi as <-.
    + rewrite !elem_of_cons, elem_of_nil in Hin.
      repeat (destruct Hin as [Hin|Hin]; [discriminate Hin|]). done.
  - intros Hin.
    apply Hlisted in Hin as [(i & t' & Hi & Heq)|Hin]; [discriminate Heq|].
    rewrite !elem_of_cons, elem_of_nil in Hin.
    repeat (destruct Hin as [Hin|Hin]; [discriminate Hin|]). done.
  - intros Hin.
    apply Hlisted in Hin as [(i & t' & Hi & Heq)|Hin]; [discriminate Heq|].
    rewrite !elem_of_cons, elem_of_nil in Hin.
    repeat (destruct Hin as [Hin|Hin]; [discriminate Hin|]). done.
Qed.

(** The second of two tests, chosen by its number. *)
Lemma get_scan_configuration_selects_by_number_witness :
  ∃ headers shown,
    get_scan_configuration (Scanner [failing_test; passing_test "API2"])
      ("http://localhost:5000" :: [] ++ "" :: "2" :: [])
    = Answered
        (Config "http://localhost:5000" (Some headers)
           (Some [passing_test "API2"]) None)
        shown [] ∧
    Say_test 2 "HIGH" "API2:2023" "API2" ∈ shown.
Proof.
  destruct (get_scan_configuration_selects_by_number
              (Scanner [failing_test; passing_test "API2"])
              "http://localhost:5000" [] "" 1 (passing_test "API2") [])
    as (headers & shown & H & Hin & _).
  - vm_compute. discriminate.
  - constructor.
  - reflexivity.
  - reflexivity.
  - by exists headers, shown.
Defined.

(** ** [interactive_scan] *)

Lemma get_scan_configuration_selected self answers cfg shown rest :
  get_scan_configuration self answers = Answered cfg shown rest →
  ∃ selected, cfg_selected_tests cfg = Some selected.
Proof.
  unfold get_scan_configuration. cbv zeta.
  destruct answers as [|a answers]; [discriminate|].
  destruct (decide (strip a = "")); [discriminate|].
  destruct (read_headers answers ∅ _) as [headers sh [|choice more]| |];
    try discriminate.
  destruct (select_tests self choice) as [selected said].
  intros [= <- <- <-]. by eexists.
Qed.

(** No scan without a confirmation: unless the configuration was completed
    and the answer to the question that follows it is [y] (in either case,
    white space around it allowed), [interactive_scan] creates no session
    and changes nothing in the store, and it does not return a session. *)
Theorem interactive_scan_needs_confirmation
    (self : SecurityScanner) (answers : list string)
    (now_id now_start now_end : datetime) (w : world) :
  (∀ cfg shown answer rest,
     get_scan_configuration self answers = Answered cfg shown (answer :: rest) →
     lower (strip answer) ≠ "y") →
  let out := interactive_scan self answers now_id now_start now_end w in
  out.2 = w ∧ ∀ session choice rest, out.1.1 ≠ Scan_done session choice rest.
Proof.
  intros H. cbv zeta. unfold interactive_scan.
  destruct (get_scan_configuration self answers) as [cfg shown more|code shown|shown]
    eqn:Hcfg; [|by split..].
  destruct (get_scan_configuration_selected _ _ _ _ _ Hcfg) as [selected ->].
  cbv zeta. destruct more as [|answer more]; [by split|].
  rewrite decide_False by by eapply H. by split.
Qed.

Lemma interactive_scan_needs_confirmation_witness :
  let out := interactive_scan (Scanner sample_selection)
               ["localhost:5000"; ""; "all"; "no"; "1"]
               morning morning evening empty_world in
  out.2 = empty_world ∧ out.1.1 = Scan_cancelled ["1"].
Proof.
  cbv zeta. split; [|vm_compute; reflexivity].
  apply (interactive_scan_needs_confirmation (Scanner sample_selection)
           ["localhost:5000"; ""; "all"; "no"; "1"]
           morning morning evening empty_world).
  intros cfg shown answer rest H. vm_compute in H.
  injection H as _ _ <- _. vm_compute. discriminate.
Defined.


